(** * srctools.bsp: lazily parsed Source BSP lumps

    A shallow embedding of [srctools/bsp.py].  Python values are modelled
    as follows:
    - [bytes] / [bytearray] are lists of 8-bit integers (a [Z] in 0..255);
    - [str] is the list of its code points;
    - an [int] is a [Z]; fixed-width fields get their range check and
      little-endian layout from the [Struct] module below;
    - a call that may raise returns a [result]: [Ok v] or [Raise e];
    - code that mutates the [BSP] instance is a function from the instance
      to an outcome paired with the instance afterwards. *)

From Stdlib Require Import ZArith List Lia Bool.
From Stdlib Require String Ascii QArith Qround.
Import String.StringSyntax.
Delimit Scope string_scope with string.
Import ListNotations.
Open Scope Z_scope.

(** ** Exceptions and results *)

Inductive exn : Type :=
| ValueError
| OverflowError
| IndexError
| KeyError
| TypeError
| AttributeError
| StructError
| UnicodeError
| AssertionError
| NotImplementedError.

Inductive result (A : Type) : Type :=
| Ok (a : A)
| Raise (e : exn).
Arguments Ok {A} a.
Arguments Raise {A} e.

Definition raises {A} (r : result A) : Prop := exists e, r = Raise e.

Definition rbind {A B} (r : result A) (k : A -> result B) : result B :=
  match r with
  | Ok a => k a
  | Raise e => Raise e
  end.

Notation "x <- r ;; k" := (rbind r (fun x => k))
  (at level 61, r at next level, right associativity).

(** A [for] loop collecting one result per element; the first exception
    leaves the loop. *)
Fixpoint for_each {A B} (f : A -> result B) (l : list A) : result (list B) :=
  match l with
  | [] => Ok []
  | a :: l' => b <- f a ;; bs <- for_each f l' ;; Ok (b :: bs)
  end.

(** A [for] loop threading an accumulator. *)
Fixpoint for_fold {A S} (f : S -> A -> result S) (s : S) (l : list A) : result S :=
  match l with
  | [] => Ok s
  | a :: l' => s' <- f s a ;; for_fold f s' l'
  end.

(** ** Python sequences *)

Definition bytes := list Z.
Definition str := list Z.

(** The code points of a literal. *)
Definition lit (s : String.string) : list Z :=
  map (fun c => Z.of_N (Ascii.N_of_ascii c)) (String.list_ascii_of_string s).
Arguments lit s%_string.

Definition len {A} (l : list A) : Z := Z.of_nat (length l).

(** [l[i]]: a negative index counts from the end. *)
Definition py_index {A} (l : list A) (i : Z) : result A :=
  let j := if i <? 0 then i + len l else i in
  if (0 <=? j) && (j <? len l) then
    match nth_error l (Z.to_nat j) with
    | Some a => Ok a
    | None => Raise IndexError
    end
  else Raise IndexError.

(** Clamp a slice bound the way [slice.indices] does for step 1. *)
Definition py_bound (n i : Z) : Z :=
  if i <? 0 then Z.max (i + n) 0 else Z.min i n.

(** [l[a:b]]. *)
Definition py_slice {A} (l : list A) (a b : Z) : list A :=
  let a' := py_bound (len l) a in
  let b' := py_bound (len l) b in
  firstn (Z.to_nat (b' - a')) (skipn (Z.to_nat a') l).

Definition is_ascii (s : list Z) : bool :=
  forallb (fun c => (0 <=? c) && (c <? 128)) s.

(** [s.encode('ascii')] *)
Definition encode_ascii (s : str) : result bytes :=
  if is_ascii s then Ok s else Raise UnicodeError.

(** [b.decode('ascii')] *)
Definition decode_ascii (b : bytes) : result str :=
  if is_ascii b then Ok b else Raise UnicodeError.

Fixpoint starts_with (sub data : bytes) : bool :=
  match sub, data with
  | [], _ => true
  | _ :: _, [] => false
  | x :: sub', y :: data' => (x =? y) && starts_with sub' data'
  end.

Fixpoint find_from (i : Z) (data sub : bytes) : Z :=
  if starts_with sub data then i
  else match data with
       | [] => -1
       | _ :: data' => find_from (i + 1) data' sub
       end.

(** [data.find(sub)]: lowest index of an occurrence, [-1] when absent. *)
Definition bytes_find (data sub : bytes) : Z := find_from 0 data sub.

(** ** The [struct] module, little-endian standard sizes *)

Module Struct.

Fixpoint le_bytes (n : nat) (v : Z) : bytes :=
  match n with
  | O => []
  | S k => (v mod 256) :: le_bytes k (v / 256)
  end.

Fixpoint le_value (bs : bytes) : Z :=
  match bs with
  | [] => 0
  | b :: bs' => b + 256 * le_value bs'
  end.

(** Pack an unsigned field of [n] bytes; out of range is [struct.error]. *)
Definition pack_unsigned (n : nat) (v : Z) : result bytes :=
  if (0 <=? v) && (v <? 2 ^ (8 * Z.of_nat n)) then Ok (le_bytes n v)
  else Raise StructError.

(** Pack a signed field of [n] bytes in two's complement. *)
Definition pack_signed (n : nat) (v : Z) : result bytes :=
  let half := 2 ^ (8 * Z.of_nat n - 1) in
  if (- half <=? v) && (v <? half) then Ok (le_bytes n (v mod (2 * half)))
  else Raise StructError.

Definition to_signed (n : nat) (u : Z) : Z :=
  let half := 2 ^ (8 * Z.of_nat n - 1) in
  if u <? half then u else u - 2 * half.

Definition unpack_unsigned (bs : bytes) : Z := le_value bs.
Definition unpack_signed (bs : bytes) : Z := to_signed (length bs) (le_value bs).

(** Split [bs] into records of [size] bytes ([struct.iter_unpack]);
    a length that is not a multiple of [size] is [struct.error]. *)
Fixpoint chunks (fuel : nat) (size : nat) (bs : bytes) : list bytes :=
  match fuel with
  | O => []
  | S k =>
      match bs with
      | [] => []
      | _ => firstn size bs :: chunks k size (skipn size bs)
      end
  end.

Definition iter_unpack (size : nat) (bs : bytes) : result (list bytes) :=
  if (length bs mod size =? 0)%nat then Ok (chunks (length bs) size bs)
  else Raise StructError.

(** Format characters.  A float ([f]) is carried as the bit pattern of
    its IEEE single; the rounding of a Python double to a single at
    pack time is outside this model.  A bool ([?]) is 0 or 1. *)
Inductive field : Type :=
| Fi      (* i: signed 32 bit *)
| FI      (* I: unsigned 32 bit *)
| Fh      (* h: signed 16 bit *)
| FH      (* H: unsigned 16 bit *)
| FB      (* B: unsigned 8 bit *)
| Ff      (* f: float *)
| Fbool   (* ?: bool *)
| Fx.     (* x: pad byte *)

Definition field_size (f : field) : nat :=
  match f with
  | Fi | FI | Ff => 4
  | Fh | FH => 2
  | FB | Fbool | Fx => 1
  end.

Definition calcsize (fmt : list field) : nat :=
  fold_right (fun f n => (field_size f + n)%nat) 0%nat fmt.

Definition unpack_field (f : field) (bs : bytes) : Z :=
  match f with
  | Fi | Fh => unpack_signed bs
  | FI | FH | FB | Ff => unpack_unsigned bs
  | Fbool => if le_value bs =? 0 then 0 else 1
  | Fx => 0
  end.

Fixpoint unpack_fields (fmt : list field) (bs : bytes) : list Z :=
  match fmt with
  | [] => []
  | Fx :: fmt' => unpack_fields fmt' (skipn 1 bs)
  | f :: fmt' =>
      unpack_field f (firstn (field_size f) bs)
      :: unpack_fields fmt' (skipn (field_size f) bs)
  end.

(** [struct.unpack(fmt, bs)] *)
Definition unpack (fmt : list field) (bs : bytes) : result (list Z) :=
  if (length bs =? calcsize fmt)%nat then Ok (unpack_fields fmt bs)
  else Raise StructError.

Definition pack_field (f : field) (v : Z) : result bytes :=
  match f with
  | Fi => pack_signed 4 v
  | FI | Ff => pack_unsigned 4 v
  | Fh => pack_signed 2 v
  | FH => pack_unsigned 2 v
  | FB => pack_unsigned 1 v
  | Fbool => Ok [if v =? 0 then 0 else 1]
  | Fx => Ok [0]
  end.

(** [struct.pack(fmt, *vals)] *)
Fixpoint pack (fmt : list field) (vals : list Z) : result bytes :=
  match fmt with
  | [] => match vals with [] => Ok [] | _ => Raise StructError end
  | Fx :: fmt' => rest <- pack fmt' vals ;; Ok (0 :: rest)
  | f :: fmt' =>
      match vals with
      | [] => Raise StructError
      | v :: vals' =>
          p <- pack_field f v ;; rest <- pack fmt' vals' ;; Ok (p ++ rest)
      end
  end.

(** A stream position in a [BytesIO]: the bytes not yet read. *)
Definition reader (A : Type) : Type := bytes -> result (A * bytes).

(** Modelled from the spec: [srctools.binformat.struct_read], which is
    not part of the sources at hand, reads [calcsize(fmt)] bytes from
    the file and unpacks them; a short read is a [struct.error]. *)
Definition struct_read (fmt : list field) : reader (list Z) :=
  fun stream =>
    let n := calcsize fmt in
    vals <- unpack fmt (firstn n stream) ;;
    Ok (vals, skipn n stream).

End Struct.

(** ** Vectors *)

(** [srctools.Vec] / [srctools.Angle]: three numbers as they come off the
    wire (a float component is carried as its bit pattern). *)
Record Vec : Type := mkVec { vx : Z; vy : Z; vz : Z }.

(** [Vec(t)] for a slice [t] of an unpacked record. *)
Definition Vec_of (t : list Z) : result Vec :=
  match t with
  | [a; b; c] => Ok (mkVec a b c)
  | _ => Raise TypeError
  end.

(** ** Texture name table: [_lmp_read_textures] / [_lmp_write_textures] *)

Module Textures.

(** [struct.unpack('<' + str(len(tex_table) // 4) + 'i', tex_table)] *)
Definition unpack_table (tex_table : bytes) : result (list Z) :=
  if (length tex_table mod 4 =? 0)%nat then
    Ok (map Struct.unpack_signed (Struct.chunks (length tex_table) 4 tex_table))
  else Raise StructError.

(** The inner [for str_off in range(off, off + 128)] loop with its
    [else] clause; [remaining] counts the iterations still to run. *)
Fixpoint scan_nul (tex_data : bytes) (off str_off : Z) (remaining : nat)
  : result str :=
  match remaining with
  | O => Raise ValueError
  | S k =>
      b <- py_index tex_data str_off ;;
      if b =? 0 then decode_ascii (py_slice tex_data off str_off)
      else scan_nul tex_data off (str_off + 1) k
  end.

Definition read_name (tex_data : bytes) (off : Z) : result str :=
  scan_nul tex_data off off 128.

Definition _lmp_read_textures (tex_table tex_data : bytes) : result (list str) :=
  table_offsets <- unpack_table tex_table ;;
  for_each (read_name tex_data) table_offsets.

(** One iteration of the encode loop over [(table, data)]. *)
Definition write_name (st : bytes * bytes) (tex : str) : result (bytes * bytes) :=
  let '(table, data) := st in
  if 128 <=? len tex then Raise OverflowError
  else
    enc <- encode_ascii tex ;;
    let string := enc ++ [0] in
    let ind := bytes_find data string in
    let '(ind, data) :=
      if ind =? -1 then (len data, data ++ string) else (ind, data) in
    p <- Struct.pack_signed 4 ind ;;
    Ok (table ++ p, data).

(** Returns the offset table (stored in the TEXDATA_STRING_TABLE lump)
    together with the string blob (the return value). *)
Definition _lmp_write_textures (textures : list str) : result (bytes * bytes) :=
  for_fold write_name ([], []) textures.

End Textures.

(** ** Overlays: [_lmp_read_overlays] *)

Module Overlays.
Section WithTexInfo.
(** The decoded [texinfo] view, indexed by each overlay. *)
Variable TexInfo : Type.

Record Overlay : Type := mkOverlay {
  id : Z;
  origin : Vec;
  normal : Vec;
  texture : TexInfo;
  face_count : Z;
  faces : list Z;
  render_order : Z;
  u_min : Z;
  u_max : Z;
  v_min : Z;
  v_max : Z;
  uv1 : Vec;
  uv2 : Vec;
  uv3 : Vec;
  uv4 : Vec
}.

(** ['<ihH' '64i' '4f' '18f'] *)
Definition overlay_fmt : list Struct.field :=
  [Struct.Fi; Struct.Fh; Struct.FH]
    ++ repeat Struct.Fi 64 ++ repeat Struct.Ff 4 ++ repeat Struct.Ff 18.

(** The attrs-generated [Overlay.__init__]: the [render_order]
    validator is [in_(range(3))]; the [faces] validator accepts any
    list of ints. *)
Definition Overlay_init (o : Overlay) : result Overlay :=
  if (0 <=? render_order o) && (render_order o <? 3) then Ok o
  else Raise ValueError.

(** The loop body, for one unpacked [block]. *)
Definition read_overlay (texinfo_list : list TexInfo) (block : list Z)
  : result Overlay :=
  match py_slice block 0 3 with
  | [over_id; texinfo; face_ro] =>
      let face_count := Z.land face_ro (Z.shiftl 1 14 - 1) in
      let render_order := Z.shiftr face_ro 14 in
      if 64 <? face_count then Raise ValueError
      else
        let faces := py_slice block 3 (3 + face_count) in
        match py_slice block 67 71 with
        | [u_min; u_max; v_min; v_max] =>
            uv1 <- Vec_of (py_slice block 71 74) ;;
            uv2 <- Vec_of (py_slice block 74 77) ;;
            uv3 <- Vec_of (py_slice block 77 80) ;;
            uv4 <- Vec_of (py_slice block 80 83) ;;
            origin <- Vec_of (py_slice block 83 86) ;;
            normal <- Vec_of (py_slice block 86 89) ;;
            if negb (len block =? 89) then Raise AssertionError
            else
              tex <- py_index texinfo_list texinfo ;;
              Overlay_init
                (mkOverlay over_id origin normal tex face_count faces
                           render_order u_min u_max v_min v_max
                           uv1 uv2 uv3 uv4)
        | _ => Raise ValueError
        end
  | _ => Raise ValueError
  end.

Definition _lmp_read_overlays (texinfo_list : list TexInfo) (data : bytes)
  : result (list Overlay) :=
  records <- Struct.iter_unpack (Struct.calcsize overlay_fmt) data ;;
  for_each
    (fun rec => block <- Struct.unpack overlay_fmt rec ;;
                read_overlay texinfo_list block)
    records.

End WithTexInfo.
End Overlays.

(** ** Visibility tree: [vis_tree] *)

(** [BSP.version]: a member of the [VERSIONS] enum, or a bare [int] when
    the file's version number is not in the enum. *)
Inductive bsp_version : Type :=
| VersionEnum (value : Z)
| VersionInt (v : Z).

Module Vis.

Record VisLeaf : Type := mkVisLeaf {
  id : Z;
  area : Z;
  flags : Z;
  leaf_mins : Vec;
  leaf_maxes : Vec;
  first_face : Z;
  face_count : Z;
  first_brush : Z;
  brush_count : Z;
  water_id : Z
}.

(** A child slot of a node.  [VisTree] objects are mutated after they
    are created, so a child node is held by reference: its address in
    the store of node objects. *)
Inductive child : Type :=
| ChildNone
| ChildLeaf (leaf : VisLeaf)
| ChildTree (addr : nat).

Record VisTree : Type := mkVisTree {
  plane_norm : Vec;
  plane_dist : Z;
  mins : Vec;
  maxes : Vec;
  child_neg : child;
  child_pos : child
}.

Definition set_child_neg (c : child) (n : VisTree) : VisTree :=
  mkVisTree (plane_norm n) (plane_dist n) (mins n) (maxes n) c (child_pos n).

Definition set_child_pos (c : child) (n : VisTree) : VisTree :=
  mkVisTree (plane_norm n) (plane_dist n) (mins n) (maxes n) (child_neg n) c.

(** The store of [VisTree] objects, addressed by position. *)
Definition store : Type := list VisTree.

Fixpoint store_update (addr : nat) (f : VisTree -> VisTree) (st : store)
  : store :=
  match st, addr with
  | [], _ => []
  | n :: st', O => f n :: st'
  | n :: st', S a => n :: store_update a f st'
  end.

(** ['<ffffi'] *)
Definition plane_fmt : list Struct.field :=
  [Struct.Ff; Struct.Ff; Struct.Ff; Struct.Ff; Struct.Fi].

(** ['<iii6hHHh2x'] *)
Definition node_fmt : list Struct.field :=
  [Struct.Fi; Struct.Fi; Struct.Fi] ++ repeat Struct.Fh 6
    ++ [Struct.FH; Struct.FH; Struct.Fh; Struct.Fx; Struct.Fx].

(** ['<ihh6h4Hh2x'], followed by ['26x'] up to version 19. *)
Definition leaf_fmt (old : bool) : list Struct.field :=
  [Struct.Fi; Struct.Fh; Struct.Fh] ++ repeat Struct.Fh 6
    ++ repeat Struct.FH 4 ++ [Struct.Fh; Struct.Fx; Struct.Fx]
    ++ (if old then repeat Struct.Fx 26 else []).

Definition read_plane (rec : bytes) : result (Vec * Z) :=
  vals <- Struct.unpack plane_fmt rec ;;
  match vals with
  | [x; y; z; dist; _] => Ok (mkVec x y z, dist)
  | _ => Raise ValueError
  end.

(** A flat node: the address of its [VisTree] object and the two
    signed child indices. *)
Definition flat_node : Type := (nat * Z * Z)%type.

(** One iteration of the node loop: create the object, remember its
    address with the child indices. *)
Definition read_node (planes : list (Vec * Z))
           (acc : store * list flat_node) (rec : bytes)
  : result (store * list flat_node) :=
  let '(st, nodes) := acc in
  vals <- Struct.unpack node_fmt rec ;;
  match vals with
  | [plane_ind; neg_ind; pos_ind; min_x; min_y; min_z;
     max_x; max_y; max_z; _; _; _] =>
      p <- py_index planes plane_ind ;;
      let node := mkVisTree (fst p) (snd p) (mkVec min_x min_y min_z)
                            (mkVec max_x max_y max_z) ChildNone ChildNone in
      Ok (st ++ [node], nodes ++ [(length st, neg_ind, pos_ind)])
  | _ => Raise ValueError
  end.

(** One iteration of the leaf loop; the leaf's id is its position. *)
Definition read_leaf (old : bool) (leafs : list VisLeaf) (rec : bytes)
  : result (list VisLeaf) :=
  vals <- Struct.unpack (leaf_fmt old) rec ;;
  match vals with
  | [_; _; area_and_flags; min_x; min_y; min_z; max_x; max_y; max_z;
     first_face; num_faces; first_brush; num_brushes; water_ind] =>
      let area := Z.shiftr area_and_flags 7 in
      let flags := Z.land area_and_flags 127 in
      Ok (leafs ++ [mkVisLeaf (len leafs) area flags
                              (mkVec min_x min_y min_z)
                              (mkVec max_x max_y max_z)
                              first_face num_faces first_brush num_brushes
                              water_ind])
  | _ => Raise ValueError
  end.

(** What a child slot holding the integer [c] is linked to. *)
Definition resolve_child (leafs : list VisLeaf) (nodes : list flat_node)
           (c : Z) : result child :=
  if c <? 0 then
    leaf <- py_index leafs (-1 - c) ;; Ok (ChildLeaf leaf)
  else
    n <- py_index nodes c ;; Ok (ChildTree (fst (fst n))).

(** One iteration of the linking loop. *)
Definition link_node (leafs : list VisLeaf) (nodes : list flat_node)
           (st : store) (n : flat_node) : result store :=
  let '(node, neg_ind, pos_ind) := n in
  cn <- resolve_child leafs nodes neg_ind ;;
  let st := store_update node (set_child_neg cn) st in
  cp <- resolve_child leafs nodes pos_ind ;;
  Ok (store_update node (set_child_pos cp) st).

Record tree : Type := mkTree { objects : store; root : nat }.

(** First parse everything: the node objects (children unset), the flat
    nodes and the leaves. *)
Definition materialise (version : bsp_version)
           (planes_data nodes_data leafs_data : bytes)
  : result (store * list flat_node * list VisLeaf) :=
  plane_recs <- Struct.iter_unpack (Struct.calcsize plane_fmt) planes_data ;;
  planes <- for_each read_plane plane_recs ;;
  node_recs <- Struct.iter_unpack (Struct.calcsize node_fmt) nodes_data ;;
  made <- for_fold (read_node planes) ([], []) node_recs ;;
  old <- match version with
         | VersionEnum value => Ok (value <=? 19)
         | VersionInt _ => Raise AttributeError
         end ;;
  leaf_recs <- Struct.iter_unpack (Struct.calcsize (leaf_fmt old)) leafs_data ;;
  leafs <- for_fold (read_leaf old) [] leaf_recs ;;
  Ok (fst made, snd made, leafs).

(** Then link up the objects; the first node is the top of the tree. *)
Definition link (m : store * list flat_node * list VisLeaf) : result tree :=
  let '(st, nodes, leafs) := m in
  st <- for_fold (link_node leafs nodes) st nodes ;;
  first <- py_index nodes 0 ;;
  Ok (mkTree st (fst (fst first))).

Definition vis_tree (version : bsp_version)
           (planes_data nodes_data leafs_data : bytes) : result tree :=
  m <- materialise version planes_data nodes_data leafs_data ;;
  link m.

End Vis.

(** ** The container and its lazily parsed views *)

(** The lumps of a BSP file, by their position in the index.  Reused
    positions have aliases in the source (UNUSED0 and PROPCOLLISION for
    PORTALS, LIGHTMAPPAGES for LEAF_AMBIENT_INDEX_HDR, ...); an alias is
    the same enum member. *)
Inductive BSP_LUMPS : Type :=
| ENTITIES
| PLANES
| TEXDATA
| VERTEXES
| VISIBILITY
| NODES
| TEXINFO
| FACES
| LIGHTING
| OCCLUSION
| LEAFS
| FACEIDS
| EDGES
| SURFEDGES
| MODELS
| WORLDLIGHTS
| LEAFFACES
| LEAFBRUSHES
| BRUSHES
| BRUSHSIDES
| AREAS
| AREAPORTALS
| PORTALS
| CLUSTERS
| PORTALVERTS
| CLUSTERPORTALS
| DISPINFO
| ORIGINALFACES
| PHYSDISP
| PHYSCOLLIDE
| VERTNORMALS
| VERTNORMALINDICES
| DISP_LIGHTMAP_ALPHAS
| DISP_VERTS
| DISP_LIGHTMAP_SAMPLE_POSITIONS
| GAME_LUMP
| LEAFWATERDATA
| PRIMITIVES
| PRIMVERTS
| PRIMINDICES
| PAKFILE
| CLIPPORTALVERTS
| CUBEMAPS
| TEXDATA_STRING_DATA
| TEXDATA_STRING_TABLE
| OVERLAYS
| LEAFMINDISTTOWATER
| FACE_MACRO_TEXTURE_INFO
| DISP_TRIS
| PROP_BLOB
| WATEROVERLAYS
| LEAF_AMBIENT_INDEX_HDR
| LEAF_AMBIENT_INDEX
| LIGHTING_HDR
| WORLDLIGHTS_HDR
| LEAF_AMBIENT_LIGHTING_HDR
| LEAF_AMBIENT_LIGHTING
| XZIPPAKFILE
| FACES_HDR
| MAP_FLAGS
| OVERLAY_FADES
| OVERLAY_SYSTEM_LEVELS
| PHYSLEVEL
| DISP_MULTIBLEND.

Definition lump_value (l : BSP_LUMPS) : nat :=
  match l with
  | ENTITIES => 0
  | PLANES => 1
  | TEXDATA => 2
  | VERTEXES => 3
  | VISIBILITY => 4
  | NODES => 5
  | TEXINFO => 6
  | FACES => 7
  | LIGHTING => 8
  | OCCLUSION => 9
  | LEAFS => 10
  | FACEIDS => 11
  | EDGES => 12
  | SURFEDGES => 13
  | MODELS => 14
  | WORLDLIGHTS => 15
  | LEAFFACES => 16
  | LEAFBRUSHES => 17
  | BRUSHES => 18
  | BRUSHSIDES => 19
  | AREAS => 20
  | AREAPORTALS => 21
  | PORTALS => 22
  | CLUSTERS => 23
  | PORTALVERTS => 24
  | CLUSTERPORTALS => 25
  | DISPINFO => 26
  | ORIGINALFACES => 27
  | PHYSDISP => 28
  | PHYSCOLLIDE => 29
  | VERTNORMALS => 30
  | VERTNORMALINDICES => 31
  | DISP_LIGHTMAP_ALPHAS => 32
  | DISP_VERTS => 33
  | DISP_LIGHTMAP_SAMPLE_POSITIONS => 34
  | GAME_LUMP => 35
  | LEAFWATERDATA => 36
  | PRIMITIVES => 37
  | PRIMVERTS => 38
  | PRIMINDICES => 39
  | PAKFILE => 40
  | CLIPPORTALVERTS => 41
  | CUBEMAPS => 42
  | TEXDATA_STRING_DATA => 43
  | TEXDATA_STRING_TABLE => 44
  | OVERLAYS => 45
  | LEAFMINDISTTOWATER => 46
  | FACE_MACRO_TEXTURE_INFO => 47
  | DISP_TRIS => 48
  | PROP_BLOB => 49
  | WATEROVERLAYS => 50
  | LEAF_AMBIENT_INDEX_HDR => 51
  | LEAF_AMBIENT_INDEX => 52
  | LIGHTING_HDR => 53
  | WORLDLIGHTS_HDR => 54
  | LEAF_AMBIENT_LIGHTING_HDR => 55
  | LEAF_AMBIENT_LIGHTING => 56
  | XZIPPAKFILE => 57
  | FACES_HDR => 58
  | MAP_FLAGS => 59
  | OVERLAY_FADES => 60
  | OVERLAY_SYSTEM_LEVELS => 61
  | PHYSLEVEL => 62
  | DISP_MULTIBLEND => 63
  end.

(** [list(BSP_LUMPS)]: the members in index order. *)
Definition all_lumps : list BSP_LUMPS :=
  [ENTITIES; PLANES; TEXDATA; VERTEXES;
   VISIBILITY; NODES; TEXINFO; FACES;
   LIGHTING; OCCLUSION; LEAFS; FACEIDS;
   EDGES; SURFEDGES; MODELS; WORLDLIGHTS;
   LEAFFACES; LEAFBRUSHES; BRUSHES; BRUSHSIDES;
   AREAS; AREAPORTALS; PORTALS; CLUSTERS;
   PORTALVERTS; CLUSTERPORTALS; DISPINFO; ORIGINALFACES;
   PHYSDISP; PHYSCOLLIDE; VERTNORMALS; VERTNORMALINDICES;
   DISP_LIGHTMAP_ALPHAS; DISP_VERTS; DISP_LIGHTMAP_SAMPLE_POSITIONS; GAME_LUMP;
   LEAFWATERDATA; PRIMITIVES; PRIMVERTS; PRIMINDICES;
   PAKFILE; CLIPPORTALVERTS; CUBEMAPS; TEXDATA_STRING_DATA;
   TEXDATA_STRING_TABLE; OVERLAYS; LEAFMINDISTTOWATER; FACE_MACRO_TEXTURE_INFO;
   DISP_TRIS; PROP_BLOB; WATEROVERLAYS; LEAF_AMBIENT_INDEX_HDR;
   LEAF_AMBIENT_INDEX; LIGHTING_HDR; WORLDLIGHTS_HDR; LEAF_AMBIENT_LIGHTING_HDR;
   LEAF_AMBIENT_LIGHTING; XZIPPAKFILE; FACES_HDR; MAP_FLAGS;
   OVERLAY_FADES; OVERLAY_SYSTEM_LEVELS; PHYSLEVEL; DISP_MULTIBLEND].

Definition lump_eqb (a b : BSP_LUMPS) : bool :=
  Nat.eqb (lump_value a) (lump_value b).

Record Lump : Type := mkLump {
  lump_type : BSP_LUMPS;
  lump_version : Z;
  ident : bytes;
  data : bytes
}.

Record GameLump : Type := mkGameLump {
  game_id : bytes;
  game_flags : Z;
  game_version : Z;
  game_data : bytes
}.

(** What a [ZipFile] writes to: an in-memory [BytesIO], a file on disk,
    or nothing once closed. *)
Inductive file_object : Type :=
| BytesIO (buf : bytes)
| DiskFile (path : str)
| NoFile.

Record ZipFile : Type := mkZipFile { fp : file_object; zip_filename : str }.

(** The decoded objects held in [BSP._parsed_lumps]. *)
Inductive pyobj : Type :=
| PZip (z : ZipFile)
| PTextures (names : list str)
| PObject (ref : Z).

(** A [BSP] instance.  [BSP.__init__] calls [read()], which fills every
    slot of [lumps], so the dict is a total map here; [_parsed_lumps] has
    an entry only for the views that were materialised. *)
Record BSP : Type := mkBSP {
  filename : str;
  lumps : BSP_LUMPS -> Lump;
  _parsed_lumps : BSP_LUMPS -> option pyobj;
  game_lumps : list (bytes * GameLump);
  version : bsp_version;
  out_comma_sep : option bool
}.

Definition get_lump (self : BSP) (lump : BSP_LUMPS) : bytes :=
  data (lumps self lump).

(** [instance.lumps[lump].data = new_data] *)
Definition set_lump_data (lump : BSP_LUMPS) (new_data : bytes) (self : BSP)
  : BSP :=
  mkBSP (filename self)
        (fun l => if lump_eqb l lump
                  then mkLump (lump_type (lumps self l))
                              (lump_version (lumps self l))
                              (ident (lumps self l)) new_data
                  else lumps self l)
        (_parsed_lumps self) (game_lumps self) (version self)
        (out_comma_sep self).

(** [instance._parsed_lumps[lump] = value] *)
Definition set_parsed (lump : BSP_LUMPS) (value : pyobj) (self : BSP) : BSP :=
  mkBSP (filename self) (lumps self)
        (fun l => if lump_eqb l lump then Some value else _parsed_lumps self l)
        (game_lumps self) (version self) (out_comma_sep self).

(** A call on the instance: its outcome and the instance afterwards. *)
Definition action (A : Type) : Type := BSP -> result A * BSP.

(** The descriptor.  [_read] and [_check] are looked up by
    [__set_name__]; a reader may itself mutate the instance. *)
Record ParsedLump : Type := mkParsedLump {
  lump : BSP_LUMPS;
  extra : list BSP_LUMPS;
  _read : option (BSP -> bytes -> result pyobj * BSP);
  _check : option (BSP -> pyobj -> result unit)
}.

Definition to_clear (self : ParsedLump) : list BSP_LUMPS :=
  lump self :: extra self.

(** [for lump in self.to_clear: instance.lumps[lump].data = b''] *)
Definition clear_lumps (ls : list BSP_LUMPS) (instance : BSP) : BSP :=
  fold_left (fun s l => set_lump_data l [] s) ls instance.

(** [ParsedLump.__get__] on an instance: read the lump, then discard. *)
Definition __get__ (self : ParsedLump) : action pyobj :=
  fun instance =>
    match _parsed_lumps instance (lump self) with
    | Some cached => (Ok cached, instance)
    | None =>
        match _read self with
        | None => (Raise TypeError, instance)
        | Some read =>
            let data := get_lump instance (lump self) in
            match read instance data with
            | (Raise e, instance) => (Raise e, instance)
            | (Ok result, instance) =>
                let instance := set_parsed (lump self) result instance in
                (Ok result, clear_lumps (to_clear self) instance)
            end
        end
    end.

(** [ParsedLump.__set__] on an instance: discard lump data, then store. *)
Definition __set__ (self : ParsedLump) (value : pyobj) : action unit :=
  fun instance =>
    let checked :=
      match _check self with
      | Some check => check instance value
      | None => Ok tt
      end in
    match checked with
    | Raise e => (Raise e, instance)
    | Ok _ =>
        let instance := clear_lumps (to_clear self) instance in
        (Ok tt, set_parsed (lump self) value instance)
    end.

Section WithZipFile.

(** [zipfile.ZipFile(BytesIO(data), mode='a')] is the standard
    library's: it reads the directory of the archive that the buffer
    holds, takes a buffer that holds no archive as an empty one, and on
    some bytes raises (an archive it does not support, a file name it
    cannot decode).  [ZipFile_init data] is what the constructor
    raises on [data], if anything. *)
Variable ZipFile_init : bytes -> result unit.

(** [_lmp_read_pakfile]: the raw binary as a writable archive. *)
Definition _lmp_read_pakfile (self : BSP) (data : bytes)
  : result pyobj * BSP :=
  match ZipFile_init data with
  | Ok _ => (Ok (PZip (mkZipFile (BytesIO data) (filename self))), self)
  | Raise e => (Raise e, self)
  end.

(** [_lmp_check_pakfile]: [isinstance(file.fp, BytesIO)]. *)
Definition _lmp_check_pakfile (self : BSP) (file : pyobj) : result unit :=
  match file with
  | PZip z =>
      match fp z with
      | BytesIO _ => Ok tt
      | _ => Raise ValueError
      end
  | _ => Raise AttributeError
  end.

(** [pakfile = ParsedLump(BSP_LUMPS.PAKFILE)] *)
Definition pakfile : ParsedLump :=
  mkParsedLump PAKFILE [] (Some _lmp_read_pakfile) (Some _lmp_check_pakfile).

End WithZipFile.

(** [_lmp_read_textures] as the reader of the [textures] view: the
    offset table comes from the TEXDATA_STRING_TABLE lump. *)
Definition read_textures_view (self : BSP) (tex_data : bytes)
  : result pyobj * BSP :=
  (names <- Textures._lmp_read_textures
              (get_lump self TEXDATA_STRING_TABLE) tex_data ;;
   Ok (PTextures names), self).

(** [textures = ParsedLump(TEXDATA_STRING_DATA, TEXDATA_STRING_TABLE)] *)
Definition textures : ParsedLump :=
  mkParsedLump TEXDATA_STRING_DATA [TEXDATA_STRING_TABLE]
               (Some read_textures_view) None.

(** ** Entity lump: [_lmp_read_ents] / [write_ent_data] *)

(** [bytes.splitlines()]: lines end at LF, CR or CRLF; [cur] is the line
    being collected, most recent byte first. *)
Fixpoint splitlines_from (cur : bytes) (bs : bytes) : list bytes :=
  match bs with
  | [] => match cur with [] => [] | _ => [rev cur] end
  | 10 :: rest => rev cur :: splitlines_from [] rest
  | 13 :: rest =>
      match rest with
      | 10 :: rest' => rev cur :: splitlines_from [] rest'
      | _ => rev cur :: splitlines_from [] rest
      end
  | b :: rest => splitlines_from (b :: cur) rest
  end.

Definition splitlines (bs : bytes) : list bytes := splitlines_from [] bs.

Definition bytes_eqb (a b : bytes) : bool :=
  (length a =? length b)%nat && starts_with a b.

(** [b in value] *)
Definition contains (b : Z) (value : bytes) : bool := existsb (Z.eqb b) value.

(** [value.count(b)] for a single byte. *)
Definition count (b : Z) (value : bytes) : Z :=
  len (filter (Z.eqb b) value).

(** [value.replace(br'\"', b'"')] *)
Fixpoint unescape_quotes (value : bytes) : bytes :=
  match value with
  | [] => []
  | 92 :: rest =>
      match rest with
      | 34 :: rest' => 34 :: unescape_quotes rest'
      | _ => 92 :: unescape_quotes rest
      end
  | b :: rest => b :: unescape_quotes rest
  end.

Module Ents.
Section WithOutput.

(** [srctools.vmf.Output] is not part of the sources at hand: it is a
    type with a parser from a property (key and value) that raises
    [ValueError] on a malformed value, a [comma_sep] attribute and its
    text form. *)
Variable Output : Type.
Variable Output_parse : str -> str -> result Output.
Variable set_comma_sep : bool -> Output -> Output.
Variable _get_text : Output -> str.
(** [srctools.tokenizer.escape_text] and [srctools.conv_int]. *)
Variable escape_text : str -> str.
Variable conv_int : str -> Z -> Z.

(** Modelled from the spec: the entity model ([srctools.vmf]) is an
    external collaborator that exposes a mapping of string keys to
    string values and an ordered list of output records per entity. *)
Record Entity : Type := mkEntity {
  keys : list (str * str);
  outputs : list Output
}.

Fixpoint assoc_set (key value : str) (kv : list (str * str))
  : list (str * str) :=
  match kv with
  | [] => [(key, value)]
  | (k, v) :: kv' =>
      if bytes_eqb k key then (k, value) :: kv'
      else (k, v) :: assoc_set key value kv'
  end.

Fixpoint assoc_get (key : str) (kv : list (str * str)) : str :=
  match kv with
  | [] => []
  | (k, v) :: kv' => if bytes_eqb k key then v else assoc_get key kv'
  end.

(** [ent[key] = value] *)
Definition set_key (ent : Entity) (key value : str) : Entity :=
  mkEntity (assoc_set key value (keys ent)) (outputs ent).

(** [ent[key]] *)
Definition get_key (ent : Entity) (key : str) : str :=
  assoc_get key (keys ent).

(** [ent.add_out(output)] *)
Definition add_out (ent : Entity) (o : Output) : Entity :=
  mkEntity (keys ent) (outputs ent ++ [o]).

Record VMF : Type := mkVMF {
  spawn : Entity;
  entities : list Entity;
  map_ver : Z
}.

(** [key, value = line.split(b'" "', 2)]: exactly one separator, or the
    unpacking fails. *)
Definition split_keyvalue (line : bytes) : result (bytes * bytes) :=
  let sep := [34; 32; 34] in
  let i := bytes_find line sep in
  if i =? -1 then Raise ValueError
  else
    let key := firstn (Z.to_nat i) line in
    let value := skipn (Z.to_nat i + 3) line in
    if bytes_find value sep =? -1 then Ok (key, value)
    else Raise ValueError.

(** The tail of the loop body, for a line that is none of the three
    marker lines, inside the entity [cur_ent]: it returns the entity
    and [self.out_comma_sep] afterwards.  [except ValueError] also
    catches its subclass [UnicodeError]. *)
Definition read_keyvalue (out_sep : option bool) (cur_ent : Entity)
           (line : bytes) : result (Entity * option bool) :=
  kv <- split_keyvalue line ;;
  let '(key, value) := kv in
  decoded_key <- decode_ascii (py_slice key 1 (len key)) ;;
  decoded_value <- decode_ascii (unescape_quotes (py_slice value 0 (-1))) ;;
  if contains 27 value then
    o <- Output_parse decoded_key decoded_value ;;
    Ok (add_out cur_ent o,
        match out_sep with None => Some false | _ => out_sep end)
  else if count 44 value =? 4 then
    ent <- match Output_parse decoded_key decoded_value with
           | Ok o => Ok (add_out cur_ent o)
           | Raise ValueError | Raise UnicodeError =>
               Ok (set_key cur_ent decoded_key decoded_value)
           | Raise e => Raise e
           end ;;
    Ok (ent, match out_sep with None => Some true | _ => out_sep end)
  else
    Ok (set_key cur_ent decoded_key decoded_value, out_sep).

(** [cur_ent]: between brackets, the world entity (an alias of
    [vmf.spawn]), or a fresh entity not yet added to the map. *)
Inductive cursor : Type :=
| Between
| InSpawn
| InEntity (ent : Entity).

Record reading : Type := mkReading {
  vmf : VMF;
  cur_ent : cursor;
  seen_spawn : bool;
  comma_sep : option bool
}.

(** What one iteration of the loop over the lines does: go on with the
    next line, or return from the function. *)
Inductive step : Type :=
| Continue (st : reading)
| Return (v : VMF).

(** The loop body. *)
Definition read_line (st : reading) (line : bytes) : result step :=
  if bytes_eqb line (lit "{") then
    match cur_ent st with
    | Between =>
        if seen_spawn st
        then Ok (Continue (mkReading (vmf st) (InEntity (mkEntity [] []))
                                     true (comma_sep st)))
        else Ok (Continue (mkReading (vmf st) InSpawn true (comma_sep st)))
    | _ => Raise ValueError
    end
  else if bytes_eqb line (lit "}") then
    match cur_ent st with
    | Between => Raise ValueError
    | InSpawn =>
        if bytes_eqb (get_key (spawn (vmf st)) (lit "classname"))
                     (lit "worldspawn")
        then Ok (Continue (mkReading (vmf st) Between (seen_spawn st)
                                     (comma_sep st)))
        else Raise ValueError
    | InEntity ent =>
        let v := vmf st in
        Ok (Continue
              (mkReading (mkVMF (spawn v) (entities v ++ [ent]) (map_ver v))
                         Between (seen_spawn st) (comma_sep st)))
    end
  else if bytes_eqb line [0] then
    match cur_ent st with
    | Between => Ok (Return (vmf st))
    | _ => Raise ValueError
    end
  else
    match cur_ent st with
    | Between => Raise ValueError
    | InSpawn =>
        r <- read_keyvalue (comma_sep st) (spawn (vmf st)) line ;;
        let v := vmf st in
        Ok (Continue (mkReading (mkVMF (fst r) (entities v) (map_ver v))
                                InSpawn (seen_spawn st) (snd r)))
    | InEntity ent =>
        r <- read_keyvalue (comma_sep st) ent line ;;
        Ok (Continue (mkReading (vmf st) (InEntity (fst r)) (seen_spawn st)
                                (snd r)))
    end.

(** The loop over the lines; the NUL line returns from inside it, the
    end of the lines falls through to the [map_ver] update.  The result
    carries [self.out_comma_sep] as the call leaves it. *)
Fixpoint read_lines (lines : list bytes) (st : reading)
  : result (VMF * option bool) :=
  match lines with
  | [] =>
      let v := vmf st in
      Ok (mkVMF (spawn v) (entities v)
                 (conv_int (get_key (spawn v) (lit "mapversion")) (map_ver v)),
          comma_sep st)
  | line :: rest =>
      s <- read_line st line ;;
      match s with
      | Continue st' => read_lines rest st'
      | Return v => Ok (v, comma_sep st)
      end
  end.

(** [_lmp_read_ents]: [new_vmf] is the map made by [VMF()]; the result
    carries [self.out_comma_sep] as the call leaves it. *)
Definition _lmp_read_ents (new_vmf : VMF) (out_sep : option bool)
           (ent_data : bytes) : result (VMF * option bool) :=
  read_lines (splitlines ent_data) (mkReading new_vmf Between false out_sep).

(** The text of one output under [write_ent_data]'s [use_comma_sep]. *)
Definition write_output (use_comma_sep : option bool) (o : Output)
  : result bytes :=
  let o := match use_comma_sep with
           | Some sep => set_comma_sep sep o
           | None => o
           end in
  encode_ascii (_get_text o).

Definition write_entity (use_comma_sep : option bool) (ent : Entity)
  : result bytes :=
  ks <- for_each (fun kv => encode_ascii
                              ([34] ++ fst kv ++ [34; 32; 34]
                                    ++ escape_text (snd kv) ++ [34; 10]))
                 (keys ent) ;;
  os <- for_each (write_output use_comma_sep) (outputs ent) ;;
  Ok (lit "{" ++ [10] ++ concat ks ++ concat os ++ lit "}" ++ [10]).

(** [write_ent_data(vmf, use_comma_sep)] *)
Definition write_ent_data (v : VMF) (use_comma_sep : option bool)
  : result bytes :=
  ents <- for_each (write_entity use_comma_sep) (spawn v :: entities v) ;;
  Ok (concat ents ++ [0]).

(** [_lmp_write_ents]: the style remembered by the last decode. *)
Definition _lmp_write_ents (out_sep : option bool) (v : VMF) : result bytes :=
  write_ent_data v out_sep.

End WithOutput.
End Ents.

(** ** Static props: [static_props] / [write_static_props] *)

Module StaticProps.
Import Struct.

Definition rd_ret {A} (a : A) : reader A := fun stream => Ok (a, stream).

Definition rd_bind {A B} (r : reader A) (k : A -> reader B) : reader B :=
  fun stream =>
    match r stream with
    | Ok (a, stream') => k a stream'
    | Raise e => Raise e
    end.

Definition rd_fail {A} (e : exn) : reader A := fun _ => Raise e.

(** A step that does not touch the stream. *)
Definition rd_lift {A} (r : result A) : reader A :=
  fun stream => match r with Ok a => Ok (a, stream) | Raise e => Raise e end.

Notation "x <~ r ;; k" := (rd_bind r (fun x => k))
  (at level 61, r at next level, right associativity).

(** [for _ in range(n)] collecting what each iteration reads. *)
Fixpoint rd_repeat {A} (n : nat) (r : reader A) : reader (list A) :=
  match n with
  | O => rd_ret []
  | S k => a <~ r ;; rest <~ rd_repeat k r ;; rd_ret (a :: rest)
  end.

(** [struct_read('<128s', file)] *)
Definition read_128s : reader bytes :=
  fun stream =>
    if (length stream <? 128)%nat then Raise StructError
    else Ok (firstn 128 stream, skipn 128 stream).

(** [b.rstrip(b'\x00')] *)
Definition rstrip_nul (b : bytes) : bytes :=
  rev ((fix drop (l : bytes) : bytes :=
          match l with
          | 0 :: l' => drop l'
          | _ => l
          end) (rev b)).

(** [struct.pack('<128s', b)]: cut or NUL-padded to 128 bytes. *)
Definition pack_128s (b : bytes) : bytes :=
  firstn 128 b ++ repeat 0 (128 - length b).

(** The float 1.0 as a single. *)
Definition float_one : Z := 1065353216.

(** [StaticPropFlags(value)]: a value with a bit that no member defines
    is not a valid flag set. *)
Definition StaticPropFlags (value : Z) : result Z :=
  if Z.land value (Z.lnot 1535) =? 0 then Ok value else Raise ValueError.

Definition value_prim (flags : Z) : Z := Z.land flags 255.
Definition value_sec (flags : Z) : Z := Z.shiftr flags 8.

(** The tint is held as the three whole numbers read from the wire, on
    which [int()] is the identity; a bool is 0 or 1. *)
Record StaticProp : Type := mkStaticProp {
  model : str;
  origin : Vec;
  angles : Vec;
  scaling : Z;
  visleafs : list Z;
  solidity : Z;
  flags : Z;
  skin : Z;
  min_fade : Z;
  max_fade : Z;
  lighting : Vec;
  fade_scale : Z;
  min_dx_level : Z;
  max_dx_level : Z;
  min_cpu_level : Z;
  max_cpu_level : Z;
  min_gpu_level : Z;
  max_gpu_level : Z;
  tint : Vec;
  renderfx : Z;
  disable_on_xbox : Z
}.

(** A single-valued read such as [[n] = struct_read('<i', f)]. *)
Definition read1 (f : field) : reader Z :=
  vals <~ struct_read [f] ;;
  match vals with
  | [v] => rd_ret v
  | _ => rd_fail ValueError
  end.

Definition read_vec : reader Vec :=
  vals <~ struct_read [Ff; Ff; Ff] ;; rd_lift (Vec_of vals).

(** [_read_static_props_models] *)
Definition _read_static_props_models : reader (list str) :=
  dict_num <~ read1 Fi ;;
  rd_repeat (Z.to_nat dict_num)
            (padded_name <~ read_128s ;;
             rd_lift (decode_ascii (rstrip_nul padded_name))).

(** The body of the loop over the props, for format [version]. *)
Definition read_prop (version : Z) (model_dict : list str)
           (visleaf_list : list Z) : reader StaticProp :=
  origin <~ read_vec ;;
  angles <~ read_vec ;;
  model_ind <~ read1 FH ;;
  head <~ struct_read [FH; FH; FB; FB; Fi; Ff; Ff] ;;
  match head with
  | [first_leaf; leaf_count; solidity; flags; skin; min_fade; max_fade] =>
      model_name <~ rd_lift (py_index model_dict model_ind) ;;
      let visleafs :=
        py_slice visleaf_list first_leaf (first_leaf + leaf_count) in
      lighting_origin <~ read_vec ;;
      fade_scale <~ (if 5 <=? version then read1 Ff else rd_ret float_one) ;;
      dx <~ (if (version =? 6) || (version =? 7)
             then struct_read [FH; FH] else rd_ret [0; 0]) ;;
      cpu_gpu <~ (if 8 <=? version
                  then struct_read [FB; FB; FB; FB] else rd_ret [0; 0; 0; 0]) ;;
      tint_fx <~ (if 7 <=? version
                  then struct_read [FB; FB; FB; FB]
                  else rd_ret [255; 255; 255; 255]) ;;
      unknown_1 <~ (if 11 <=? version then struct_read [Fi] else rd_ret []) ;;
      flags <~ (if 10 <=? version
                then sec <~ read1 FI ;; rd_ret (Z.lor flags (Z.shiftl sec 8))
                else rd_ret flags) ;;
      flags <~ rd_lift (StaticPropFlags flags) ;;
      tail <~ (if 11 <=? version
               then scaling <~ read1 Ff ;; rd_ret (scaling, 0)
               else if 9 <=? version
                    then vals <~ struct_read [Fbool; Fx; Fx; Fx] ;;
                         match vals with
                         | [b] => rd_ret (float_one, b)
                         | _ => rd_fail ValueError
                         end
                    else rd_ret (float_one, 0)) ;;
      match dx, cpu_gpu, tint_fx with
      | [min_dx; max_dx], [min_cpu; max_cpu; min_gpu; max_gpu],
        [r; g; b; renderfx] =>
          rd_ret (mkStaticProp model_name origin angles (fst tail) visleafs
                               solidity flags skin min_fade max_fade
                               lighting_origin fade_scale min_dx max_dx
                               min_cpu max_cpu min_gpu max_gpu
                               (mkVec r g b) renderfx (snd tail))
      | _, _, _ => rd_fail ValueError
      end
  | _ => rd_fail ValueError
  end.

(** [self.game_lumps[key]] *)
Fixpoint game_lump_get (key : bytes) (game_lumps : list (bytes * GameLump))
  : option GameLump :=
  match game_lumps with
  | [] => None
  | (k, g) :: rest =>
      if bytes_eqb k key then Some g else game_lump_get key rest
  end.

(** Everything after the version checks, on the lump's bytes. *)
Definition read_props (version : Z) : reader (list StaticProp) :=
  model_dict <~ _read_static_props_models ;;
  visleaf_count <~ read1 Fi ;;
  visleaf_list <~ struct_read (repeat FH (Z.to_nat visleaf_count)) ;;
  prop_count <~ read1 Fi ;;
  rd_repeat (Z.to_nat prop_count) (read_prop version model_dict visleaf_list).

(** [static_props], run to the end of the generator. *)
Definition static_props (game_lumps : list (bytes * GameLump))
  : result (list StaticProp) :=
  match game_lump_get (lit "sprp") game_lumps with
  | None => Raise ValueError
  | Some sprp =>
      let version := game_version sprp in
      if 11 <? version then Raise ValueError
      else if version <? 4 then Raise ValueError
      else
        r <- read_props version (game_data sprp) ;;
        Ok (fst r)
  end.

(** [models.add(prop.model)] followed by [list(models)]: the distinct
    model names.  A Python set lists them in an order of its own; any
    order serves, as [model_ind] is built from the same list, and the
    order of first use is taken here. *)
Fixpoint model_names (seen : list str) (props : list StaticProp) : list str :=
  match props with
  | [] => seen
  | prop :: rest =>
      if existsb (bytes_eqb (model prop)) seen then model_names seen rest
      else model_names (seen ++ [model prop]) rest
  end.

(** [model_ind[name]] *)
Fixpoint model_index (name : str) (model_list : list str) (i : Z) : result Z :=
  match model_list with
  | [] => Raise KeyError
  | m :: rest =>
      if bytes_eqb m name then Ok i else model_index name rest (i + 1)
  end.

(** The first loop: each prop's offset into the rebuilt leaf array. *)
Fixpoint leaf_layout (leaf_array : list Z) (props : list StaticProp)
  : list Z * list Z :=
  match props with
  | [] => ([], leaf_array)
  | prop :: rest =>
      let '(offsets, final) := leaf_layout (leaf_array ++ visleafs prop) rest in
      (len leaf_array :: offsets, final)
  end.

(** The writes for one prop, in order. *)
Definition write_prop (version : Z) (model_list : list str)
           (leaf_off : Z) (prop : StaticProp) : result bytes :=
  ind <- model_index (model prop) model_list 0 ;;
  a <- pack [Ff; Ff; Ff; Ff; Ff; Ff; FH]
            [vx (origin prop); vy (origin prop); vz (origin prop);
             vx (angles prop); vy (angles prop); vz (angles prop); ind] ;;
  b <- pack [FH; FH; FB; FB; Fi; Ff; Ff; Ff; Ff; Ff]
            [leaf_off; len (visleafs prop); solidity prop;
             value_prim (flags prop); skin prop; min_fade prop; max_fade prop;
             vx (lighting prop); vy (lighting prop); vz (lighting prop)] ;;
  c <- (if 5 <=? version then pack [Ff] [fade_scale prop] else Ok []) ;;
  d <- (if (version =? 6) || (version =? 7)
        then pack [FH; FH] [min_dx_level prop; max_dx_level prop]
        else Ok []) ;;
  e <- (if 8 <=? version
        then pack [FB; FB; FB; FB]
                  [min_cpu_level prop; max_cpu_level prop;
                   min_gpu_level prop; max_gpu_level prop]
        else Ok []) ;;
  f <- (if 7 <=? version
        then pack [FB; FB; FB; FB]
                  [vx (tint prop); vy (tint prop); vz (tint prop);
                   renderfx prop]
        else Ok []) ;;
  g <- (if 10 <=? version then pack [FI] [value_sec (flags prop)] else Ok []) ;;
  h <- (if 11 <=? version
        then pack [Fx; Fx; Fx; Fx; Ff] [scaling prop]
        else if 9 <=? version
             then pack [Fbool; Fx; Fx; Fx] [disable_on_xbox prop]
             else Ok []) ;;
  Ok (a ++ b ++ c ++ d ++ e ++ f ++ g ++ h).

Fixpoint write_props (version : Z) (model_list : list str)
         (leaf_offsets : list Z) (props : list StaticProp) : result bytes :=
  match leaf_offsets, props with
  | leaf_off :: offsets, prop :: rest =>
      p <- write_prop version model_list leaf_off prop ;;
      ps <- write_props version model_list offsets rest ;;
      Ok (p ++ ps)
  | _, _ => Ok []
  end.

(** The bytes stored into the game lump by [write_static_props]. *)
Definition write_prop_lump (version : Z) (props : list StaticProp)
  : result bytes :=
  let '(leaf_offsets, leaf_array) := leaf_layout [] props in
  let model_list := model_names [] props in
  n_models <- pack [Fi] [len model_list] ;;
  names <- for_each (fun name => enc <- encode_ascii name ;;
                                 Ok (pack_128s enc)) model_list ;;
  n_leafs <- pack [Fi] [len leaf_array] ;;
  leafs <- pack (repeat FH (length leaf_array)) leaf_array ;;
  n_props <- pack [Fi] [len props] ;;
  body <- write_props version model_list leaf_offsets props ;;
  Ok (n_models ++ concat names ++ n_leafs ++ leafs ++ n_props ++ body).

Fixpoint game_lump_set_data (key new_data : bytes)
         (game_lumps : list (bytes * GameLump)) : list (bytes * GameLump) :=
  match game_lumps with
  | [] => []
  | (k, g) :: rest =>
      if bytes_eqb k key
      then (k, mkGameLump (game_id g) (game_flags g) (game_version g) new_data)
             :: rest
      else (k, g) :: game_lump_set_data key new_data rest
  end.

(** [write_static_props]: the game lumps afterwards. *)
Definition write_static_props (game_lumps : list (bytes * GameLump))
           (props : list StaticProp) : result (list (bytes * GameLump)) :=
  match game_lump_get (lit "sprp") game_lumps with
  | None => Raise KeyError
  | Some game_lump =>
      new_data <- write_prop_lump (game_version game_lump) props ;;
      Ok (game_lump_set_data (lit "sprp") new_data game_lumps)
  end.

End StaticProps.

(** ** Cubemaps: [_lmp_read_cubemaps] / [_lmp_write_cubemaps] *)

Module Cubemaps.
Import QArith_base Qround.

(** A [Vec] of floats; a finite float is the rational it denotes. *)
Record FVec : Type := mkFVec { fx : Q; fy : Q; fz : Q }.

Record Cubemap : Type := mkCubemap { origin : FVec; size : Z }.

(** [int(round(x))] for a finite float: to the nearest integer, a tie
    to the even one. *)
Definition py_round (x : Q) : Z :=
  let f := Qfloor x in
  match Qcompare (Qminus x (inject_Z f)) (Qmake 1 2) with
  | Lt => f
  | Gt => f + 1
  | Eq => if Z.even f then f else f + 1
  end.

(** ['<iiii'] *)
Definition cubemap_fmt : list Struct.field :=
  [Struct.Fi; Struct.Fi; Struct.Fi; Struct.Fi].

Definition read_cubemap (rec : bytes) : result Cubemap :=
  vals <- Struct.unpack cubemap_fmt rec ;;
  match vals with
  | [x; y; z; size] =>
      Ok (mkCubemap (mkFVec (inject_Z x) (inject_Z y) (inject_Z z)) size)
  | _ => Raise ValueError
  end.

Definition _lmp_read_cubemaps (data : bytes) : result (list Cubemap) :=
  records <- Struct.iter_unpack (Struct.calcsize cubemap_fmt) data ;;
  for_each read_cubemap records.

Definition write_cubemap (cube : Cubemap) : result bytes :=
  Struct.pack cubemap_fmt
              [py_round (fx (origin cube)); py_round (fy (origin cube));
               py_round (fz (origin cube)); size cube].

Definition _lmp_write_cubemaps (cubemaps : list Cubemap) : result bytes :=
  blocks <- for_each write_cubemap cubemaps ;;
  Ok (concat blocks).

(** [Cubemap.resolution] is left out: [2**(self.size-1)] is a float for
    a negative size. *)

End Cubemaps.

(** ** Game lumps by id: [get_game_lump], [static_prop_models] *)

Module GameLumps.
Import StaticProps.



End GameLumps.

(** ** Saving: the lump orders and the rebuild loop of [save] *)

Module Save.

(** [list.remove(x)]: the first occurrence; a [ValueError] without one. *)
Fixpoint list_remove (x : BSP_LUMPS) (l : list BSP_LUMPS)
  : result (list BSP_LUMPS) :=
  match l with
  | [] => Raise ValueError
  | y :: rest =>
      if lump_eqb y x then Ok rest
      else rest' <- list_remove x rest ;; Ok (y :: rest')
  end.

(** [LUMP_WRITE_ORDER]: the pakfile lump is put at the end. *)
Definition LUMP_WRITE_ORDER : result (list BSP_LUMPS) :=
  order <- list_remove PAKFILE all_lumps ;;
  Ok (order ++ [PAKFILE]).

Definition LUMP_REBUILD_ORDER : list BSP_LUMPS :=
  [PAKFILE; ENTITIES; CUBEMAPS; OVERLAYS; TEXINFO; TEXDATA_STRING_DATA].

(** [del self._parsed_lumps[lump]], the second half of [pop]. *)
Definition del_parsed (lump : BSP_LUMPS) (self : BSP) : BSP :=
  mkBSP (filename self) (lumps self)
        (fun l => if lump_eqb l lump then None else _parsed_lumps self l)
        (game_lumps self) (version self) (out_comma_sep self).

Section Rebuild.

(** The writers of the other views, whatever they produce: those of
    the pakfile, the entities and the cubemaps only compute bytes,
    those of the texinfo and the textures also store into the
    instance. *)
Variables _lmp_write_pakfile _lmp_write_ents _lmp_write_cubemaps
  : BSP -> pyobj -> result bytes.
Variables _lmp_write_texinfo _lmp_write_textures
  : BSP -> pyobj -> result bytes * BSP.

Definition _lmp_write_overlays (self : BSP) (over : pyobj) : result bytes :=
  Raise NotImplementedError.

(** [BSP._save_funcs], as the six descriptors fill it in
    [__set_name__]. *)
Definition _save_funcs (lump : BSP_LUMPS)
  : option (BSP -> pyobj -> result bytes * BSP) :=
  match lump with
  | PAKFILE => Some (fun self d => (_lmp_write_pakfile self d, self))
  | ENTITIES => Some (fun self d => (_lmp_write_ents self d, self))
  | TEXDATA_STRING_DATA => Some _lmp_write_textures
  | TEXINFO => Some _lmp_write_texinfo
  | CUBEMAPS => Some (fun self d => (_lmp_write_cubemaps self d, self))
  | OVERLAYS => Some (fun self d => (_lmp_write_overlays self d, self))
  | _ => None
  end.

(** One round of the loop: a lump that was not parsed is left alone;
    a parsed one is popped and its data rebuilt. *)
Definition rebuild_lump (lump : BSP_LUMPS) : action unit :=
  fun self =>
    match _parsed_lumps self lump with
    | None => (Ok tt, self)
    | Some data =>
        let self := del_parsed lump self in
        match _save_funcs lump with
        | None => (Raise KeyError, self)
        | Some save_func =>
            match save_func self data with
            | (Ok new_data, self) => (Ok tt, set_lump_data lump new_data self)
            | (Raise e, self) => (Raise e, self)
            end
        end
    end.

Fixpoint rebuild (order : list BSP_LUMPS) : action unit :=
  fun self =>
    match order with
    | [] => (Ok tt, self)
    | lump :: rest =>
        match rebuild_lump lump self with
        | (Ok _, self) => rebuild rest self
        | (Raise e, self) => (Raise e, self)
        end
    end.

(** The first loop of [save]. *)
Definition save_rebuild : action unit := rebuild LUMP_REBUILD_ORDER.

End Rebuild.

End Save.

(** * Verified properties *)

(** ** Generic facts about results and loops *)

Lemma for_each_raises {A B} (f : A -> result B) (l : list A) (a : A) :
  In a l -> raises (f a) -> raises (for_each f l).
Proof.
  induction l as [|x l IH]; simpl; [tauto|].
  intros [-> | Hin] Hr.
  - destruct Hr as [e ->]. exists e. reflexivity.
  - destruct (f x) as [b|e]; simpl; [|exists e; reflexivity].
    destruct (IH Hin Hr) as [e ->]. exists e. reflexivity.
Qed.

Lemma for_fold_raises {A S} (f : S -> A -> result S) (l : list A) (a : A) :
  In a l -> (forall s, raises (f s a)) -> forall s, raises (for_fold f s l).
Proof.
  induction l as [|x l IH]; simpl; [tauto|].
  intros [-> | Hin] Hr s.
  - destruct (Hr s) as [e ->]. exists e. reflexivity.
  - destruct (f s x) as [s'|e]; simpl; [|exists e; reflexivity].
    apply IH; assumption.
Qed.

Lemma len_app {A} (l1 l2 : list A) : len (l1 ++ l2) = len l1 + len l2.
Proof. unfold len. rewrite length_app. lia. Qed.

Lemma len_nonneg {A} (l : list A) : 0 <= len l.
Proof. unfold len. lia. Qed.

Lemma py_index_nonneg {A} (l : list A) (i : Z) :
  0 <= i ->
  py_index l i = match nth_error l (Z.to_nat i) with
                 | Some a => Ok a
                 | None => Raise IndexError
                 end.
Proof.
  intros Hi. unfold py_index.
  destruct (i <? 0) eqn:E; [apply Z.ltb_lt in E; lia|].
  destruct (0 <=? i) eqn:E0; [|apply Z.leb_gt in E0; lia]. simpl.
  destruct (i <? len l) eqn:E1; [reflexivity|].
  apply Z.ltb_ge in E1. unfold len in E1.
  destruct (nth_error l (Z.to_nat i)) eqn:En; [|reflexivity].
  assert (Z.to_nat i < length l)%nat by (apply nth_error_Some; congruence).
  lia.
Qed.

Lemma py_index_middle {A} (l1 l2 : list A) (c : A) :
  py_index (l1 ++ c :: l2) (len l1) = Ok c.
Proof.
  rewrite py_index_nonneg by apply len_nonneg.
  unfold len. rewrite Nat2Z.id.
  rewrite nth_error_app2 by lia. rewrite Nat.sub_diag. reflexivity.
Qed.

Lemma py_slice_middle {A} (l1 l2 l3 : list A) :
  py_slice (l1 ++ l2 ++ l3) (len l1) (len l1 + len l2) = l2.
Proof.
  unfold py_slice, py_bound.
  pose proof (len_nonneg l1). pose proof (len_nonneg l2). pose proof (len_nonneg l3).
  rewrite !len_app.
  destruct (len l1 <? 0) eqn:E1; [apply Z.ltb_lt in E1; lia|].
  destruct (len l1 + len l2 <? 0) eqn:E2; [apply Z.ltb_lt in E2; lia|].
  rewrite !Z.min_l by lia.
  replace (len l1 + len l2 - len l1) with (len l2) by lia.
  unfold len. rewrite !Nat2Z.id.
  rewrite skipn_app, skipn_all, Nat.sub_diag. simpl.
  rewrite firstn_app, firstn_all, Nat.sub_diag. simpl. apply app_nil_r.
Qed.

Lemma starts_with_split (sub data : bytes) :
  starts_with sub data = true -> exists post, data = sub ++ post.
Proof.
  revert data. induction sub as [|x sub IH]; intros data H.
  - exists data. reflexivity.
  - destruct data as [|y data]; simpl in H; [discriminate|].
    apply andb_true_iff in H. destruct H as [Hx Hs].
    apply Z.eqb_eq in Hx. subst y.
    destruct (IH _ Hs) as [post ->]. exists post. reflexivity.
Qed.

Lemma find_from_found (data sub : bytes) (i r : Z) :
  find_from i data sub = r -> r <> -1 -> 0 <= i ->
  exists pre post, data = pre ++ sub ++ post /\ r = i + len pre.
Proof.
  revert i. induction data as [|y data IH]; intros i Hf Hr Hi; simpl in Hf.
  - destruct (starts_with sub []) eqn:E; [|congruence].
    destruct (starts_with_split _ _ E) as [post Hp].
    exists [], post. split; [exact Hp|]. unfold len; simpl. lia.
  - destruct (starts_with sub (y :: data)) eqn:E.
    + destruct (starts_with_split _ _ E) as [post Hp].
      exists [], post. split; [exact Hp|]. unfold len; simpl. lia.
    + destruct (IH (i + 1) Hf Hr ltac:(lia)) as (pre & post & -> & ->).
      exists (y :: pre), post. split; [reflexivity|].
      unfold len; simpl length. lia.
Qed.

(** ** Facts about [Struct] *)

Lemma le_bytes_length (n : nat) (v : Z) : length (Struct.le_bytes n v) = n.
Proof. revert v. induction n; intros; simpl; [reflexivity|]. now rewrite IHn. Qed.

Lemma le_value_le_bytes (n : nat) (v : Z) :
  Struct.le_value (Struct.le_bytes n v) = v mod 2 ^ (8 * Z.of_nat n).
Proof.
  revert v. induction n as [|n IH]; intros v.
  - simpl. now rewrite Z.mod_1_r.
  - cbn [Struct.le_bytes Struct.le_value]. rewrite IH.
    replace (8 * Z.of_nat (S n)) with (8 + 8 * Z.of_nat n) by lia.
    rewrite Z.pow_add_r by lia. change (2 ^ 8) with 256.
    rewrite Z.rem_mul_r by lia. reflexivity.
Qed.

Lemma unpack_pack_unsigned (n : nat) (v : Z) (p : bytes) :
  Struct.pack_unsigned n v = Ok p ->
  Struct.unpack_unsigned p = v /\ length p = n.
Proof.
  unfold Struct.pack_unsigned, Struct.unpack_unsigned.
  destruct ((0 <=? v) && (v <? 2 ^ (8 * Z.of_nat n))) eqn:E; [|discriminate].
  intros [= <-]. apply andb_true_iff in E. destruct E as [E1 E2].
  apply Z.leb_le in E1. apply Z.ltb_lt in E2.
  rewrite le_value_le_bytes, le_bytes_length. split; [|reflexivity].
  apply Z.mod_small. lia.
Qed.

Lemma unpack_pack_signed (n : nat) (v : Z) (p : bytes) :
  (0 < n)%nat ->
  Struct.pack_signed n v = Ok p ->
  Struct.unpack_signed p = v /\ length p = n.
Proof.
  intros Hn. unfold Struct.pack_signed, Struct.unpack_signed, Struct.to_signed.
  set (half := 2 ^ (8 * Z.of_nat n - 1)).
  assert (Hh : 0 < half) by (apply Z.pow_pos_nonneg; lia).
  assert (H2 : 2 ^ (8 * Z.of_nat n) = 2 * half).
  { unfold half. rewrite <- Z.pow_succ_r by lia. f_equal. lia. }
  destruct ((- half <=? v) && (v <? half)) eqn:E; [|discriminate].
  intros [= <-]. apply andb_true_iff in E. destruct E as [E1 E2].
  apply Z.leb_le in E1. apply Z.ltb_lt in E2.
  rewrite le_value_le_bytes, le_bytes_length. fold half. split; [|reflexivity].
  rewrite H2, Z.mod_mod by lia.
  destruct (Z.ltb_spec v 0) as [Hneg|Hpos].
  - replace (v mod (2 * half)) with (v + 2 * half).
    + destruct (Z.ltb_spec (v + 2 * half) half); lia.
    + apply Z.mod_unique with (q := -1); lia.
  - rewrite Z.mod_small by lia.
    destruct (Z.ltb_spec v half); lia.
Qed.

(** ** Texture name table *)

Section TextureProofs.
Import Textures.

Lemma scan_nul_exhausted (tex_data : bytes) (off : Z) (remaining : nat) :
  forall str_off,
    (forall k, 0 <= k < Z.of_nat remaining ->
               py_index tex_data (str_off + k) <> Ok 0) ->
    raises (scan_nul tex_data off str_off remaining).
Proof.
  induction remaining as [|n IH]; intros str_off Hno.
  - exists ValueError. reflexivity.
  - cbn [scan_nul].
    destruct (py_index tex_data str_off) as [b|e] eqn:Eb; simpl;
      [|exists e; reflexivity].
    destruct (Z.eqb_spec b 0) as [->|Hb].
    + exfalso. apply (Hno 0); [lia|]. now rewrite Z.add_0_r.
    + apply IH. intros k Hk.
      replace (str_off + 1 + k) with (str_off + (k + 1)) by lia.
      apply Hno. lia.
Qed.

Lemma is_ascii_of_range (s : list Z) :
  Forall (fun c => 0 < c < 128) s -> is_ascii s = true.
Proof.
  intros H. apply forallb_forall. intros c Hc.
  rewrite Forall_forall in H. specialize (H c Hc).
  apply andb_true_iff. split; [apply Z.leb_le | apply Z.ltb_lt]; lia.
Qed.

(** [name], NUL-terminated, sits in [data] at byte offset [off]. *)
Definition entry_ok (data : bytes) (off : Z) (name : str) : Prop :=
  exists pre post, data = pre ++ name ++ 0 :: post /\ off = len pre.

Lemma entry_ok_extend (data more : bytes) (off : Z) (name : str) :
  entry_ok data off name -> entry_ok (data ++ more) off name.
Proof.
  intros (pre & post & -> & ->). exists pre, (post ++ more).
  split; [|reflexivity]. now rewrite <- !app_assoc.
Qed.

Lemma scan_nul_entry (pre post : bytes) (n2 : str) :
  forall (n1 : str) (remaining : nat),
    Forall (fun c => 0 < c < 128) (n1 ++ n2) ->
    (length n2 < remaining)%nat ->
    scan_nul (pre ++ (n1 ++ n2) ++ 0 :: post) (len pre)
             (len pre + len n1) remaining = Ok (n1 ++ n2).
Proof.
  induction n2 as [|c n2 IH]; intros n1 remaining Hr Hfuel;
    (destruct remaining as [|k]; [simpl in Hfuel; lia|]); cbn [scan_nul].
  - rewrite app_nil_r in *.
    replace (pre ++ n1 ++ 0 :: post) with ((pre ++ n1) ++ 0 :: post)
      by now rewrite <- app_assoc.
    rewrite <- len_app, py_index_middle. simpl.
    rewrite <- app_assoc, len_app, py_slice_middle.
    unfold decode_ascii. now rewrite is_ascii_of_range.
  - replace (pre ++ (n1 ++ c :: n2) ++ 0 :: post)
      with ((pre ++ n1) ++ c :: (n2 ++ 0 :: post))
      by now rewrite <- !app_assoc.
    rewrite <- len_app, py_index_middle. simpl.
    assert (Hc : 0 < c < 128).
    { rewrite Forall_forall in Hr. apply Hr, in_or_app. right. now left. }
    destruct (Z.eqb_spec c 0); [lia|].
    specialize (IH (n1 ++ [c]) k).
    rewrite <- !app_assoc in IH. simpl in IH.
    rewrite len_app in *.
    rewrite Z.add_assoc in IH. change (len [c]) with 1 in IH.
    rewrite <- !app_assoc. simpl.
    apply IH; [exact Hr | simpl in Hfuel; lia].
Qed.

Lemma read_name_entry (data : bytes) (off : Z) (name : str) :
  entry_ok data off name ->
  Forall (fun c => 0 < c < 128) name -> len name < 128 ->
  read_name data off = Ok name.
Proof.
  intros (pre & post & -> & ->) Hr Hl. unfold read_name.
  pose proof (scan_nul_entry pre post name [] 128) as H.
  cbn [app] in H. change (len (@nil Z)) with 0 in H. rewrite Z.add_0_r in H.
  apply H; [exact Hr | unfold len in Hl; lia].
Qed.

Definition blob_size (textures : list str) : Z :=
  fold_right (fun tex acc => len tex + 1 + acc) 0 textures.

Lemma blob_size_app (l1 l2 : list str) :
  blob_size (l1 ++ l2) = blob_size l1 + blob_size l2.
Proof. induction l1; simpl; lia. Qed.

Lemma blob_size_nonneg (l : list str) : 0 <= blob_size l.
Proof. induction l; simpl; [lia|]. pose proof (len_nonneg a). lia. Qed.

(** What the encode loop maintains after the names [done]. *)
Definition encoded (done : list str) (st : bytes * bytes) : Prop :=
  exists offs,
    fst st = flat_map (Struct.le_bytes 4) offs /\
    Forall2 (entry_ok (snd st)) offs done /\
    Forall (fun o => 0 <= o < 2 ^ 31) offs /\
    len (snd st) <= blob_size done.

Lemma pack_offset (ind : Z) :
  0 <= ind < 2 ^ 31 ->
  Struct.pack_signed 4 ind = Ok (Struct.le_bytes 4 ind).
Proof.
  intros H. unfold Struct.pack_signed.
  change (2 ^ (8 * Z.of_nat 4 - 1)) with (2 ^ 31).
  destruct (Z.leb_spec (- 2 ^ 31) ind); [|lia].
  destruct (Z.ltb_spec ind (2 ^ 31)); [|lia]. cbn [andb].
  rewrite (Z.mod_small ind (2 * 2 ^ 31)) by lia. reflexivity.
Qed.

Lemma write_name_step (done : list str) (st : bytes * bytes) (tex : str) :
  encoded done st ->
  Forall (fun c => 0 < c < 128) tex -> len tex < 128 ->
  blob_size (done ++ [tex]) <= 2 ^ 31 ->
  exists st', write_name st tex = Ok st' /\ encoded (done ++ [tex]) st'.
Proof.
  destruct st as [table data].
  intros (offs & Ht & Hent & Hoffs & Hsize) Hr Hl Hblob.
  cbn [fst snd] in Ht, Hent, Hsize. subst table.
  assert (Hb1 : blob_size (done ++ [tex]) = blob_size done + len tex + 1).
  { rewrite blob_size_app. cbn [blob_size fold_right]. lia. }
  rewrite Hb1 in Hblob.
  pose proof (len_nonneg tex) as Htex. pose proof (len_nonneg data) as Hdata.
  unfold write_name.
  destruct (Z.leb_spec 128 (len tex)); [lia|].
  unfold encode_ascii. rewrite is_ascii_of_range by exact Hr. cbn [rbind].
  destruct (Z.eqb_spec (bytes_find data (tex ++ [0])) (-1)) as [Hnone|Hsome].
  - rewrite pack_offset by lia. cbn [rbind].
    eexists. split; [reflexivity|].
    exists (offs ++ [len data]). cbn [fst snd]. repeat split.
    + rewrite flat_map_app. cbn [flat_map]. now rewrite app_nil_r.
    + apply Forall2_app.
      * eapply Forall2_impl; [|exact Hent].
        intros; now apply entry_ok_extend.
      * constructor; [|constructor]. exists data, [].
        split; [|reflexivity]. reflexivity.
    + apply Forall_app. split; [exact Hoffs|]. constructor; [lia|constructor].
    + rewrite Hb1, !len_app. change (len [0]) with 1. lia.
  - destruct (find_from_found data (tex ++ [0]) 0 _ eq_refl Hsome ltac:(lia))
      as (pre & post & Hd & Hind).
    fold (bytes_find data (tex ++ [0])) in Hind. rewrite Hind.
    assert (Hpre : 0 <= len pre < 2 ^ 31).
    { pose proof (len_nonneg pre). split; [lia|].
      rewrite Hd, !len_app in Hsize. pose proof (len_nonneg post).
      pose proof (blob_size_nonneg done). change (len [0]) with 1 in Hsize.
      lia. }
    replace (0 + len pre) with (len pre) by lia.
    rewrite pack_offset by lia. cbn [rbind].
    eexists. split; [reflexivity|].
    exists (offs ++ [len pre]). cbn [fst snd]. repeat split.
    + rewrite flat_map_app. cbn [flat_map]. now rewrite app_nil_r.
    + apply Forall2_app; [exact Hent|].
      constructor; [|constructor]. exists pre, post.
      split; [|reflexivity]. rewrite Hd, <- app_assoc. reflexivity.
    + apply Forall_app. split; [exact Hoffs|]. constructor; [lia|constructor].
    + lia.
Qed.

Lemma write_names_loop (rest : list str) :
  forall (done : list str) (st : bytes * bytes),
    encoded done st ->
    Forall (fun tex => len tex < 128 /\ Forall (fun c => 0 < c < 128) tex) rest ->
    blob_size (done ++ rest) <= 2 ^ 31 ->
    exists st', for_fold write_name st rest = Ok st' /\ encoded (done ++ rest) st'.
Proof.
  induction rest as [|tex rest IH]; intros done st Hst Hrest Hblob.
  - exists st. rewrite app_nil_r. split; [reflexivity | exact Hst].
  - inversion Hrest as [|? ? [Hl Hr] Hrest']; subst.
    assert (Hb : blob_size (done ++ [tex]) <= 2 ^ 31).
    { rewrite blob_size_app in *. cbn [blob_size fold_right] in *.
      fold (blob_size rest) in Hblob.
      pose proof (blob_size_nonneg rest). lia. }
    destruct (write_name_step done st tex Hst Hr Hl Hb) as (st1 & Hw & Hst1).
    cbn [for_fold]. rewrite Hw. cbn [rbind].
    replace (done ++ tex :: rest) with ((done ++ [tex]) ++ rest) in *
      by now rewrite <- app_assoc.
    apply IH; assumption.
Qed.

Lemma chunks_offsets (offs : list Z) :
  forall fuel, (length offs <= fuel)%nat ->
    Struct.chunks fuel 4 (flat_map (Struct.le_bytes 4) offs)
    = map (Struct.le_bytes 4) offs.
Proof.
  induction offs as [|o offs IH]; intros fuel Hf.
  - destruct fuel; reflexivity.
  - destruct fuel as [|k]; [simpl in Hf; lia|].
    cbn [flat_map Struct.le_bytes app Struct.chunks firstn skipn map].
    f_equal. apply IH. simpl in Hf. lia.
Qed.

Lemma flat_map_le_bytes_length (offs : list Z) :
  length (flat_map (Struct.le_bytes 4) offs) = (4 * length offs)%nat.
Proof. induction offs; simpl in *; lia. Qed.

Lemma unpack_table_offsets (offs : list Z) :
  Forall (fun o => 0 <= o < 2 ^ 31) offs ->
  unpack_table (flat_map (Struct.le_bytes 4) offs) = Ok offs.
Proof.
  intros Hoffs. unfold unpack_table.
  rewrite flat_map_le_bytes_length.
  replace ((4 * length offs) mod 4)%nat with 0%nat
    by (symmetry; rewrite Nat.mul_comm; apply Nat.Div0.mod_mul).
  simpl Nat.eqb. cbv iota.
  rewrite chunks_offsets by lia. f_equal.
  rewrite map_map. induction Hoffs as [|o offs Ho _ IH]; [reflexivity|].
  cbn [map]. rewrite IH. f_equal.
  destruct (unpack_pack_signed 4 o _ ltac:(lia) (pack_offset o Ho)) as [-> _].
  reflexivity.
Qed.

Lemma read_names_entries (data : bytes) (offs : list Z) (names : list str) :
  Forall2 (entry_ok data) offs names ->
  Forall (fun tex => len tex < 128 /\ Forall (fun c => 0 < c < 128) tex) names ->
  for_each (read_name data) offs = Ok names.
Proof.
  induction 1 as [|off name offs names He _ IH]; intros Hn; [reflexivity|].
  inversion Hn as [|? ? [Hl Hr] Hn']; subst.
  simpl. rewrite (read_name_entry _ _ _ He Hr Hl). simpl.
  rewrite (IH Hn'). reflexivity.
Qed.

Lemma py_index_inside (pre name post : bytes) (k : Z) :
  0 <= k < len name ->
  exists c, In c name /\ py_index (pre ++ name ++ post) (len pre + k) = Ok c.
Proof.
  intros Hk. pose proof (len_nonneg pre).
  rewrite py_index_nonneg by lia.
  replace (Z.to_nat (len pre + k)) with (length pre + Z.to_nat k)%nat
    by (unfold len; lia).
  rewrite nth_error_app2 by lia.
  replace (length pre + Z.to_nat k - length pre)%nat with (Z.to_nat k) by lia.
  assert (Hlt : (Z.to_nat k < length name)%nat) by (unfold len in Hk; lia).
  rewrite nth_error_app1 by exact Hlt.
  destruct (nth_error name (Z.to_nat k)) as [c|] eqn:E.
  - exists c. split; [eapply nth_error_In; exact E | reflexivity].
  - apply nth_error_None in E. lia.
Qed.

(** C5: decoding raises when none of the 128 bytes examined from a
    table offset is a NUL, encoding raises for a name of 128 bytes or
    more, and a name of exactly 128 bytes is rejected by both. *)
Theorem texture_name_limit :
  (forall (tex_table tex_data : bytes) (offs : list Z) (off : Z),
      unpack_table tex_table = Ok offs -> In off offs ->
      (forall k, 0 <= k < 128 -> py_index tex_data (off + k) <> Ok 0) ->
      raises (_lmp_read_textures tex_table tex_data))
  /\ (forall (textures : list str) (tex : str),
      In tex textures -> 128 <= len tex ->
      raises (_lmp_write_textures textures))
  /\ (forall (name : str) (pre post tex_table : bytes) (offs : list Z),
      len name = 128 -> ~ In 0 name ->
      unpack_table tex_table = Ok offs -> In (len pre) offs ->
      raises (_lmp_read_textures tex_table (pre ++ name ++ 0 :: post))
      /\ raises (_lmp_write_textures [name])).
Proof.
  assert (Hdec : forall tex_table tex_data offs off,
             unpack_table tex_table = Ok offs -> In off offs ->
             (forall k, 0 <= k < 128 -> py_index tex_data (off + k) <> Ok 0) ->
             raises (_lmp_read_textures tex_table tex_data)).
  { intros tex_table tex_data offs off Ht Hin Hno.
    unfold _lmp_read_textures. rewrite Ht. cbn [rbind].
    apply for_each_raises with (a := off); [exact Hin|].
    apply scan_nul_exhausted. exact Hno. }
  assert (Henc : forall textures tex,
             In tex textures -> 128 <= len tex ->
             raises (_lmp_write_textures textures)).
  { intros textures tex Hin Hlen. unfold _lmp_write_textures.
    apply for_fold_raises with (a := tex); [exact Hin|].
    intros [table data]. unfold write_name.
    destruct (Z.leb_spec 128 (len tex)); [|lia].
    exists OverflowError. reflexivity. }
  split; [exact Hdec|]. split; [exact Henc|].
  intros name pre post tex_table offs Hlen Hnz Ht Hin. split.
  - apply (Hdec _ _ offs (len pre) Ht Hin).
    intros k Hk Hidx.
    destruct (py_index_inside pre name (0 :: post) k ltac:(lia))
      as (c & Hc & Hpy).
    rewrite Hpy in Hidx. injection Hidx as ->. contradiction.
  - apply (Henc [name] name); [now left | lia].
Qed.

Lemma texture_name_limit_witness :
  raises (_lmp_read_textures [0; 0; 0; 0] (repeat 97 128 ++ [0]))
  /\ raises (_lmp_write_textures [repeat 97 128]).
Proof.
  destruct texture_name_limit as (_ & _ & H).
  apply (H (repeat 97 128) [] [] [0; 0; 0; 0] [0]).
  - vm_compute. reflexivity.
  - intros Hin. apply repeat_spec in Hin. discriminate.
  - vm_compute. reflexivity.
  - left. reflexivity.
Defined.

(** A name that is the tail of a stored entry gets an offset inside
    that entry: ["ab", "b"] is stored as the blob ["ab\0"] with the
    offsets 0 and 1. *)
Example tail_shares_entry :
  _lmp_write_textures [[97; 98]; [98]]
  = Ok ([0; 0; 0; 0; 1; 0; 0; 0], [97; 98; 0]).
Proof. vm_compute. reflexivity. Qed.

(** C10, as stated, fails for an ASCII name holding a NUL character:
    ["a\0b"] is written whole and read back as ["a"]. *)
Lemma texture_round_trip_nul_counterexample :
  ~ (forall textures : list str,
        Forall (fun tex => len tex < 128 /\ is_ascii tex = true) textures ->
        exists table data,
          _lmp_write_textures textures = Ok (table, data)
          /\ _lmp_read_textures table data = Ok textures).
Proof.
  intros H.
  destruct (H [[97; 0; 98]]) as (table & data & Hw & Hr).
  - constructor; [|constructor]. split; [vm_compute|]; reflexivity.
  - vm_compute in Hw. injection Hw as <- <-.
    vm_compute in Hr. discriminate.
Qed.

(** C10 (amended): for names of fewer than 128 ASCII characters none of
    which is NUL, and a blob whose size fits a signed 32-bit offset,
    decoding the encoded table and blob gives the names back in order. *)
Theorem texture_round_trip (textures : list str) :
  Forall (fun tex => len tex < 128 /\ Forall (fun c => 0 < c < 128) tex)
         textures ->
  blob_size textures <= 2 ^ 31 ->
  exists table data,
    _lmp_write_textures textures = Ok (table, data)
    /\ _lmp_read_textures table data = Ok textures.
Proof.
  intros Hnames Hsize.
  assert (H0 : encoded [] ([], [])).
  { exists []. cbn [fst snd flat_map].
    split; [reflexivity|]. split; [constructor|]. split; [constructor|].
    vm_compute. discriminate. }
  destruct (write_names_loop textures [] _ H0 Hnames Hsize)
    as ([table data] & Hw & offs & Ht & Hent & Hoffs & _).
  cbn [fst snd app] in *. exists table, data. split; [exact Hw|].
  unfold _lmp_read_textures. subst table.
  rewrite unpack_table_offsets by exact Hoffs. cbn [rbind].
  apply read_names_entries; assumption.
Qed.

Lemma texture_round_trip_witness :
  exists table data,
    _lmp_write_textures [[97; 98]; [98]; [99]; [97; 98]] = Ok (table, data)
    /\ _lmp_read_textures table data = Ok [[97; 98]; [98]; [99]; [97; 98]].
Proof.
  apply (texture_round_trip [[97; 98]; [98]; [99]; [97; 98]]).
  - repeat constructor.
  - vm_compute. discriminate.
Defined.

End TextureProofs.

(** ** Overlays *)

Lemma py_slice_range {A} (l : list A) (a b : Z) :
  0 <= a -> a <= b -> b <= len l ->
  py_slice l a b = firstn (Z.to_nat (b - a)) (skipn (Z.to_nat a) l).
Proof.
  intros Ha Hab Hb. unfold py_slice, py_bound.
  destruct (Z.ltb_spec a 0); [lia|]. destruct (Z.ltb_spec b 0); [lia|].
  rewrite !Z.min_l by lia. reflexivity.
Qed.

Ltac eval_slice a b :=
  match goal with
  | |- context [py_slice ?l a b] =>
      let r := eval vm_compute in (py_slice l a b) in
      change (py_slice l a b) with r
  end.

Section OverlayProofs.
Import Overlays.
Variable TexInfo : Type.

(** The loop body on an unpacked block: the low 14 bits of the packed
    field (field 2) are the face count, the bits above them the render
    order; a face count over 64 is a [ValueError]; a decoded overlay
    carries the first [face_count] entries of the 64-slot face array
    (fields 3..66).  The block also has to pass the [Overlay]
    constructor and name an existing texinfo. *)
Lemma read_overlay_split
        (texinfo_list : list TexInfo) (block : list Z) :
  length block = 89%nat ->
  let face_ro := nth 2 block 0 in
  let count := Z.land face_ro 16383 in
  let order := Z.shiftr face_ro 14 in
  (64 < count -> read_overlay TexInfo texinfo_list block = Raise ValueError)
  /\ (count <= 64 ->
      forall o, read_overlay TexInfo texinfo_list block = Ok o ->
                face_count TexInfo o = count
                /\ render_order TexInfo o = order
                /\ faces TexInfo o
                   = firstn (Z.to_nat count) (firstn 64 (skipn 3 block)))
  /\ (count <= 64 -> 0 <= order < 3 ->
      forall tex, py_index texinfo_list (nth 1 block 0) = Ok tex ->
                  exists o, read_overlay TexInfo texinfo_list block = Ok o).
Proof.
  intros Hlen face_ro count order.
  assert (Hc0 : 0 <= count) by (apply Z.land_nonneg; right; lia).
  assert (Hfaces : count <= 64 ->
            py_slice block 3 (3 + count)
            = firstn (Z.to_nat count) (firstn 64 (skipn 3 block))).
  { intros Hc. rewrite py_slice_range by (unfold len; lia).
    rewrite firstn_firstn. f_equal; lia. }
  revert Hfaces. subst count order face_ro.
  do 89 (destruct block as [|? block]; [discriminate Hlen|]).
  destruct block; [clear Hlen|discriminate Hlen].
  cbn [nth]. intros Hfaces.
  unfold read_overlay.
  eval_slice 0 3. cbv beta iota zeta.
  match goal with |- context [py_slice ?l 3 ?e] =>
    set (fs := py_slice l 3 e) in * end. eval_slice 67 71. eval_slice 71 74. eval_slice 74 77.
  eval_slice 77 80. eval_slice 80 83. eval_slice 83 86. eval_slice 86 89.
  change (Z.shiftl 1 14 - 1) with 16383.
  match goal with |- context [len ?l =? 89] =>
    change (len l =? 89) with true end.
  cbn [Vec_of rbind negb].
  split; [|split].
  - intros Hc. destruct (Z.ltb_spec 64 (Z.land z1 16383)); [reflexivity|lia].
  - intros Hc o. destruct (Z.ltb_spec 64 (Z.land z1 16383)); [lia|].
    destruct (py_index texinfo_list z0) as [tex|e]; cbn [rbind];
      [|discriminate].
    unfold Overlay_init. cbn [render_order].
    destruct ((0 <=? Z.shiftr z1 14) && (Z.shiftr z1 14 <? 3));
      [|discriminate].
    intros [= <-]. cbn [face_count render_order faces].
    repeat split. apply Hfaces. lia.
  - intros Hc Ho tex Htex.
    destruct (Z.ltb_spec 64 (Z.land z1 16383)); [lia|].
    rewrite Htex. cbn [rbind]. unfold Overlay_init. cbn [render_order].
    destruct (Z.leb_spec 0 (Z.shiftr z1 14)); [|lia].
    destruct (Z.ltb_spec (Z.shiftr z1 14) 3); [|lia].
    eexists. reflexivity.
Qed.

End OverlayProofs.

(** ** Visibility tree *)

Section VisProofs.
Import Vis.

















End VisProofs.



(** ** Lazily parsed views *)

Lemma all_lumps_value (l : BSP_LUMPS) :
  nth_error all_lumps (lump_value l) = Some l.
Proof. destruct l; reflexivity. Qed.

Lemma lump_eqb_eq (a b : BSP_LUMPS) : lump_eqb a b = true <-> a = b.
Proof.
  unfold lump_eqb. split.
  - intros H. apply Nat.eqb_eq in H.
    pose proof (all_lumps_value a) as Ha. rewrite H, all_lumps_value in Ha.
    congruence.
  - intros ->. apply Nat.eqb_refl.
Qed.

Lemma lump_eqb_refl (a : BSP_LUMPS) : lump_eqb a a = true.
Proof. now apply lump_eqb_eq. Qed.

Lemma set_lump_data_get (l l' : BSP_LUMPS) (d : bytes) (s : BSP) :
  get_lump (set_lump_data l d s) l'
  = if lump_eqb l' l then d else get_lump s l'.
Proof.
  unfold get_lump, set_lump_data. cbn [lumps].
  destruct (lump_eqb l' l); reflexivity.
Qed.

Lemma clear_lumps_parsed (ls : list BSP_LUMPS) (s : BSP) :
  _parsed_lumps (clear_lumps ls s) = _parsed_lumps s.
Proof.
  unfold clear_lumps. revert s.
  induction ls as [|l ls IH]; intros s; [reflexivity|].
  cbn [fold_left]. now rewrite IH.
Qed.

Lemma clear_lumps_keeps_empty (ls : list BSP_LUMPS) (l : BSP_LUMPS) :
  forall s, get_lump s l = [] -> get_lump (clear_lumps ls s) l = [].
Proof.
  unfold clear_lumps.
  induction ls as [|l0 ls IH]; intros s H; [exact H|].
  cbn [fold_left]. apply IH. rewrite set_lump_data_get.
  destruct (lump_eqb l l0); [reflexivity | exact H].
Qed.

Lemma clear_lumps_clears (ls : list BSP_LUMPS) (l : BSP_LUMPS) :
  forall s, In l ls -> get_lump (clear_lumps ls s) l = [].
Proof.
  induction ls as [|l0 ls IH]; intros s Hin; [destruct Hin|].
  destruct Hin as [->|Hin].
  - change (clear_lumps (l :: ls) s)
      with (clear_lumps ls (set_lump_data l [] s)).
    apply clear_lumps_keeps_empty.
    now rewrite set_lump_data_get, lump_eqb_refl.
  - change (clear_lumps (l0 :: ls) s)
      with (clear_lumps ls (set_lump_data l0 [] s)).
    now apply IH.
Qed.

Lemma set_parsed_same (l : BSP_LUMPS) (v : pyobj) (s : BSP) :
  _parsed_lumps (set_parsed l v s) l = Some v.
Proof. unfold set_parsed. cbn [_parsed_lumps]. now rewrite lump_eqb_refl. Qed.

Lemma set_parsed_get_lump (l l' : BSP_LUMPS) (v : pyobj) (s : BSP) :
  get_lump (set_parsed l v s) l' = get_lump s l'.
Proof. reflexivity. Qed.

Section LazyView.

(** A view whose reader is [rd]; the reader may change the instance but
    leaves the caching of its own result to the descriptor. *)
Variable self : ParsedLump.
Variable rd : BSP -> bytes -> result pyobj * BSP.
Hypothesis self_read : _read self = Some rd.
Hypothesis rd_leaves_cache :
  forall s d out s1,
    rd s d = (out, s1) ->
    _parsed_lumps s (lump self) = None -> _parsed_lumps s1 (lump self) = None.

(** Once the view holds a decoded object, the raw bytes of its primary
    slot and of its dependent slots are empty. *)
Definition exclusive (s : BSP) : Prop :=
  forall v, _parsed_lumps s (lump self) = Some v ->
            forall l, In l (to_clear self) -> get_lump s l = [].

Lemma after_store (v : pyobj) (s : BSP) :
  _parsed_lumps (clear_lumps (to_clear self) (set_parsed (lump self) v s))
                (lump self) = Some v
  /\ forall l, In l (to_clear self) ->
               get_lump (clear_lumps (to_clear self)
                                     (set_parsed (lump self) v s)) l = [].
Proof.
  split.
  - rewrite clear_lumps_parsed. apply set_parsed_same.
  - intros l Hl. now apply clear_lumps_clears.
Qed.

(** C4: the first get decodes the primary slot's raw bytes, caches the
    result and empties the raw data of the primary and of every
    dependent slot, and a later get returns the cached object and
    changes nothing; an accepted assignment empties the same slots and
    stores the value; so, from an instance on which the view is not yet
    materialised, every get and set leaves the view either raw or
    decoded, never both. *)
Theorem parsed_lump_get_set :
  (forall s r s1,
      _parsed_lumps s (lump self) = None ->
      rd s (get_lump s (lump self)) = (Ok r, s1) ->
      exists s2,
        __get__ self s = (Ok r, s2)
        /\ _parsed_lumps s2 (lump self) = Some r
        /\ (forall l, In l (to_clear self) -> get_lump s2 l = [])
        /\ __get__ self s2 = (Ok r, s2))
  /\ (forall s value,
        (forall check, _check self = Some check -> check s value = Ok tt) ->
        exists s',
          __set__ self value s = (Ok tt, s')
          /\ _parsed_lumps s' (lump self) = Some value
          /\ (forall l, In l (to_clear self) -> get_lump s' l = []))
  /\ (forall s, _parsed_lumps s (lump self) = None -> exclusive s)
  /\ (forall s, exclusive s ->
        (forall out s', __get__ self s = (out, s') -> exclusive s')
        /\ (forall value out s',
               __set__ self value s = (out, s') -> exclusive s')).
Proof.
  split; [|split; [|split]].
  - intros s r s1 Hnone Hrd.
    exists (clear_lumps (to_clear self) (set_parsed (lump self) r s1)).
    destruct (after_store r s1) as [Hp Hc].
    split; [|split; [exact Hp|split; [exact Hc|]]].
    + unfold __get__. rewrite Hnone, self_read, Hrd. reflexivity.
    + unfold __get__. rewrite Hp. reflexivity.
  - intros s value Hcheck. unfold __set__.
    exists (set_parsed (lump self) value (clear_lumps (to_clear self) s)).
    assert (Hok : match _check self with
                  | Some check => check s value
                  | None => Ok tt
                  end = Ok tt).
    { destruct (_check self) as [check|]; [now apply Hcheck|reflexivity]. }
    rewrite Hok. split; [reflexivity|]. split; [apply set_parsed_same|].
    intros l Hl. rewrite set_parsed_get_lump. now apply clear_lumps_clears.
  - intros s Hnone v Hv. congruence.
  - intros s Hex. split.
    + intros out s'. unfold __get__.
      destruct (_parsed_lumps s (lump self)) as [cached|] eqn:Hc.
      * intros [= <- <-]. exact Hex.
      * rewrite self_read.
        destruct (rd s (get_lump s (lump self))) as [[r|e] s1] eqn:Hrd.
        -- intros [= <- <-] v _. apply after_store.
        -- intros [= <- <-] v Hv.
           rewrite (rd_leaves_cache _ _ _ _ Hrd Hc) in Hv. discriminate.
    + intros value out s'. unfold __set__.
      destruct (match _check self with
                | Some check => check s value
                | None => Ok tt
                end) as [u|e].
      * intros [= <- <-] v _ l Hl.
        rewrite set_parsed_get_lump.
        exact (clear_lumps_clears (to_clear self) l s Hl).
      * intros [= <- <-]. exact Hex.
Qed.

End LazyView.

(** The [textures] view on an instance whose string blob holds one
    name: the first access decodes it and empties both lumps. *)
Lemma parsed_lump_get_set_witness :
  let s0 := mkBSP (lit "map.bsp")
                  (fun l => mkLump l 0 [0; 0; 0; 0]
                                   match l with
                                   | TEXDATA_STRING_DATA => [97; 98; 0]
                                   | TEXDATA_STRING_TABLE => [0; 0; 0; 0]
                                   | _ => [1; 2; 3]
                                   end)
                  (fun _ => None) [] (VersionEnum 21) None in
  exists s2,
    __get__ textures s0 = (Ok (PTextures [[97; 98]]), s2)
    /\ _parsed_lumps s2 TEXDATA_STRING_DATA = Some (PTextures [[97; 98]])
    /\ (forall l, In l [TEXDATA_STRING_DATA; TEXDATA_STRING_TABLE] ->
                  get_lump s2 l = [])
    /\ __get__ textures s2 = (Ok (PTextures [[97; 98]]), s2).
Proof.
  intros s0.
  assert (Hframe : forall s d out s1,
             read_textures_view s d = (out, s1) ->
             _parsed_lumps s (lump textures) = None ->
             _parsed_lumps s1 (lump textures) = None).
  { intros s d out s1 H Hn. unfold read_textures_view in H.
    injection H as _ <-. exact Hn. }
  destruct (parsed_lump_get_set textures read_textures_view eq_refl Hframe)
    as (Hget & _).
  apply (Hget s0 (PTextures [[97; 98]]) s0); reflexivity.
Defined.

(** C9: assigning an archive that is not backed by a [BytesIO] to the
    [pakfile] view raises, and the instance (its cached pakfile object
    and the raw bytes of the lump included) is as before. *)
Theorem pakfile_set_rejects_other_buffers
        (ZipFile_init : bytes -> result unit) (s : BSP) (z : ZipFile) :
  (forall buf, fp z <> BytesIO buf) ->
  __set__ (pakfile ZipFile_init) (PZip z) s = (Raise ValueError, s)
  /\ _parsed_lumps (snd (__set__ (pakfile ZipFile_init) (PZip z) s)) PAKFILE
     = _parsed_lumps s PAKFILE
  /\ get_lump (snd (__set__ (pakfile ZipFile_init) (PZip z) s)) PAKFILE
     = get_lump s PAKFILE.
Proof.
  intros Hfp.
  assert (H : __set__ (pakfile ZipFile_init) (PZip z) s
              = (Raise ValueError, s)).
  { unfold __set__, pakfile, _lmp_check_pakfile. cbn [_check].
    destruct (fp z) as [buf| |]; [destruct (Hfp buf eq_refl)| |]; reflexivity. }
  rewrite H. repeat split; reflexivity.
Qed.

Lemma pakfile_set_rejects_other_buffers_witness :
  let s := mkBSP (lit "map.bsp")
                 (fun l => mkLump l 0 [0; 0; 0; 0] [80; 75; 5; 6])
                 (fun l => match l with
                           | PAKFILE =>
                               Some (PZip (mkZipFile (BytesIO [80; 75; 5; 6])
                                                     (lit "map.bsp")))
                           | _ => None
                           end)
                 [] (VersionEnum 21) None in
  let z := mkZipFile (DiskFile (lit "disk.zip")) (lit "disk.zip") in
  let init := fun _ : bytes => Ok tt in
  (forall buf, fp z <> BytesIO buf)
  /\ __set__ (pakfile init) (PZip z) s = (Raise ValueError, s)
  /\ _parsed_lumps (snd (__set__ (pakfile init) (PZip z) s)) PAKFILE
     = _parsed_lumps s PAKFILE
  /\ get_lump (snd (__set__ (pakfile init) (PZip z) s)) PAKFILE
     = get_lump s PAKFILE.
Proof.
  intros s z init.
  assert (Hfp : forall buf, fp z <> BytesIO buf) by (intros buf; discriminate).
  split; [exact Hfp|].
  exact (pakfile_set_rejects_other_buffers init s z Hfp).
Defined.

(** ** Entity lump *)

Lemma starts_with_refl (a : bytes) : starts_with a a = true.
Proof. induction a as [|x a IH]; simpl; [reflexivity|]. now rewrite Z.eqb_refl. Qed.

Lemma starts_with_same_length (a b : bytes) :
  length a = length b -> starts_with a b = true -> a = b.
Proof.
  revert b. induction a as [|x a IH]; intros [|y b] Hl H; simpl in *;
    try reflexivity; try discriminate.
  apply andb_true_iff in H. destruct H as [Hx Hs].
  apply Z.eqb_eq in Hx. subst y. f_equal. apply IH; [lia | exact Hs].
Qed.

Lemma bytes_eqb_eq (a b : bytes) : bytes_eqb a b = true <-> a = b.
Proof.
  unfold bytes_eqb. split.
  - intros H. apply andb_true_iff in H. destruct H as [Hl Hs].
    apply Nat.eqb_eq in Hl. now apply starts_with_same_length.
  - intros ->. now rewrite Nat.eqb_refl, starts_with_refl.
Qed.

Section EntProofs.
Import Ents.
Variable Output : Type.
Variable Output_parse : str -> str -> result Output.
Variable conv_int : str -> Z -> Z.

Lemma assoc_get_set_same (key value : str) (kv : list (str * str)) :
  assoc_get key (assoc_set key value kv) = value.
Proof.
  induction kv as [|[k v] kv IH]; simpl.
  - now rewrite (proj2 (bytes_eqb_eq key key) eq_refl).
  - destruct (bytes_eqb k key) eqn:E; simpl; rewrite E; [reflexivity|exact IH].
Qed.

Lemma assoc_get_set_other (key key' value : str) (kv : list (str * str)) :
  key <> key' ->
  assoc_get key (assoc_set key' value kv) = assoc_get key kv.
Proof.
  intros Hne. induction kv as [|[k v] kv IH]; simpl.
  - destruct (bytes_eqb key' key) eqn:E; [|reflexivity].
    apply bytes_eqb_eq in E. congruence.
  - destruct (bytes_eqb k key') eqn:E; simpl.
    + destruct (bytes_eqb k key) eqn:E'; [|reflexivity].
      apply bytes_eqb_eq in E, E'. congruence.
    + destruct (bytes_eqb k key); [reflexivity|exact IH].
Qed.

Ltac eval_bytes_eqb :=
  repeat match goal with
         | |- context [bytes_eqb ?a ?b] =>
             let r := eval vm_compute in (bytes_eqb a b) in
             match r with
             | true => change (bytes_eqb a b) with true
             | false => change (bytes_eqb a b) with false
             end
         end.

(** How the loop body sorts a key-value line, as the code has it: the
    byte tested for is 27 (0x1B). *)
Lemma read_keyvalue_classification
      (out_sep : option bool) (cur_ent : Entity Output)
      (line key value : bytes) (k v : str) :
  split_keyvalue line = Ok (key, value) ->
  decode_ascii (py_slice key 1 (len key)) = Ok k ->
  decode_ascii (unescape_quotes (py_slice value 0 (-1))) = Ok v ->
  (contains 27 value = true ->
   read_keyvalue Output Output_parse out_sep cur_ent line
   = (o <- Output_parse k v ;;
      Ok (add_out Output cur_ent o,
          match out_sep with None => Some false | _ => out_sep end)))
  /\ (contains 27 value = false -> count 44 value = 4 ->
      forall o, Output_parse k v = Ok o ->
      read_keyvalue Output Output_parse out_sep cur_ent line
      = Ok (add_out Output cur_ent o,
            match out_sep with None => Some true | _ => out_sep end))
  /\ (contains 27 value = false -> count 44 value = 4 ->
      Output_parse k v = Raise ValueError ->
      read_keyvalue Output Output_parse out_sep cur_ent line
      = Ok (set_key Output cur_ent k v,
            match out_sep with None => Some true | _ => out_sep end))
  /\ (contains 27 value = false -> count 44 value <> 4 ->
      read_keyvalue Output Output_parse out_sep cur_ent line
      = Ok (set_key Output cur_ent k v, out_sep)).
Proof.
  intros Hs Hk Hv. unfold read_keyvalue. rewrite Hs. cbn [rbind].
  rewrite Hk. cbn [rbind]. rewrite Hv. cbn [rbind].
  repeat split.
  - intros ->. reflexivity.
  - intros -> -> o ->. reflexivity.
  - intros -> -> ->. reflexivity.
  - intros -> Hc. destruct (Z.eqb_spec (count 44 value) 4); [contradiction|].
    reflexivity.
Qed.

(** C2, at the input where the code departs from it: a value that
    holds the separator byte 0x1D (and no byte 27, and not four commas)
    is stored as a plain attribute; no connection record is added and
    the parser of connection records is not consulted. *)
Theorem keyvalue_with_0x1D_is_stored_as_attribute
        (out_sep : option bool) (cur_ent : Entity Output) :
  let value := lit "!self" ++ [29] ++ lit "Kill" ++ [29; 29]
                   ++ lit "0" ++ [29] ++ lit "-1" in
  let line := [34] ++ lit "OnUser1" ++ [34; 32; 34] ++ value ++ [34] in
  contains 29 value = true
  /\ read_keyvalue Output Output_parse out_sep cur_ent line
     = Ok (set_key Output cur_ent (lit "OnUser1") value, out_sep)
  /\ outputs Output (set_key Output cur_ent (lit "OnUser1") value)
     = outputs Output cur_ent.
Proof.
  intros value line. split; [vm_compute; reflexivity|].
  split; [vm_compute; reflexivity|reflexivity].
Qed.

Lemma read_plain_keyvalue (out_sep : option bool) (cur_ent : Entity Output)
      (key value : str) :
  let line := [34] ++ key ++ [34; 32; 34] ++ value ++ [34] in
  forall key' value',
    split_keyvalue line = Ok (key', value') ->
    decode_ascii (py_slice key' 1 (len key')) = Ok key ->
    decode_ascii (unescape_quotes (py_slice value' 0 (-1))) = Ok value ->
    contains 27 value' = false -> count 44 value' <> 4 ->
    read_keyvalue Output Output_parse out_sep cur_ent line
    = Ok (set_key Output cur_ent key value, out_sep).
Proof.
  intros line key' value' Hs Hk Hv H27 Hc.
  destruct (read_keyvalue_classification out_sep cur_ent line key' value'
              key value Hs Hk Hv) as (_ & _ & _ & H).
  now apply H.
Qed.

(** C8, at the input where the code departs from it: the world entity
    has an attribute with four commas that is not a connection record,
    and the only connection record of the file uses the byte-27
    separator; the style remembered by the decode is the comma style,
    set by the attribute that failed to parse. *)
Theorem failed_parse_sets_comma_style (new_vmf : VMF Output) (o : Output) :
  let target := lit "t" ++ [27] ++ lit "Kill" ++ [27; 27] ++ lit "0"
                    ++ [27] ++ lit "-1" in
  let ent_data :=
    lit "{" ++ [10; 34] ++ lit "classname" ++ [34; 32; 34]
      ++ lit "worldspawn" ++ [34; 10; 34]
      ++ lit "k" ++ [34; 32; 34] ++ lit "a,b,c,d,e" ++ [34; 10]
      ++ lit "}" ++ [10] ++ lit "{" ++ [10; 34]
      ++ lit "classname" ++ [34; 32; 34] ++ lit "info_target" ++ [34; 10; 34]
      ++ lit "OnUser1" ++ [34; 32; 34] ++ target ++ [34; 10]
      ++ lit "}" ++ [10; 0] in
  Output_parse (lit "k") (lit "a,b,c,d,e") = Raise ValueError ->
  Output_parse (lit "OnUser1") target = Ok o ->
  exists v,
    _lmp_read_ents Output Output_parse conv_int new_vmf None ent_data
    = Ok (v, Some true)
    /\ outputs Output (spawn Output v) = outputs Output (spawn Output new_vmf)
    /\ entities Output v
       = entities Output new_vmf
           ++ [mkEntity Output [(lit "classname", lit "info_target")] [o]].
Proof.
  intros target ent_data Hfail Hout.
  unfold _lmp_read_ents.
  let r := eval vm_compute in (splitlines ent_data) in
  change (splitlines ent_data) with r.
  (* { *)
  cbn [read_lines]. unfold read_line at 1. eval_bytes_eqb.
  cbv beta iota. cbn [cur_ent seen_spawn vmf comma_sep rbind].
  (* "classname" "worldspawn" *)
  cbn [read_lines]. unfold read_line at 1. eval_bytes_eqb.
  cbv beta iota. cbn [cur_ent seen_spawn vmf comma_sep].
  match goal with |- context [read_keyvalue _ _ ?s ?e ?l] =>
    replace (read_keyvalue Output Output_parse s e l)
      with (Ok (set_key Output e (lit "classname") (lit "worldspawn"), s))
      by (symmetry; vm_compute; reflexivity)
  end.
  cbn [rbind fst snd].
  (* "k" "a,b,c,d,e" *)
  cbn [read_lines]. unfold read_line at 1. eval_bytes_eqb.
  cbv beta iota. cbn [cur_ent seen_spawn vmf comma_sep spawn].
  match goal with |- context [read_keyvalue _ _ ?s ?e ?l] =>
    replace (read_keyvalue Output Output_parse s e l)
      with (Ok (set_key Output e (lit "k") (lit "a,b,c,d,e"), Some true))
  end.
  2:{ symmetry.
      match goal with |- read_keyvalue _ _ ?s ?e ?l = _ =>
        destruct (read_keyvalue_classification s e l
                    [34; 107] (lit "a,b,c,d,e" ++ [34])
                    (lit "k") (lit "a,b,c,d,e"))
          as (_ & _ & H & _);
          [vm_compute; reflexivity ..|]
      end.
      apply H; [vm_compute; reflexivity ..| exact Hfail]. }
  cbn [rbind fst snd].
  (* } *)
  cbn [read_lines]. unfold read_line at 1. eval_bytes_eqb.
  cbv beta iota. cbn [cur_ent seen_spawn vmf comma_sep spawn].
  unfold get_key at 1, set_key at 1 2. cbn [keys].
  rewrite assoc_get_set_other by (intros E; vm_compute in E; discriminate).
  rewrite assoc_get_set_same. eval_bytes_eqb.
  cbv beta iota. cbn [rbind].
  (* { *)
  cbn [read_lines]. unfold read_line at 1. eval_bytes_eqb.
  cbv beta iota. cbn [cur_ent seen_spawn vmf comma_sep rbind].
  (* "classname" "info_target" *)
  cbn [read_lines]. unfold read_line at 1. eval_bytes_eqb.
  cbv beta iota. cbn [cur_ent seen_spawn vmf comma_sep].
  match goal with |- context [read_keyvalue _ _ ?s ?e ?l] =>
    replace (read_keyvalue Output Output_parse s e l)
      with (Ok (set_key Output e (lit "classname") (lit "info_target"), s))
      by (symmetry; vm_compute; reflexivity)
  end.
  cbn [rbind fst snd].
  (* "OnUser1" "t<27>Kill<27><27>0<27>-1" *)
  cbn [read_lines]. unfold read_line at 1. eval_bytes_eqb.
  cbv beta iota. cbn [cur_ent seen_spawn vmf comma_sep].
  match goal with |- context [read_keyvalue _ _ ?s ?e ?l] =>
    replace (read_keyvalue Output Output_parse s e l)
      with (Ok (add_out Output e o, Some true))
  end.
  2:{ symmetry.
      match goal with |- read_keyvalue _ _ ?s ?e ?l = _ =>
        destruct (read_keyvalue_classification s e l
                    ([34] ++ lit "OnUser1") (target ++ [34])
                    (lit "OnUser1") target)
          as (H & _);
          [vm_compute; reflexivity ..|]
      end.
      rewrite H by (vm_compute; reflexivity).
      rewrite Hout. reflexivity. }
  cbn [rbind fst snd].
  (* } and the NUL line *)
  cbn [read_lines]. unfold read_line at 1. eval_bytes_eqb.
  cbv beta iota. cbn [cur_ent seen_spawn vmf comma_sep rbind].
  cbn [read_lines]. unfold read_line at 1. eval_bytes_eqb.
  cbv beta iota. cbn [cur_ent seen_spawn vmf comma_sep rbind].
  eexists. split; [reflexivity|].
  cbn [spawn entities set_key add_out outputs keys].
  split; reflexivity.
Qed.

End EntProofs.


(** The scenario of [failed_parse_sets_comma_style] with a parser that
    accepts exactly the values holding the byte 27. *)
Lemma failed_parse_sets_comma_style_witness :
  let parse := fun (_ value : str) =>
                 if contains 27 value then Ok false else Raise ValueError in
  let new_vmf := Ents.mkVMF bool (Ents.mkEntity bool [] []) [] 0 in
  let target := lit "t" ++ [27] ++ lit "Kill" ++ [27; 27] ++ lit "0"
                    ++ [27] ++ lit "-1" in
  let ent_data :=
    lit "{" ++ [10; 34] ++ lit "classname" ++ [34; 32; 34]
      ++ lit "worldspawn" ++ [34; 10; 34]
      ++ lit "k" ++ [34; 32; 34] ++ lit "a,b,c,d,e" ++ [34; 10]
      ++ lit "}" ++ [10] ++ lit "{" ++ [10; 34]
      ++ lit "classname" ++ [34; 32; 34] ++ lit "info_target" ++ [34; 10; 34]
      ++ lit "OnUser1" ++ [34; 32; 34] ++ target ++ [34; 10]
      ++ lit "}" ++ [10; 0] in
  parse (lit "k") (lit "a,b,c,d,e") = Raise ValueError
  /\ parse (lit "OnUser1") target = Ok false
  /\ exists v,
      Ents._lmp_read_ents bool parse (fun _ d => d) new_vmf None ent_data
      = Ok (v, Some true)
      /\ Ents.outputs bool (Ents.spawn bool v)
         = Ents.outputs bool (Ents.spawn bool new_vmf)
      /\ Ents.entities bool v
         = Ents.entities bool new_vmf
             ++ [Ents.mkEntity bool [(lit "classname", lit "info_target")]
                               [false]].
Proof.
  intros parse new_vmf target ent_data.
  assert (H1 : parse (lit "k") (lit "a,b,c,d,e") = Raise ValueError)
    by (vm_compute; reflexivity).
  assert (H2 : parse (lit "OnUser1") target = Ok false)
    by (vm_compute; reflexivity).
  split; [exact H1|]. split; [exact H2|].
  exact (failed_parse_sets_comma_style bool parse (fun _ d => d) new_vmf false
                                       H1 H2).
Defined.

(** On re-encode the style passed to [write_ent_data] is applied to
    every output; with no style given an output keeps its own. *)
Lemma write_output_style (Output : Type) (set_comma_sep : bool -> Output -> Output)
      (_get_text : Output -> str) (o : Output) :
  (forall sep, Ents.write_output Output set_comma_sep _get_text (Some sep) o
               = encode_ascii (_get_text (set_comma_sep sep o)))
  /\ Ents.write_output Output set_comma_sep _get_text None o
     = encode_ascii (_get_text o).
Proof. split; reflexivity. Qed.

(** ** Static props *)

Section StaticPropProofs.
Import Struct StaticProps.

Lemma rd_bind_ok {A B} (r : reader A) (k : A -> reader B) s b rest :
  rd_bind r k s = Ok (b, rest) ->
  exists a s', r s = Ok (a, s') /\ k a s' = Ok (b, rest).
Proof.
  unfold rd_bind. destruct (r s) as [[a s']|e]; [|discriminate].
  intros H. exists a, s'. split; [reflexivity|exact H].
Qed.

Lemma rd_ret_ok {A} (a b : A) s rest :
  rd_ret a s = Ok (b, rest) -> b = a /\ rest = s.
Proof. unfold rd_ret. intros [= <- <-]. split; reflexivity. Qed.

Lemma rd_lift_ok {A} (r : result A) (a : A) s rest :
  rd_lift r s = Ok (a, rest) -> r = Ok a /\ rest = s.
Proof. unfold rd_lift. destruct r; [|discriminate]. intros [= <- <-]. split; reflexivity. Qed.

Lemma struct_read_ok (fmt : list field) s vals rest :
  struct_read fmt s = Ok (vals, rest) ->
  vals = unpack_fields fmt (firstn (calcsize fmt) s)
  /\ rest = skipn (calcsize fmt) s
  /\ (calcsize fmt <= length s)%nat.
Proof.
  unfold struct_read, unpack.
  destruct (Nat.eqb_spec (length (firstn (calcsize fmt) s)) (calcsize fmt)) as [E|E];
    cbn [rbind]; [|discriminate].
  intros [= <- <-]. split; [reflexivity|]. split; [reflexivity|].
  rewrite length_firstn in E. lia.
Qed.

Lemma read1_ok (f : field) s v rest :
  f <> Fx ->
  read1 f s = Ok (v, rest) ->
  rest = skipn (field_size f) s /\ (field_size f <= length s)%nat.
Proof.
  intros Hf H. unfold read1 in H.
  apply rd_bind_ok in H. destruct H as (vals & s' & E & H).
  apply struct_read_ok in E. destruct E as (-> & -> & Hle).
  destruct f; try congruence; cbn [unpack_fields] in H;
    apply rd_ret_ok in H; destruct H as [_ ->];
    (split; [reflexivity|exact Hle]).
Qed.

Lemma read_vec_ok s v rest :
  read_vec s = Ok (v, rest) -> rest = skipn 12 s /\ (12 <= length s)%nat.
Proof.
  intros H. unfold read_vec in H.
  apply rd_bind_ok in H. destruct H as (vals & s' & E & H).
  apply struct_read_ok in E. destruct E as (-> & -> & Hle).
  apply rd_lift_ok in H. destruct H as [_ ->]. split; [reflexivity|exact Hle].
Qed.

Ltac eval_version_tests H :=
  repeat match type of H with
         | context [?a <=? ?b] =>
             let r := eval vm_compute in (a <=? b) in
             change (a <=? b) with r in H
         | context [?a =? ?b] =>
             let r := eval vm_compute in (a =? b) in
             change (a =? b) with r in H
         end.

Ltac invert_reads :=
  repeat match goal with
         | H : rd_bind _ _ _ = Ok _ |- _ =>
             apply rd_bind_ok in H; destruct H as (? & ? & ? & H)
         | H : rd_ret _ _ = Ok _ |- _ =>
             apply rd_ret_ok in H; destruct H as [? ?]; subst
         | H : rd_lift _ _ = Ok _ |- _ =>
             apply rd_lift_ok in H; destruct H as [H ?]; subst
         | H : struct_read _ _ = Ok _ |- _ =>
             apply struct_read_ok in H; destruct H as (? & ? & ?); subst
         | H : read1 _ _ = Ok _ |- _ =>
             apply read1_ok in H; [destruct H as [? ?]; subst | discriminate]
         | H : read_vec _ = Ok _ |- _ =>
             apply read_vec_ok in H; destruct H as [? ?]; subst
         | H : context [unpack_fields (_ :: _) _] |- _ =>
             progress cbn [unpack_fields orb] in H; cbv beta iota in H
         end.

Definition record_size (version : Z) : nat :=
  match version with
  | 4 => 56 | 5 => 60 | 6 => 64 | 7 => 68
  | 8 => 68 | 9 => 72 | 10 => 76 | 11 => 80
  | _ => 0
  end.


Ltac finish_sizes :=
  cbv [calcsize field_size fold_right] in *;
  repeat rewrite skipn_skipn in *;
  repeat rewrite length_skipn in *.

Lemma read_prop_by_version (version : Z) (model_dict : list str)
      (visleaf_list : list Z) (stream : bytes) (prop : StaticProp)
      (rest : bytes) :
  4 <= version <= 11 ->
  read_prop version model_dict visleaf_list stream = Ok (prop, rest) ->
  rest = skipn (record_size version) stream
  /\ (record_size version <= length stream)%nat
  /\ (version < 5 -> fade_scale prop = float_one)
  /\ (version <> 6 -> version <> 7 ->
      min_dx_level prop = 0 /\ max_dx_level prop = 0)
  /\ (version < 8 ->
      min_cpu_level prop = 0 /\ max_cpu_level prop = 0
      /\ min_gpu_level prop = 0 /\ max_gpu_level prop = 0)
  /\ (version < 7 -> tint prop = mkVec 255 255 255 /\ renderfx prop = 255)
  /\ (version < 11 -> scaling prop = float_one)
  /\ (version < 9 \/ 11 <= version -> disable_on_xbox prop = 0).
Proof.
  intros Hv H.
  assert (Hcases : version = 4 \/ version = 5 \/ version = 6 \/ version = 7
                   \/ version = 8 \/ version = 9 \/ version = 10
                   \/ version = 11) by lia.
  clear Hv.
  repeat (destruct Hcases as [->|Hcases]); [| | | | | | |subst version].
  all: unfold read_prop in H; eval_version_tests H; cbv beta iota in H;
    cbn [orb] in H; invert_reads; finish_sizes.
  all: cbn [fade_scale min_dx_level max_dx_level min_cpu_level max_cpu_level
            min_gpu_level max_gpu_level tint renderfx scaling disable_on_xbox
            fst snd].
  all: cbv beta iota delta [record_size].
  all: repeat split; try reflexivity; try lia.
Qed.

(** *** The record layout by version *)

(** Modelled from the spec (section 4.2): the fields of a record, by
    format version, in wire order. *)
Definition spec_record_format (version : Z) : list field :=
  [Ff; Ff; Ff] ++ [Ff; Ff; Ff] ++ [FH]
    ++ [FH; FH; FB; FB; Fi; Ff; Ff] ++ [Ff; Ff; Ff]
    ++ (if 5 <=? version then [Ff] else [])
    ++ (if (version =? 6) || (version =? 7) then [FH; FH] else [])
    ++ (if 8 <=? version then [FB; FB; FB; FB] else [])
    ++ (if 7 <=? version then [FB; FB; FB; FB] else [])
    ++ (if 11 <=? version then [Fi] else [])
    ++ (if 10 <=? version then [FI] else [])
    ++ (if 11 <=? version then [Ff]
        else if 9 <=? version then [Fbool; Fx; Fx; Fx] else []).

(** [l[n:]] on the values that remain. *)
Fixpoint drop (n : nat) (l : list Z) : list Z :=
  match n, l with
  | O, _ => l
  | S _, [] => []
  | S k, _ :: l' => drop k l'
  end.

(** Modelled from the spec: the prop that the values of a record
    denote.  The fields that the version does not carry take their
    defaults; the secondary flags are merged above the primary byte;
    the reserved value of version 11 is dropped. *)
Definition spec_record_fields (version : Z) (model_dict : list str)
           (visleaf_list : list Z) (vals : list Z) : result StaticProp :=
  match vals with
  | ox :: oy :: oz :: ax :: ay :: az :: model_ind
       :: first_leaf :: leaf_count :: solidity :: flags :: skin
       :: min_fade :: max_fade :: lx :: ly :: lz :: opt =>
      let fade_scale := if 5 <=? version then nth 0 opt 0 else float_one in
      let opt := if 5 <=? version then drop 1 opt else opt in
      let has_dx := (version =? 6) || (version =? 7) in
      let min_dx := if has_dx then nth 0 opt 0 else 0 in
      let max_dx := if has_dx then nth 1 opt 0 else 0 in
      let opt := if has_dx then drop 2 opt else opt in
      let min_cpu := if 8 <=? version then nth 0 opt 0 else 0 in
      let max_cpu := if 8 <=? version then nth 1 opt 0 else 0 in
      let min_gpu := if 8 <=? version then nth 2 opt 0 else 0 in
      let max_gpu := if 8 <=? version then nth 3 opt 0 else 0 in
      let opt := if 8 <=? version then drop 4 opt else opt in
      let r := if 7 <=? version then nth 0 opt 0 else 255 in
      let g := if 7 <=? version then nth 1 opt 0 else 255 in
      let b := if 7 <=? version then nth 2 opt 0 else 255 in
      let renderfx := if 7 <=? version then nth 3 opt 0 else 255 in
      let opt := if 7 <=? version then drop 4 opt else opt in
      let opt := if 11 <=? version then drop 1 opt else opt in
      let all_flags := if 10 <=? version
                       then Z.lor flags (Z.shiftl (nth 0 opt 0) 8)
                       else flags in
      let opt := if 10 <=? version then drop 1 opt else opt in
      let scaling := if 11 <=? version then nth 0 opt 0 else float_one in
      let disable_on_xbox :=
        if 11 <=? version then 0
        else if 9 <=? version then nth 0 opt 0 else 0 in
      model_name <- py_index model_dict model_ind ;;
      flags <- StaticPropFlags all_flags ;;
      Ok (mkStaticProp
            model_name (mkVec ox oy oz) (mkVec ax ay az) scaling
            (py_slice visleaf_list first_leaf (first_leaf + leaf_count))
            solidity flags skin min_fade max_fade (mkVec lx ly lz)
            fade_scale min_dx max_dx min_cpu max_cpu min_gpu max_gpu
            (mkVec r g b) renderfx disable_on_xbox)
  | _ => Raise ValueError
  end.

(** The reads of [static_props] that come before the loop over the
    props: the model table, the leaf array and the number of props. *)
Definition read_tables : reader (list str * list Z * Z) :=
  model_dict <~ _read_static_props_models ;;
  visleaf_count <~ read1 Fi ;;
  visleaf_list <~ struct_read (repeat FH (Z.to_nat visleaf_count)) ;;
  prop_count <~ read1 Fi ;;
  rd_ret (model_dict, visleaf_list, prop_count).

Lemma read_props_tables (version : Z) (stream : bytes) :
  read_props version stream
  = match read_tables stream with
    | Ok ((model_dict, visleaf_list, prop_count), body) =>
        rd_repeat (Z.to_nat prop_count)
                  (read_prop version model_dict visleaf_list) body
    | Raise e => Raise e
    end.
Proof.
  unfold read_props, read_tables, rd_bind, rd_ret.
  destruct (_read_static_props_models stream) as [[md s1]|e]; [|reflexivity].
  destruct (read1 Fi s1) as [[c s2]|e]; [|reflexivity].
  destruct (struct_read _ s2) as [[l s3]|e]; [|reflexivity].
  destruct (read1 Fi s3) as [[n s4]|e]; reflexivity.
Qed.

Lemma unpack_fields_firstn (fmt : list field) :
  forall (n : nat) (s : bytes),
    (calcsize fmt <= n)%nat ->
    unpack_fields fmt (firstn n s) = unpack_fields fmt s.
Proof.
  induction fmt as [|f fmt IH]; intros n s Hn; [reflexivity|].
  assert (Hsz : (calcsize (f :: fmt) = field_size f + calcsize fmt)%nat)
    by reflexivity.
  assert (Hskip : skipn (field_size f) (firstn n s)
                  = firstn (n - field_size f) (skipn (field_size f) s))
    by apply skipn_firstn_comm.
  assert (Hfirst : firstn (field_size f) (firstn n s)
                   = firstn (field_size f) s)
    by (rewrite firstn_firstn; f_equal; lia).
  assert (Hrest : unpack_fields fmt (skipn (field_size f) (firstn n s))
                  = unpack_fields fmt (skipn (field_size f) s))
    by (rewrite Hskip; apply IH; lia).
  destruct f; cbn [unpack_fields]; try (rewrite Hfirst, Hrest; reflexivity).
  exact Hrest.
Qed.

(** A read of a format from a stream that is long enough. *)
Lemma struct_read_enough (fmt : list field) (s : bytes) :
  (calcsize fmt <= length s)%nat ->
  struct_read fmt s = Ok (unpack_fields fmt s, skipn (calcsize fmt) s).
Proof.
  intros Hl. unfold struct_read, unpack.
  rewrite length_firstn, Nat.min_l by exact Hl.
  rewrite Nat.eqb_refl. cbn [rbind].
  now rewrite unpack_fields_firstn by lia.
Qed.

Ltac eval_tests :=
  repeat match goal with
         | |- context [?a <=? ?b] =>
             let r := eval vm_compute in (a <=? b) in
             change (a <=? b) with r
         | |- context [?a =? ?b] =>
             let r := eval vm_compute in (a =? b) in
             change (a =? b) with r
         end.

Ltac enough_bytes :=
  repeat rewrite length_skipn;
  cbv [calcsize field_size fold_right];
  lia.

(** One record: a stream that holds all the bytes of the version's
    record is decoded field by field as the layout says. *)
Lemma read_prop_spec (version : Z) (model_dict : list str)
      (visleaf_list : list Z) (stream : bytes) :
  4 <= version <= 11 ->
  (calcsize (spec_record_format version) <= length stream)%nat ->
  read_prop version model_dict visleaf_list stream
  = (prop <- spec_record_fields version model_dict visleaf_list
               (unpack_fields (spec_record_format version) stream) ;;
     Ok (prop, skipn (calcsize (spec_record_format version)) stream)).
Proof.
  intros Hv Hlen.
  assert (Hcases : version = 4 \/ version = 5 \/ version = 6 \/ version = 7
                   \/ version = 8 \/ version = 9 \/ version = 10
                   \/ version = 11) by lia.
  clear Hv.
  repeat (destruct Hcases as [->|Hcases]); [| | | | | | |subst version].
  all: match type of Hlen with
       | context [calcsize (spec_record_format ?v)] =>
           let r := eval vm_compute in (calcsize (spec_record_format v)) in
           change (calcsize (spec_record_format v)) with r in Hlen |- *
       end.
  all: match goal with
       | |- context [spec_record_format ?v] =>
           let r := eval vm_compute in (spec_record_format v) in
           change (spec_record_format v) with r
       end.
  all: unfold read_prop, read_vec, read1, spec_record_fields; eval_tests.
  all: cbv [rd_bind rd_ret rd_lift rd_fail orb].
  all: cbn [unpack_fields field_size nth drop]; cbv beta iota zeta.
  all: repeat (first
         [ rewrite struct_read_enough by enough_bytes
         | rewrite skipn_skipn
         | match goal with
           | |- context [py_index ?l ?i] => destruct (py_index l i)
           end
         | match goal with
           | |- context [StaticPropFlags ?v] => destruct (StaticPropFlags v)
           end ];
       cbn [unpack_fields Vec_of calcsize field_size fold_right Nat.add
            rbind fst snd];
       cbv beta iota).

  all: reflexivity.
Qed.
Lemma for_each_ext {A B} (f g : A -> result B) (l : list A) :
  (forall a, f a = g a) -> for_each f l = for_each g l.
Proof.
  intros H. induction l as [|a l IH]; [reflexivity|].
  cbn [for_each]. now rewrite H, IH.
Qed.

Lemma for_each_map {A B C} (f : B -> result C) (g : A -> B) (l : list A) :
  for_each f (map g l) = for_each (fun a => f (g a)) l.
Proof.
  induction l as [|a l IH]; [reflexivity|].
  cbn [map for_each]. now rewrite IH.
Qed.

(** The loop over the props, on a body that holds all the records. *)
Lemma read_records_spec (version : Z) (model_dict : list str)
      (visleaf_list : list Z) :
  4 <= version <= 11 ->
  forall (n : nat) (body : bytes),
    (n * calcsize (spec_record_format version) <= length body)%nat ->
    rd_repeat n (read_prop version model_dict visleaf_list) body
    = (props <- for_each
                  (fun i =>
                     spec_record_fields version model_dict visleaf_list
                       (unpack_fields
                          (spec_record_format version)
                          (skipn (i * calcsize (spec_record_format version))
                                 body)))
                  (seq 0 n) ;;
       Ok (props,
           skipn (n * calcsize (spec_record_format version)) body)).
Proof.
  intros Hv.
  set (fmt := spec_record_format version).
  induction n as [|n IH]; intros body Hlen; [reflexivity|].
  cbn [rd_repeat]. unfold rd_bind at 1.
  rewrite (read_prop_spec version model_dict visleaf_list body Hv)
    by (fold fmt; lia).
  fold fmt. cbn [seq for_each]. cbn [Nat.mul skipn].
  destruct (spec_record_fields version model_dict visleaf_list
              (unpack_fields fmt body)) as [prop|e];
    cbn [rbind]; [|reflexivity].
  unfold rd_bind at 1.
  rewrite IH by (rewrite length_skipn; lia).
  rewrite <- seq_shift, for_each_map.
  rewrite (for_each_ext
             (fun a => spec_record_fields version model_dict visleaf_list
                         (unpack_fields
                            fmt (skipn (S a * calcsize fmt) body)))
             (fun i => spec_record_fields version model_dict visleaf_list
                         (unpack_fields
                            fmt (skipn (i * calcsize fmt)
                                       (skipn (calcsize fmt) body)))))
    by (intros a; rewrite skipn_skipn; do 3 f_equal; lia).
  destruct (for_each _ (seq 0 n)) as [props|e]; cbn [rbind];
    [|reflexivity].
  unfold rd_ret. rewrite skipn_skipn. do 3 f_equal. lia.
Qed.

Lemma record_size_spec (version : Z) :
  4 <= version <= 11 ->
  calcsize (spec_record_format version) = record_size version.
Proof.
  intros Hv.
  assert (Hcases : version = 4 \/ version = 5 \/ version = 6 \/ version = 7
                   \/ version = 8 \/ version = 9 \/ version = 10
                   \/ version = 11) by lia.
  clear Hv.
  repeat (destruct Hcases as [->|Hcases]); [| | | | | | |subst version];
    reflexivity.
Qed.

(** A body that is too short for the records is never decoded. *)
Lemma read_records_short (version : Z) (model_dict : list str)
      (visleaf_list : list Z) :
  4 <= version <= 11 ->
  forall (n : nat) (body : bytes),
    (length body < n * calcsize (spec_record_format version))%nat ->
    raises (rd_repeat n (read_prop version model_dict visleaf_list) body).
Proof.
  intros Hv. rewrite (record_size_spec version Hv).
  induction n as [|n IH]; intros body Hlen; [cbn in Hlen; lia|].
  cbn [rd_repeat]. unfold rd_bind at 1.
  destruct (read_prop version model_dict visleaf_list body)
    as [[prop rest]|e] eqn:E; [|now eexists].
  destruct (read_prop_by_version _ _ _ _ _ _ Hv E) as (-> & Hsz & _).
  unfold rd_bind at 1.
  destruct (IH (skipn (record_size version) body)) as [e He].
  { rewrite length_skipn. lia. }
  rewrite He. now eexists.
Qed.

(** C3: a static-prop lump whose declared version is below 4 or above
    11 is a [ValueError] whatever its bytes are.  For the versions 4 to
    11, once the model table, the leaf array and the number of props
    are read, the decode is fixed by the version alone: when the rest
    of the lump holds that many records of the version's layout, the
    props are the records unpacked in that layout, in order, every
    field the version carries taken from its place in the record and
    every other field at its default; when it holds fewer bytes, the
    decode raises. *)
Theorem static_props_version_gate :
  (forall game_lumps sprp,
      game_lump_get (lit "sprp") game_lumps = Some sprp ->
      game_version sprp < 4 \/ 11 < game_version sprp ->
      static_props game_lumps = Raise ValueError)
  /\ (forall game_lumps sprp model_dict visleaf_list prop_count body,
        game_lump_get (lit "sprp") game_lumps = Some sprp ->
        4 <= game_version sprp <= 11 ->
        read_tables (game_data sprp)
        = Ok (model_dict, visleaf_list, prop_count, body) ->
        let fmt := spec_record_format (game_version sprp) in
        let n := Z.to_nat prop_count in
        ((n * calcsize fmt <= length body)%nat ->
         static_props game_lumps
         = for_each
             (fun i =>
                spec_record_fields (game_version sprp) model_dict
                                   visleaf_list
                  (unpack_fields fmt (skipn (i * calcsize fmt) body)))
             (seq 0 n))
        /\ ((length body < n * calcsize fmt)%nat ->
            raises (static_props game_lumps))).
Proof.
  split.
  - intros game_lumps sprp Hget Hv. unfold static_props. rewrite Hget.
    destruct (Z.ltb_spec 11 (game_version sprp)); [reflexivity|].
    destruct (Z.ltb_spec (game_version sprp) 4); [reflexivity|lia].
  - intros game_lumps sprp model_dict visleaf_list prop_count body
           Hget Hv Ht fmt n.
    unfold static_props. rewrite Hget.
    destruct (Z.ltb_spec 11 (game_version sprp)); [lia|].
    destruct (Z.ltb_spec (game_version sprp) 4); [lia|].
    rewrite read_props_tables, Ht. cbv beta iota. subst fmt n.
    split; intros Hlen.
    + rewrite (read_records_spec _ model_dict visleaf_list Hv _ body Hlen).
      destruct (for_each _ (seq 0 _)); reflexivity.
    + destruct (read_records_short _ model_dict visleaf_list Hv _ body Hlen)
        as [e ->].
      now eexists.
Qed.

(** A version 11 lump with one model, two leaves and one record, whose
    secondary flags are read after the reserved value; the same lump
    without its last byte; and a version 3 lump. *)
Lemma static_props_version_gate_witness :
  let tables := [1; 0; 0; 0] ++ lit "a.mdl" ++ repeat 0 123
                  ++ [2; 0; 0; 0; 3; 0; 4; 0] ++ [1; 0; 0; 0] in
  let record := repeat 0 24 ++ [0; 0; 0; 0; 2; 0; 6; 3] ++ repeat 0 40
                  ++ [1; 0; 0; 0] ++ [0; 0; 128; 63] in
  let lump version data :=
    [(lit "sprp", mkGameLump (lit "sprp") 0 version data)] in
  static_props (lump 3 (tables ++ record)) = Raise ValueError
  /\ static_props (lump 11 (tables ++ record))
     = Ok [mkStaticProp (lit "a.mdl") (mkVec 0 0 0) (mkVec 0 0 0)
                        float_one [3; 4] 6 259 0 0 0 (mkVec 0 0 0) 0
                        0 0 0 0 0 0 (mkVec 0 0 0) 0 0]
  /\ raises (static_props (lump 11 (tables ++ removelast record))).
Proof.
  intros tables record lump.
  destruct static_props_version_gate as [Hgate Hread].
  split; [|split].
  - apply (Hgate _ (mkGameLump (lit "sprp") 0 3 (tables ++ record)));
      [reflexivity|left; cbn; lia].
  - rewrite (proj1 (Hread (lump 11 (tables ++ record))
                          (mkGameLump (lit "sprp") 0 11 (tables ++ record))
                          [lit "a.mdl"] [3; 4] 1 record eq_refl
                          ltac:(cbn; lia) ltac:(vm_compute; reflexivity)));
      [vm_compute; reflexivity|vm_compute; lia].
  - apply (proj2 (Hread (lump 11 (tables ++ removelast record))
                        (mkGameLump (lit "sprp") 0 11
                                    (tables ++ removelast record))
                        [lit "a.mdl"] [3; 4] 1 (removelast record) eq_refl
                        ltac:(cbn; lia) ltac:(vm_compute; reflexivity))).
    vm_compute. lia.
Defined.

(** C1, at the input where the code departs from it: at version 11 the
    encoder writes the secondary flags and then four pad bytes, while
    the decoder reads the unknown 32-bit value first and the secondary
    flags after it; a prop with the NO_FLASHLIGHT flag (0x100) comes
    back without it. *)
Theorem static_props_v11_round_trip_drops_flags :
  let prop := mkStaticProp (lit "models/a.mdl") (mkVec 1 2 3) (mkVec 4 5 6)
                           float_one [7; 8] 6 256 0 10 20 (mkVec 1 2 3)
                           float_one 0 0 0 0 0 0 (mkVec 255 255 255) 255 0 in
  let game_lumps := [(lit "sprp", mkGameLump (lit "sprp") 0 11 [])] in
  exists game_lumps' decoded,
    write_static_props game_lumps [prop] = Ok game_lumps'
    /\ static_props game_lumps' = Ok [decoded]
    /\ flags prop = 256 /\ flags decoded = 0
    /\ decoded <> prop.
Proof.
  intros prop game_lumps.
  destruct (write_static_props game_lumps [prop]) as [game_lumps'|e] eqn:Ew;
    [|vm_compute in Ew; discriminate].
  destruct (static_props game_lumps') as [[|decoded [|]]|e] eqn:Er;
    vm_compute in Ew; injection Ew as <-; vm_compute in Er;
    try discriminate.
  injection Er as <-.
  eexists. eexists. split; [reflexivity|]. split; [reflexivity|].
  split; [reflexivity|]. split; [reflexivity|]. discriminate.
Qed.

(** Where the orders agree the props come back as written: a prop whose
    version-dependent fields hold the decoder's defaults, with primary
    flags only, at every version from 4 to 11, and one with a secondary
    flag at version 10. *)
Example static_props_round_trip_examples :
  let prop f := mkStaticProp (lit "models/a.mdl") (mkVec 1 2 3) (mkVec 4 5 6)
                             float_one [7; 8] 6 f 0 10 20 (mkVec 1 2 3)
                             float_one 0 0 0 0 0 0 (mkVec 255 255 255) 255 0 in
  let round_trip v p :=
    game_lumps <- write_static_props
                    [(lit "sprp", mkGameLump (lit "sprp") 0 v [])] [p] ;;
    static_props game_lumps in
  Forall (fun v => round_trip v (prop 3) = Ok [prop 3])
         [4; 5; 6; 7; 8; 9; 10; 11]
  /\ round_trip 10 (prop 256) = Ok [prop 256].
Proof.
  intros prop round_trip. split.
  - repeat (apply Forall_cons; [vm_compute; reflexivity|]). apply Forall_nil.
  - vm_compute. reflexivity.
Qed.

End StaticPropProofs.

(** * Further properties *)

(** ** Static prop flags *)

Lemma flags_split_join (value : Z) :
  Z.lor (StaticProps.value_prim value)
        (Z.shiftl (StaticProps.value_sec value) 8) = value.
Proof.
  unfold StaticProps.value_prim, StaticProps.value_sec.
  apply Z.bits_inj'. intros n Hn.
  rewrite Z.lor_spec, Z.land_spec.
  change 255 with (Z.ones 8).
  destruct (Z.lt_ge_cases n 8) as [Hlt|Hge].
  - rewrite Z.ones_spec_low by lia.
    rewrite Z.shiftl_spec_low by lia.
    now rewrite andb_true_r, orb_false_r.
  - rewrite Z.ones_spec_high by lia.
    rewrite Z.shiftl_spec by lia. rewrite Z.shiftr_spec by lia.
    rewrite andb_false_r. cbn [orb]. f_equal. lia.
Qed.

(** X1: splitting a flag value into the primary byte and the secondary
    bits, as the encoder does, and joining them again as the decoder does
    from version 10 on, gives the value back. *)
Theorem static_prop_flags_split_join (value : Z) :
  Z.lor (StaticProps.value_prim value)
        (Z.shiftl (StaticProps.value_sec value) 8) = value.
Proof. exact (flags_split_join value). Qed.

(** ** Texture names: deduplication and decoding *)

Section MoreTextureProofs.
Import Textures.

Lemma starts_with_app (sub post : bytes) : starts_with sub (sub ++ post) = true.
Proof.
  induction sub as [|x sub IH]; [reflexivity|].
  cbn [app starts_with]. now rewrite Z.eqb_refl, IH.
Qed.

Lemma find_from_present (pre sub post : bytes) :
  forall i, 0 <= i -> find_from i (pre ++ sub ++ post) sub <> -1.
Proof.
  induction pre as [|y pre IH]; intros i Hi.
  - cbn [app]. destruct sub as [|x sub].
    + destruct post; cbn [app find_from starts_with]; lia.
    + pose proof (starts_with_app (x :: sub) post) as Hs.
      cbn [app] in *. cbn [find_from]. rewrite Hs. lia.
  - cbn [app find_from].
    destruct (starts_with sub (y :: pre ++ sub ++ post)); [lia|].
    apply IH. lia.
Qed.

Lemma for_fold_app {A S} (f : S -> A -> result S) (l1 l2 : list A) (s : S) :
  for_fold f s (l1 ++ l2) = (s' <- for_fold f s l1 ;; for_fold f s' l2).
Proof.
  revert s. induction l1 as [|a l1 IH]; intros s; [reflexivity|].
  cbn [app for_fold]. destruct (f s a); cbn [rbind]; [apply IH|reflexivity].
Qed.

Lemma Forall2_In_r {A B} (R : A -> B -> Prop) (l1 : list A) (l2 : list B)
      (b : B) :
  Forall2 R l1 l2 -> In b l2 -> exists a, In a l1 /\ R a b.
Proof.
  induction 1 as [|a0 b0 l1 l2 Hab _ IH]; intros Hin; [destruct Hin|].
  destruct Hin as [->|Hin].
  - exists a0. split; [now left|exact Hab].
  - destruct (IH Hin) as (a & Ha & Hr). exists a. split; [now right|exact Hr].
Qed.

(** X2: a name that is already in the list is found in the blob: adding
    it again appends one four-byte offset to the table and leaves the
    string blob as it is. *)
Theorem texture_name_stored_once (textures : list str) (tex : str) :
  Forall (fun tex => len tex < 128 /\ Forall (fun c => 0 < c < 128) tex)
         textures ->
  blob_size textures <= 2 ^ 31 ->
  In tex textures ->
  exists table data p,
    _lmp_write_textures textures = Ok (table, data)
    /\ _lmp_write_textures (textures ++ [tex]) = Ok (table ++ p, data)
    /\ length p = 4%nat.
Proof.
  intros Hnames Hsize Hin.
  assert (H0 : encoded [] ([], [])).
  { exists []. cbn [fst snd flat_map].
    split; [reflexivity|]. split; [constructor|]. split; [constructor|].
    vm_compute. discriminate. }
  destruct (write_names_loop textures [] _ H0 Hnames Hsize)
    as ([table data] & Hw & offs & Ht & Hent & Hoffs & Hlen).
  cbn [fst snd app] in *.
  destruct (Forall2_In_r _ _ _ _ Hent Hin) as (off & _ & pre & post & Hd & Hoff).
  assert (Hvalid : len tex < 128 /\ Forall (fun c => 0 < c < 128) tex).
  { rewrite Forall_forall in Hnames. now apply Hnames. }
  destruct Hvalid as [Hl Hr].
  unfold _lmp_write_textures in *. rewrite for_fold_app, Hw. cbn [rbind for_fold].
  unfold write_name.
  destruct (Z.leb_spec 128 (len tex)); [lia|].
  unfold encode_ascii. rewrite is_ascii_of_range by exact Hr. cbn [rbind].
  assert (Hfound : bytes_find data (tex ++ [0]) <> -1).
  { unfold bytes_find. rewrite Hd.
    replace (pre ++ tex ++ 0 :: post) with (pre ++ (tex ++ [0]) ++ post)
      by now rewrite <- app_assoc.
    apply find_from_present. lia. }
  destruct (Z.eqb_spec (bytes_find data (tex ++ [0])) (-1)) as [E|_];
    [contradiction|].
  destruct (find_from_found data (tex ++ [0]) 0 _ eq_refl Hfound ltac:(lia))
    as (pre' & post' & Hd' & Hind).
  fold (bytes_find data (tex ++ [0])) in Hind. rewrite Hind.
  assert (Hrange : 0 <= 0 + len pre' < 2 ^ 31).
  { pose proof (len_nonneg pre'). pose proof (len_nonneg post').
    pose proof (len_nonneg tex). split; [lia|].
    rewrite Hd', !len_app in Hlen. change (len [0]) with 1 in Hlen. lia. }
  rewrite pack_offset by exact Hrange. cbn [rbind].
  exists table, data, (Struct.le_bytes 4 (0 + len pre')).
  split; [reflexivity|]. split; [reflexivity|]. apply le_bytes_length.
Qed.

Lemma texture_name_stored_once_witness :
  exists table data p,
    _lmp_write_textures [[97; 98]; [99]] = Ok (table, data)
    /\ _lmp_write_textures ([[97; 98]; [99]] ++ [[97; 98]])
       = Ok (table ++ p, data)
    /\ length p = 4%nat.
Proof.
  apply (texture_name_stored_once [[97; 98]; [99]] [97; 98]).
  - repeat constructor.
  - vm_compute. discriminate.
  - left. reflexivity.
Defined.

Lemma for_each_ok {A B} (f : A -> result B) (l : list A) (r : list B) :
  for_each f l = Ok r -> Forall2 (fun a b => f a = Ok b) l r.
Proof.
  revert r. induction l as [|a l IH]; intros r H; cbn [for_each] in H.
  - injection H as <-. constructor.
  - destruct (f a) as [b|e] eqn:Ea; cbn [rbind] in H; [|discriminate].
    destruct (for_each f l) as [bs|e]; cbn [rbind] in H; [|discriminate].
    injection H as <-. constructor; [exact Ea|now apply IH].
Qed.

Lemma skipn_nth_error {A} (l : list A) (n : nat) (x : A) :
  nth_error l n = Some x -> skipn n l = x :: skipn (S n) l.
Proof.
  revert n. induction l as [|y l IH]; intros [|n] H; try discriminate.
  - injection H as ->. reflexivity.
  - cbn [nth_error] in H. cbn [skipn]. now apply IH.
Qed.

Lemma is_ascii_range (s : list Z) :
  is_ascii s = true -> Forall (fun c => 0 <= c < 128) s.
Proof.
  intros H. apply Forall_forall. intros c Hc.
  unfold is_ascii in H. rewrite forallb_forall in H. specialize (H c Hc).
  apply andb_true_iff in H. destruct H as [H1 H2].
  apply Z.leb_le in H1. apply Z.ltb_lt in H2. lia.
Qed.

Lemma scan_nul_sound (tex_data : bytes) (off : Z) (remaining : nat) :
  forall (k : Z) (name : str),
    0 <= off -> 0 <= k -> k + Z.of_nat remaining <= 128 ->
    (forall j, 0 <= j < k ->
               nth_error tex_data (Z.to_nat (off + j)) <> Some 0) ->
    scan_nul tex_data off (off + k) remaining = Ok name ->
    entry_ok tex_data off name /\ len name < 128
    /\ Forall (fun c => 0 < c < 128) name.
Proof.
  induction remaining as [|n IH]; intros k name Hoff Hk Hfuel Hseen H;
    cbn [scan_nul] in H; [discriminate|].
  rewrite py_index_nonneg in H by lia.
  destruct (nth_error tex_data (Z.to_nat (off + k))) as [b|] eqn:Eb;
    cbn [rbind] in H; [|discriminate].
  destruct (Z.eqb_spec b 0) as [->|Hb].
  - assert (Hlt : (Z.to_nat (off + k) < length tex_data)%nat)
      by (apply nth_error_Some; congruence).
    rewrite py_slice_range in H by (unfold len; lia).
    unfold decode_ascii in H.
    destruct (is_ascii _) eqn:Ea in H; [|discriminate].
    injection H as <-.
    replace (Z.to_nat (off + k - off)) with (Z.to_nat k) in * by lia.
    set (name := firstn (Z.to_nat k) (skipn (Z.to_nat off) tex_data)) in *.
    assert (Hlen : length name = Z.to_nat k).
    { unfold name. rewrite length_firstn, length_skipn. lia. }
    split; [|split].
    + exists (firstn (Z.to_nat off) tex_data),
             (skipn (S (Z.to_nat (off + k))) tex_data).
      split.
      * rewrite <- (skipn_nth_error _ _ _ Eb).
        replace (Z.to_nat (off + k)) with (Z.to_nat k + Z.to_nat off)%nat by lia.
        rewrite <- skipn_skipn. unfold name.
        now rewrite firstn_skipn, firstn_skipn.
      * unfold len. rewrite length_firstn. lia.
    + unfold len. lia.
    + apply is_ascii_range in Ea. apply Forall_forall. intros c Hc.
      rewrite Forall_forall in Ea. specialize (Ea c Hc).
      destruct (In_nth_error _ _ Hc) as [j Hj].
      assert (Hjlt : (j < length name)%nat)
        by (apply nth_error_Some; congruence).
      unfold name in Hj. rewrite nth_error_firstn in Hj.
      destruct (Nat.ltb_spec j (Z.to_nat k)); [|discriminate].
      rewrite nth_error_skipn in Hj.
      assert (c <> 0).
      { intros ->. apply (Hseen (Z.of_nat j)); [lia|].
        replace (Z.to_nat (off + Z.of_nat j)) with (Z.to_nat off + j)%nat by lia.
        exact Hj. }
      lia.
  - replace (off + k + 1) with (off + (k + 1)) in H by lia.
    apply (IH (k + 1) name); try lia; [|exact H].
    intros j Hj. destruct (Z.eq_dec j k) as [->|Hne].
    + rewrite Eb. congruence.
    + apply Hseen. lia.
Qed.

Lemma read_textures_sound
      (tex_table tex_data : bytes) (offs : list Z) (names : list str) :
  unpack_table tex_table = Ok offs ->
  Forall (fun off => 0 <= off) offs ->
  _lmp_read_textures tex_table tex_data = Ok names ->
  Forall2 (fun off name =>
             entry_ok tex_data off name
             /\ len name < 128
             /\ Forall (fun c => 0 < c < 128) name)
          offs names.
Proof.
  intros Ht Hoffs H. unfold _lmp_read_textures in H.
  rewrite Ht in H. cbn [rbind] in H.
  apply for_each_ok in H. clear Ht.
  induction H as [|off name offs names Hr _ IH]; [constructor|].
  inversion Hoffs as [|? ? Hoff Hoffs']; subst.
  constructor; [|apply IH; assumption].
  unfold read_name in Hr.
  replace off with (off + 0) in Hr at 2 by lia.
  apply (scan_nul_sound tex_data off 128 0 name Hoff ltac:(lia)
                        ltac:(cbn; lia));
    [intros j Hj; lia | exact Hr].
Qed.

(** X3: every name decoded from a non-negative table offset is the run
    of bytes found at that offset up to its first NUL, has fewer than 128
    characters, and holds ASCII characters other than NUL only. *)
Theorem texture_decode_sound
        (tex_table tex_data : bytes) (offs : list Z) (names : list str) :
  unpack_table tex_table = Ok offs ->
  Forall (fun off => 0 <= off) offs ->
  _lmp_read_textures tex_table tex_data = Ok names ->
  Forall2 (fun off name =>
             (exists pre post,
                 tex_data = pre ++ name ++ 0 :: post /\ off = len pre)
             /\ len name < 128
             /\ Forall (fun c => 0 < c < 128) name)
          offs names.
Proof. exact (read_textures_sound tex_table tex_data offs names). Qed.

Lemma texture_decode_sound_witness :
  Forall2 (fun off name =>
             (exists pre post,
                 [97; 98; 0; 99; 0] = pre ++ name ++ 0 :: post /\ off = len pre)
             /\ len name < 128
             /\ Forall (fun c => 0 < c < 128) name)
          [3; 1] [[99]; [98]].
Proof.
  apply (texture_decode_sound [3; 0; 0; 0; 1; 0; 0; 0] [97; 98; 0; 99; 0]).
  - vm_compute. reflexivity.
  - repeat constructor; lia.
  - vm_compute. reflexivity.
Defined.

(** X4: names decoded from non-negative offsets can always be encoded
    again (none is too long or outside ASCII), and decoding that encoding
    gives the same names: the view's value is a fixed point of
    encode-then-decode. *)
Theorem texture_decode_reencode
        (tex_table tex_data : bytes) (offs : list Z) (names : list str) :
  unpack_table tex_table = Ok offs ->
  Forall (fun off => 0 <= off) offs ->
  _lmp_read_textures tex_table tex_data = Ok names ->
  blob_size names <= 2 ^ 31 ->
  exists table data,
    _lmp_write_textures names = Ok (table, data)
    /\ _lmp_read_textures table data = Ok names
    /\ len data <= blob_size names.
Proof.
  intros Ht Hoffs Hread Hsize.
  pose proof (read_textures_sound _ _ _ _ Ht Hoffs Hread) as Hsound.
  assert (Hnames : Forall (fun tex => len tex < 128
                                      /\ Forall (fun c => 0 < c < 128) tex)
                          names).
  { clear - Hsound. induction Hsound as [|off name offs names H _ IH];
      constructor; [tauto|exact IH]. }
  assert (H0 : encoded [] ([], [])).
  { exists []. cbn [fst snd flat_map].
    split; [reflexivity|]. split; [constructor|]. split; [constructor|].
    vm_compute. discriminate. }
  destruct (write_names_loop names [] _ H0 Hnames Hsize)
    as ([table data] & Hw & offs' & Htab & Hent & Hoffs' & Hlen).
  cbn [fst snd app] in *. exists table, data. split; [exact Hw|].
  split; [|exact Hlen].
  unfold _lmp_read_textures. subst table.
  rewrite unpack_table_offsets by exact Hoffs'. cbn [rbind].
  apply read_names_entries; assumption.
Qed.

Lemma texture_decode_reencode_witness :
  exists table data,
    _lmp_write_textures [[99]; [98]] = Ok (table, data)
    /\ _lmp_read_textures table data = Ok [[99]; [98]]
    /\ len data <= blob_size [[99]; [98]].
Proof.
  apply (texture_decode_reencode [3; 0; 0; 0; 1; 0; 0; 0] [97; 98; 0; 99; 0]
                                 [3; 1]).
  - vm_compute. reflexivity.
  - repeat constructor; lia.
  - vm_compute. reflexivity.
  - vm_compute. discriminate.
Defined.

End MoreTextureProofs.

(** ** Views: assignment, reading back, and what is left alone *)

Lemma lump_eqb_neq (a b : BSP_LUMPS) : a <> b -> lump_eqb a b = false.
Proof.
  intros H. destruct (lump_eqb a b) eqn:E; [|reflexivity].
  apply lump_eqb_eq in E. contradiction.
Qed.

Lemma clear_lumps_other (ls : list BSP_LUMPS) (l : BSP_LUMPS) :
  forall s, ~ In l ls -> get_lump (clear_lumps ls s) l = get_lump s l.
Proof.
  unfold clear_lumps.
  induction ls as [|l0 ls IH]; intros s Hnin; [reflexivity|].
  cbn [fold_left]. rewrite IH by (intros H; apply Hnin; now right).
  rewrite set_lump_data_get, lump_eqb_neq; [reflexivity|].
  intros ->. apply Hnin. now left.
Qed.

(** X5: after an accepted assignment to a view, reading the view gives
    the assigned value back without decoding anything and changes
    nothing; the assignment leaves the raw bytes of every lump outside
    the view's slots, and the cached objects of all other views, as they
    were. *)
Theorem parsed_lump_set_then_get (self : ParsedLump) (s : BSP) (value : pyobj) :
  (forall check, _check self = Some check -> check s value = Ok tt) ->
  exists s',
    __set__ self value s = (Ok tt, s')
    /\ __get__ self s' = (Ok value, s')
    /\ (forall l, ~ In l (to_clear self) -> get_lump s' l = get_lump s l)
    /\ (forall l, l <> lump self -> _parsed_lumps s' l = _parsed_lumps s l).
Proof.
  intros Hcheck.
  exists (set_parsed (lump self) value (clear_lumps (to_clear self) s)).
  assert (Hok : match _check self with
                | Some check => check s value
                | None => Ok tt
                end = Ok tt).
  { destruct (_check self) as [check|]; [now apply Hcheck|reflexivity]. }
  split; [|split; [|split]].
  - unfold __set__. rewrite Hok. reflexivity.
  - unfold __get__. rewrite set_parsed_same. reflexivity.
  - intros l Hl. rewrite set_parsed_get_lump. now apply clear_lumps_other.
  - intros l Hl. unfold set_parsed. cbn [_parsed_lumps].
    rewrite lump_eqb_neq by exact Hl. apply (f_equal (fun f => f l)).
    apply clear_lumps_parsed.
Qed.

Lemma parsed_lump_set_then_get_witness :
  let s := mkBSP (lit "map.bsp")
                 (fun l => mkLump l 0 [0; 0; 0; 0] [1; 2; 3])
                 (fun _ => None) [] (VersionEnum 21) None in
  exists s',
    __set__ textures (PTextures [[97]]) s = (Ok tt, s')
    /\ __get__ textures s' = (Ok (PTextures [[97]]), s')
    /\ (forall l, ~ In l (to_clear textures) -> get_lump s' l = get_lump s l)
    /\ (forall l, l <> lump textures -> _parsed_lumps s' l = _parsed_lumps s l).
Proof.
  intros s. apply (parsed_lump_set_then_get textures s (PTextures [[97]])).
  intros check H. discriminate H.
Defined.

(** X6: on first access the [pakfile] view hands the lump's raw bytes
    to the [ZipFile] constructor.  When the constructor accepts them,
    the view hands out an archive backed by a [BytesIO] that holds
    exactly those bytes, empties the lump and no other, and the archive
    passes the view's own validator when it is assigned back; when the
    constructor raises, the access raises the same and the instance is
    as before. *)
Theorem pakfile_get_wraps_raw_bytes
        (ZipFile_init : bytes -> result unit) (s : BSP) :
  _parsed_lumps s PAKFILE = None ->
  (ZipFile_init (get_lump s PAKFILE) = Ok tt ->
   exists s' s'',
     __get__ (pakfile ZipFile_init) s
     = (Ok (PZip (mkZipFile (BytesIO (get_lump s PAKFILE)) (filename s))),
        s')
     /\ get_lump s' PAKFILE = []
     /\ (forall l, l <> PAKFILE -> get_lump s' l = get_lump s l)
     /\ __set__ (pakfile ZipFile_init)
                (PZip (mkZipFile (BytesIO (get_lump s PAKFILE))
                                 (filename s))) s'
        = (Ok tt, s''))
  /\ (forall e,
         ZipFile_init (get_lump s PAKFILE) = Raise e ->
         __get__ (pakfile ZipFile_init) s = (Raise e, s)).
Proof.
  intros Hnone. unfold __get__, pakfile. cbn [lump _read]. rewrite Hnone.
  unfold _lmp_read_pakfile. split.
  - intros ->.
    eexists. eexists. split; [reflexivity|]. split; [|split].
    + apply clear_lumps_clears. now left.
    + intros l Hl. rewrite clear_lumps_other.
      * apply set_parsed_get_lump.
      * cbn. intros [H|[]]. congruence.
    + reflexivity.
  - intros e ->. reflexivity.
Qed.

(** A constructor that takes every buffer but those that start with
    the byte 255. *)
Lemma pakfile_get_wraps_raw_bytes_witness :
  let init := fun data : bytes =>
                match data with
                | 255 :: _ => Raise NotImplementedError
                | _ => Ok tt
                end in
  let bsp data := mkBSP (lit "map.bsp")
                        (fun l => mkLump l 0 [0; 0; 0; 0] data)
                        (fun _ => None) [] (VersionEnum 21) None in
  (exists s' s'',
      __get__ (pakfile init) (bsp [80; 75; 5; 6])
      = (Ok (PZip (mkZipFile (BytesIO [80; 75; 5; 6]) (lit "map.bsp"))), s')
      /\ get_lump s' PAKFILE = []
      /\ (forall l, l <> PAKFILE ->
                    get_lump s' l = get_lump (bsp [80; 75; 5; 6]) l)
      /\ __set__ (pakfile init)
                 (PZip (mkZipFile (BytesIO [80; 75; 5; 6]) (lit "map.bsp")))
                 s'
         = (Ok tt, s''))
  /\ __get__ (pakfile init) (bsp [255; 75])
     = (Raise NotImplementedError, bsp [255; 75]).
Proof.
  intros init bsp. split.
  - apply (proj1 (pakfile_get_wraps_raw_bytes init (bsp [80; 75; 5; 6])
                    eq_refl)).
    reflexivity.
  - apply (proj2 (pakfile_get_wraps_raw_bytes init (bsp [255; 75]) eq_refl)).
    reflexivity.
Defined.

(** ** Entity lump: the remembered separator style *)

Section MoreEntProofs.
Import Ents.
Variable Output : Type.
Variable Output_parse : str -> str -> result Output.
Variable conv_int : str -> Z -> Z.

Lemma read_keyvalue_keeps_style (out_sep : option bool) (cur_ent : Entity Output)
      (line : bytes) (ent : Entity Output) (sep : option bool) (b : bool) :
  read_keyvalue Output Output_parse out_sep cur_ent line = Ok (ent, sep) ->
  out_sep = Some b -> sep = Some b.
Proof.
  intros H ->. unfold read_keyvalue in H.
  destruct (split_keyvalue line) as [[key value]|e]; cbn [rbind] in H;
    [|discriminate].
  destruct (decode_ascii _) as [k|e] in H; cbn [rbind] in H; [|discriminate].
  destruct (decode_ascii _) as [v|e] in H; cbn [rbind] in H; [|discriminate].
  destruct (contains 27 value).
  - destruct (Output_parse k v); cbn [rbind] in H; [|discriminate].
    now injection H as _ <-.
  - destruct (count 44 value =? 4).
    + destruct (Output_parse k v) as [o|[]]; cbn [rbind] in H;
        try discriminate; now injection H as _ <-.
    + now injection H as _ <-.
Qed.

Lemma read_line_keeps_style (st st' : reading Output) (line : bytes) (b : bool) :
  read_line Output Output_parse st line = Ok (Continue Output st') ->
  comma_sep Output st = Some b -> comma_sep Output st' = Some b.
Proof.
  intros H Hb. unfold read_line in H.
  destruct (bytes_eqb line (lit "{")).
  { destruct (cur_ent Output st); try discriminate.
    destruct (seen_spawn Output st); injection H as <-; exact Hb. }
  destruct (bytes_eqb line (lit "}")).
  { destruct (cur_ent Output st); try discriminate.
    - destruct (bytes_eqb _ _); [|discriminate]. injection H as <-. exact Hb.
    - injection H as <-. exact Hb. }
  destruct (bytes_eqb line [0]).
  { destruct (cur_ent Output st); discriminate. }
  destruct (cur_ent Output st) as [| |ent]; try discriminate.
  - destruct (read_keyvalue _ _ _ _ _) as [[e sep]|err] eqn:E;
      cbn [rbind] in H; [|discriminate].
    injection H as <-. cbn [comma_sep snd].
    eapply read_keyvalue_keeps_style; eassumption.
  - destruct (read_keyvalue _ _ _ _ _) as [[e sep]|err] eqn:E;
      cbn [rbind] in H; [|discriminate].
    injection H as <-. cbn [comma_sep snd].
    eapply read_keyvalue_keeps_style; eassumption.
Qed.

Lemma read_lines_keeps_style (lines : list bytes) :
  forall (st : reading Output) (v : VMF Output) (sep : option bool) (b : bool),
    read_lines Output Output_parse conv_int lines st = Ok (v, sep) ->
    comma_sep Output st = Some b -> sep = Some b.
Proof.
  induction lines as [|line lines IH]; intros st v sep b H Hb;
    cbn [read_lines] in H.
  - injection H as _ <-. exact Hb.
  - destruct (read_line Output Output_parse st line) as [[st'|v']|e] eqn:E;
      cbn [rbind] in H; [| |discriminate].
    + eapply IH; [exact H|]. eapply read_line_keeps_style; eassumption.
    + injection H as _ <-. exact Hb.
Qed.

(** X7: a separator style that is already remembered when a decode
    starts is the style remembered when it ends, whatever the lump
    holds: only the first observation sets it. *)
Theorem remembered_style_is_kept
        (new_vmf : VMF Output) (b : bool) (ent_data : bytes)
        (v : VMF Output) (sep : option bool) :
  _lmp_read_ents Output Output_parse conv_int new_vmf (Some b) ent_data
  = Ok (v, sep) ->
  sep = Some b.
Proof.
  intros H. unfold _lmp_read_ents in H.
  eapply read_lines_keeps_style; [exact H|reflexivity].
Qed.

Lemma contains_skipn (b : Z) (n : nat) (l : bytes) :
  contains b l = false -> contains b (skipn n l) = false.
Proof.
  revert n. induction l as [|x l IH]; intros [|n] H; try exact H;
    try reflexivity.
  cbn [skipn]. apply IH. unfold contains in *. cbn [existsb] in H.
  now apply orb_false_iff in H.
Qed.

Lemma count_skipn (b : Z) (n : nat) (l : bytes) :
  count b (skipn n l) <= count b l.
Proof.
  revert n. induction l as [|x l IH]; intros [|n]; try (cbn; lia).
  cbn [skipn]. specialize (IH n). unfold count, len in *. cbn [filter].
  destruct (b =? x); cbn [length]; lia.
Qed.

(** A line with no byte 27 and fewer than four commas. *)
Definition plain_line (line : bytes) : Prop :=
  contains 27 line = false /\ count 44 line < 4.

Lemma read_keyvalue_plain (out_sep : option bool) (cur_ent : Entity Output)
      (line : bytes) (ent : Entity Output) (sep : option bool) :
  plain_line line ->
  read_keyvalue Output Output_parse out_sep cur_ent line = Ok (ent, sep) ->
  sep = out_sep /\ outputs Output ent = outputs Output cur_ent.
Proof.
  intros [H27 H44] H. unfold read_keyvalue in H.
  destruct (split_keyvalue line) as [[key value]|e] eqn:Es; cbn [rbind] in H;
    [|discriminate].
  assert (Hv : exists n, value = skipn n line).
  { unfold split_keyvalue in Es.
    destruct (bytes_find line [34; 32; 34] =? -1); [discriminate|].
    destruct (bytes_find (skipn _ line) [34; 32; 34] =? -1); [|discriminate].
    injection Es as _ <-. eexists. reflexivity. }
  destruct Hv as [n ->].
  destruct (decode_ascii _) as [k|e] in H; cbn [rbind] in H; [|discriminate].
  destruct (decode_ascii _) as [v|e] in H; cbn [rbind] in H; [|discriminate].
  rewrite (contains_skipn 27 n line H27) in H.
  pose proof (count_skipn 44 n line) as Hc.
  destruct (Z.eqb_spec (count 44 (skipn n line)) 4); [lia|].
  injection H as <- <-. split; reflexivity.
Qed.

(** What holds of a decode in progress that has met plain lines only. *)
Definition quiet (new_vmf : VMF Output) (sep0 : option bool)
           (st : reading Output) : Prop :=
  comma_sep Output st = sep0
  /\ outputs Output (spawn Output (vmf Output st))
     = outputs Output (spawn Output new_vmf)
  /\ (exists added,
         entities Output (vmf Output st)
         = entities Output new_vmf ++ added
         /\ Forall (fun e => outputs Output e = []) added)
  /\ (forall e, cur_ent Output st = InEntity Output e ->
                outputs Output e = []).

Lemma read_line_quiet (new_vmf : VMF Output) (sep0 : option bool)
      (st : reading Output) (line : bytes) :
  plain_line line -> quiet new_vmf sep0 st ->
  match read_line Output Output_parse st line with
  | Ok (Continue _ st') => quiet new_vmf sep0 st'
  | Ok (Return _ v) =>
      outputs Output (spawn Output v) = outputs Output (spawn Output new_vmf)
      /\ exists added,
          entities Output v = entities Output new_vmf ++ added
          /\ Forall (fun e => outputs Output e = []) added
  | Raise _ => True
  end.
Proof.
  intros Hplain (Hsep & Hspawn & (added & Hents & Hadded) & Hcur).
  unfold read_line.
  destruct (bytes_eqb line (lit "{")).
  { destruct (cur_ent Output st); try exact I.
    destruct (seen_spawn Output st); cbn [quiet comma_sep vmf cur_ent];
      (split; [exact Hsep|]); (split; [exact Hspawn|]);
      (split; [exists added; split; assumption|]).
    - intros e [= <-]. reflexivity.
    - intros e H. discriminate H. }
  destruct (bytes_eqb line (lit "}")).
  { destruct (cur_ent Output st) as [| |ent] eqn:Ec; try exact I.
    - destruct (bytes_eqb _ _); [|exact I].
      split; [exact Hsep|]. split; [exact Hspawn|].
      split; [exists added; split; assumption|].
      intros e H. discriminate H.
    - split; [exact Hsep|]. split; [exact Hspawn|]. split.
      + exists (added ++ [ent]). cbn [vmf entities]. split.
        * rewrite Hents. now rewrite app_assoc.
        * apply Forall_app. split; [exact Hadded|].
          constructor; [now apply Hcur|constructor].
      + intros e H. discriminate H. }
  destruct (bytes_eqb line [0]).
  { destruct (cur_ent Output st); try exact I.
    split; [exact Hspawn|]. exists added. split; assumption. }
  destruct (cur_ent Output st) as [| |ent] eqn:Ec; try exact I.
  - destruct (read_keyvalue _ _ _ _ _) as [[e sep]|err] eqn:E;
      cbn [rbind]; [|exact I].
    destruct (read_keyvalue_plain _ _ _ _ _ Hplain E) as [-> Ho].
    cbn [fst snd]. split; [exact Hsep|]. split.
    + cbn [vmf spawn]. now rewrite Ho.
    + split; [exists added; split; assumption|].
      intros e' H. discriminate H.
  - destruct (read_keyvalue _ _ _ _ _) as [[e sep]|err] eqn:E;
      cbn [rbind]; [|exact I].
    destruct (read_keyvalue_plain _ _ _ _ _ Hplain E) as [-> Ho].
    cbn [fst snd]. split; [exact Hsep|]. split; [exact Hspawn|].
    split; [exists added; split; assumption|].
    intros e' [= <-]. rewrite Ho. now apply Hcur.
Qed.

Lemma read_lines_quiet (new_vmf : VMF Output) (sep0 : option bool)
      (lines : list bytes) :
  forall (st : reading Output) (v : VMF Output) (sep : option bool),
    Forall plain_line lines -> quiet new_vmf sep0 st ->
    read_lines Output Output_parse conv_int lines st = Ok (v, sep) ->
    sep = sep0
    /\ outputs Output (spawn Output v) = outputs Output (spawn Output new_vmf)
    /\ exists added,
        entities Output v = entities Output new_vmf ++ added
        /\ Forall (fun e => outputs Output e = []) added.
Proof.
  induction lines as [|line lines IH]; intros st v sep Hplain Hq H;
    cbn [read_lines] in H.
  - destruct Hq as (Hsep & Hspawn & Hents & _).
    injection H as <- <-. cbn [spawn entities]. auto.
  - inversion Hplain as [|? ? Hline Hrest]; subst.
    pose proof (read_line_quiet new_vmf sep0 st line Hline Hq) as Hstep.
    destruct (read_line Output Output_parse st line) as [[st'|v']|e];
      cbn [rbind] in H; [| |discriminate].
    + eapply IH; eassumption.
    + injection H as <- <-. destruct Hq as (Hsep & _).
      split; [exact Hsep|exact Hstep].
Qed.

(** X8: a lump none of whose lines holds the byte 27 or four commas
    decodes, when it decodes, to entities without any connection record
    and leaves the separator style as it was: without outputs the style
    stays undetermined. *)
Theorem plain_lump_has_no_outputs
        (new_vmf : VMF Output) (out_sep : option bool) (ent_data : bytes)
        (v : VMF Output) (sep : option bool) :
  Forall (fun line => contains 27 line = false /\ count 44 line < 4)
         (splitlines ent_data) ->
  _lmp_read_ents Output Output_parse conv_int new_vmf out_sep ent_data
  = Ok (v, sep) ->
  sep = out_sep
  /\ outputs Output (spawn Output v) = outputs Output (spawn Output new_vmf)
  /\ exists added,
      entities Output v = entities Output new_vmf ++ added
      /\ Forall (fun e => outputs Output e = []) added.
Proof.
  intros Hplain H. unfold _lmp_read_ents in H.
  eapply read_lines_quiet; [exact Hplain| |exact H].
  split; [reflexivity|]. split; [reflexivity|].
  split; [exists []; split; [now rewrite app_nil_r|constructor]|].
  intros e He. discriminate He.
Qed.

End MoreEntProofs.

Lemma remembered_style_is_kept_witness :
  let parse := fun (_ value : str) =>
                 if contains 27 value then Ok false else Raise ValueError in
  let new_vmf := Ents.mkVMF bool (Ents.mkEntity bool [] []) [] 0 in
  let ent_data :=
    lit "{" ++ [10; 34] ++ lit "classname" ++ [34; 32; 34]
      ++ lit "worldspawn" ++ [34; 10; 34]
      ++ lit "OnUser1" ++ [34; 32; 34] ++ lit "t" ++ [27] ++ lit "Kill"
      ++ [34; 10] ++ lit "}" ++ [10; 0] in
  exists v,
    Ents._lmp_read_ents bool parse (fun _ d => d) new_vmf (Some true) ent_data
    = Ok (v, Some true).
Proof.
  intros parse new_vmf ent_data.
  destruct (Ents._lmp_read_ents bool parse (fun _ d => d) new_vmf (Some true)
                                ent_data) as [[v sep]|e] eqn:E;
    [|vm_compute in E; discriminate].
  exists v. f_equal. f_equal.
  exact (remembered_style_is_kept bool parse (fun _ d => d) new_vmf true
                                  ent_data v sep E).
Defined.

Lemma plain_lump_has_no_outputs_witness :
  let parse := fun (_ _ : str) => Ok tt in
  let new_vmf := Ents.mkVMF unit (Ents.mkEntity unit [] []) [] 0 in
  let ent_data :=
    lit "{" ++ [10; 34] ++ lit "classname" ++ [34; 32; 34]
      ++ lit "worldspawn" ++ [34; 10; 34]
      ++ lit "origin" ++ [34; 32; 34] ++ lit "1,2,3"
      ++ [34; 10] ++ lit "}" ++ [10; 0] in
  exists v,
    Ents._lmp_read_ents unit parse (fun _ d => d) new_vmf None ent_data
    = Ok (v, None)
    /\ Ents.outputs unit (Ents.spawn unit v) = []
    /\ exists added,
        Ents.entities unit v = [] ++ added
        /\ Forall (fun e => Ents.outputs unit e = []) added.
Proof.
  intros parse new_vmf ent_data.
  destruct (Ents._lmp_read_ents unit parse (fun _ d => d) new_vmf None
                                ent_data) as [[v sep]|e] eqn:E;
    [|vm_compute in E; discriminate].
  assert (Hplain : Forall (fun line => contains 27 line = false
                                       /\ count 44 line < 4)
                          (splitlines ent_data)).
  { vm_compute. repeat (constructor; [split; [reflexivity|reflexivity]|]).
    constructor. }
  destruct (plain_lump_has_no_outputs unit parse (fun _ d => d) new_vmf None
                                      ent_data v sep Hplain E)
    as (-> & Ho & Hadded).
  exists v. split; [reflexivity|]. split; [exact Ho|exact Hadded].
Defined.

(** ** Records of fixed size *)

Lemma chunks_exact (size : nat) (n : nat) :
  (0 < size)%nat ->
  forall (fuel : nat) (bs : bytes),
    length bs = (n * size)%nat -> (n <= fuel)%nat ->
    length (Struct.chunks fuel size bs) = n
    /\ Forall (fun rec => length rec = size) (Struct.chunks fuel size bs)
    /\ concat (Struct.chunks fuel size bs) = bs.
Proof.
  intros Hsize. induction n as [|n IH]; intros fuel bs Hlen Hfuel.
  - destruct bs; [|discriminate Hlen].
    destruct fuel; cbn [Struct.chunks]; repeat split; constructor.
  - destruct fuel as [|fuel]; [lia|].
    destruct bs as [|b bs]; [cbn in Hlen; lia|].
    cbn [Struct.chunks].
    destruct (IH fuel (skipn size (b :: bs))) as (Hn & Hall & Hcat).
    + rewrite length_skipn, Hlen. cbn. lia.
    + lia.
    + split; [cbn [length]; now rewrite Hn|]. split.
      * constructor; [|exact Hall]. rewrite length_firstn, Hlen. cbn. lia.
      * cbn [concat]. rewrite Hcat. apply firstn_skipn.
Qed.

Lemma iter_unpack_ok (size : nat) (bs : bytes) (recs : list bytes) :
  (0 < size)%nat ->
  Struct.iter_unpack size bs = Ok recs ->
  length bs = (length recs * size)%nat
  /\ Forall (fun rec => length rec = size) recs
  /\ concat recs = bs.
Proof.
  intros Hsize H. unfold Struct.iter_unpack in H.
  destruct (Nat.eqb_spec (length bs mod size) 0) as [E|E]; [|discriminate].
  injection H as <-.
  assert (Hlen : length bs = (length bs / size * size)%nat).
  { pose proof (Nat.div_mod_eq (length bs) size). lia. }
  destruct (chunks_exact size (length bs / size) Hsize (length bs) bs Hlen)
    as (Hn & Hall & Hcat).
  - apply Nat.Div0.div_le_upper_bound. nia.
  - rewrite Hn. split; [exact Hlen|]. split; assumption.
Qed.

Lemma unpack_fields_length (fmt : list Struct.field) :
  forall bs, length (Struct.unpack_fields fmt bs)
             = length (filter (fun f => match f with
                                        | Struct.Fx => false
                                        | _ => true
                                        end) fmt).
Proof.
  induction fmt as [|f fmt IH]; intros bs; [reflexivity|].
  destruct f; cbn [Struct.unpack_fields filter length]; now rewrite IH.
Qed.

Lemma py_index_In {A} (l : list A) (i : Z) (a : A) :
  py_index l i = Ok a -> In a l.
Proof.
  unfold py_index. destruct (_ && _); [|discriminate].
  destruct (nth_error l _) eqn:E; [|discriminate].
  intros [= <-]. eapply nth_error_In. exact E.
Qed.

(** ** Overlays: what every decoded overlay satisfies *)

Section MoreOverlayProofs.
Import Overlays.
Variable TexInfo : Type.

Lemma read_overlay_ok (texinfo_list : list TexInfo) (block : list Z)
      (o : Overlay TexInfo) :
  length block = 89%nat ->
  read_overlay TexInfo texinfo_list block = Ok o ->
  0 <= face_count TexInfo o <= 64
  /\ len (faces TexInfo o) = face_count TexInfo o
  /\ 0 <= render_order TexInfo o < 3
  /\ In (texture TexInfo o) texinfo_list.
Proof.
  intros Hlen.
  assert (Hfaces : forall count, 0 <= count <= 64 ->
            len (py_slice block 3 (3 + count)) = count).
  { intros count Hc. rewrite py_slice_range by (unfold len; lia).
    unfold len. rewrite length_firstn, length_skipn. lia. }
  revert Hfaces.
  do 89 (destruct block as [|? block]; [discriminate Hlen|]).
  destruct block; [clear Hlen|discriminate Hlen].
  intros Hfaces. unfold read_overlay.
  eval_slice 0 3. cbv beta iota zeta.
  match goal with |- context [py_slice ?l 3 ?e] =>
    set (fs := py_slice l 3 e) in * end.
  eval_slice 67 71. eval_slice 71 74. eval_slice 74 77.
  eval_slice 77 80. eval_slice 80 83. eval_slice 83 86. eval_slice 86 89.
  change (Z.shiftl 1 14 - 1) with 16383.
  match goal with |- context [len ?l =? 89] =>
    change (len l =? 89) with true end.
  cbn [Vec_of rbind negb].
  assert (Hc0 : 0 <= Z.land z1 16383) by (apply Z.land_nonneg; right; lia).
  destruct (Z.ltb_spec 64 (Z.land z1 16383)); [discriminate|].
  destruct (py_index texinfo_list z0) as [tex|e] eqn:Etex; cbn [rbind];
    [|discriminate].
  unfold Overlay_init. cbn [render_order].
  destruct (Z.leb_spec 0 (Z.shiftr z1 14)); cbn [andb]; [|discriminate].
  destruct (Z.ltb_spec (Z.shiftr z1 14) 3); [|discriminate].
  intros [= <-]. cbn [face_count render_order faces texture].
  split; [lia|]. split; [apply Hfaces; lia|]. split; [lia|].
  eapply py_index_In. exact Etex.
Qed.

(** X9: when the overlay lump decodes, its length is 352 bytes per
    overlay, and every overlay has between 0 and 64 faces, a face list of
    exactly that length, a render order of 0, 1 or 2, and a texture taken
    from the texinfo list. *)
Theorem overlays_decoded_invariants
        (texinfo_list : list TexInfo) (data : bytes)
        (overlays : list (Overlay TexInfo)) :
  _lmp_read_overlays TexInfo texinfo_list data = Ok overlays ->
  length data = (352 * length overlays)%nat
  /\ Forall (fun o => 0 <= face_count TexInfo o <= 64
                      /\ len (faces TexInfo o) = face_count TexInfo o
                      /\ 0 <= render_order TexInfo o < 3
                      /\ In (texture TexInfo o) texinfo_list)
            overlays.
Proof.
  intros H. unfold _lmp_read_overlays in H.
  change (Struct.calcsize overlay_fmt) with 352%nat in H.
  destruct (Struct.iter_unpack 352 data) as [records|e] eqn:Er;
    cbn [rbind] in H; [|discriminate].
  apply iter_unpack_ok in Er; [|lia]. destruct Er as (Hlen & _ & _).
  apply for_each_ok in H.
  assert (Hn : length records = length overlays)
    by (eapply Forall2_length; exact H).
  split; [lia|].
  clear Hlen Hn. induction H as [|rec o records overlays Ho _ IH];
    constructor; [|exact IH].
  destruct (Struct.unpack overlay_fmt rec) as [block|e] eqn:Eb;
    cbn [rbind] in Ho; [|discriminate].
  apply (read_overlay_ok texinfo_list block o); [|exact Ho].
  unfold Struct.unpack in Eb.
  destruct (_ =? _)%nat in Eb; [|discriminate].
  assert (Hb : block = Struct.unpack_fields overlay_fmt rec) by congruence.
  rewrite Hb, unpack_fields_length. reflexivity.
Qed.

End MoreOverlayProofs.

Lemma overlays_decoded_invariants_witness :
  let data := [7; 0; 0; 0; 0; 0; 3; 64] ++ repeat 0 344 in
  exists overlays,
    Overlays._lmp_read_overlays unit [tt] data = Ok overlays
    /\ length data = (352 * length overlays)%nat
    /\ Forall (fun o => 0 <= Overlays.face_count unit o <= 64
                        /\ len (Overlays.faces unit o)
                           = Overlays.face_count unit o
                        /\ 0 <= Overlays.render_order unit o < 3
                        /\ In (Overlays.texture unit o) [tt])
              overlays.
Proof.
  intros data.
  destruct (Overlays._lmp_read_overlays unit [tt] data) as [overlays|e] eqn:E;
    [|vm_compute in E; discriminate].
  exists overlays. split; [reflexivity|].
  exact (overlays_decoded_invariants unit [tt] data overlays E).
Defined.

(** ** Visibility tree: inputs that cannot be linked *)

Section MoreVisProofs.
Import Vis.

Lemma resolve_child_out_of_range (leafs : list VisLeaf)
      (nodes : list flat_node) (c : Z) :
  ~ (- len leafs <= c < len nodes) ->
  raises (resolve_child leafs nodes c).
Proof.
  intros Hc. unfold resolve_child.
  destruct (Z.ltb_spec c 0).
  - rewrite py_index_nonneg by lia.
    destruct (nth_error leafs (Z.to_nat (-1 - c))) eqn:E.
    + assert (Z.to_nat (-1 - c) < length leafs)%nat
        by (apply nth_error_Some; congruence).
      unfold len in Hc. lia.
    + exists IndexError. reflexivity.
  - rewrite py_index_nonneg by lia.
    destruct (nth_error nodes (Z.to_nat c)) eqn:E.
    + assert (Z.to_nat c < length nodes)%nat
        by (apply nth_error_Some; congruence).
      unfold len in Hc. lia.
    + exists IndexError. reflexivity.
Qed.

(** X10: [vis_tree] raises when the file's version is a bare integer
    outside the [VERSIONS] enum (the leaf format is chosen through
    [version.value]) and when the NODES lump is empty (there is no first
    node); linking raises when any child index designates neither an
    existing leaf nor an existing node. *)
Theorem vis_tree_unlinkable_inputs :
  (forall v pd nd ld, raises (vis_tree (VersionInt v) pd nd ld))
  /\ (forall version pd ld, raises (vis_tree version pd [] ld))
  /\ (forall st nodes leafs a neg pos,
         In (a, neg, pos) nodes ->
         ~ (- len leafs <= neg < len nodes)
         \/ ~ (- len leafs <= pos < len nodes) ->
         raises (link (st, nodes, leafs))).
Proof.
  split; [|split].
  - intros v pd nd ld. unfold vis_tree, materialise.
    destruct (Struct.iter_unpack _ pd) as [plane_recs|e]; cbn [rbind];
      [|exists e; reflexivity].
    destruct (for_each read_plane plane_recs) as [planes|e]; cbn [rbind];
      [|exists e; reflexivity].
    destruct (Struct.iter_unpack _ nd) as [node_recs|e]; cbn [rbind];
      [|exists e; reflexivity].
    destruct (for_fold (read_node planes) ([], []) node_recs) as [made|e];
      cbn [rbind]; [|exists e; reflexivity].
    exists AttributeError. reflexivity.
  - intros version pd ld. unfold vis_tree, materialise.
    destruct (Struct.iter_unpack _ pd) as [plane_recs|e]; cbn [rbind];
      [|exists e; reflexivity].
    destruct (for_each read_plane plane_recs) as [planes|e]; cbn [rbind];
      [|exists e; reflexivity].
    change (Struct.iter_unpack (Struct.calcsize node_fmt) []) with
      (@Ok (list bytes) []).
    cbn [rbind for_fold].
    destruct version as [value|v]; cbn [rbind];
      [|exists AttributeError; reflexivity].
    destruct (Struct.iter_unpack _ ld) as [leaf_recs|e]; cbn [rbind];
      [|exists e; reflexivity].
    destruct (for_fold (read_leaf (value <=? 19)) [] leaf_recs) as [leafs|e];
      cbn [rbind]; [|exists e; reflexivity].
    exists IndexError. reflexivity.
  - intros st nodes leafs a neg pos Hin Hbad. unfold link.
    destruct (for_fold_raises (link_node leafs nodes) nodes (a, neg, pos) Hin)
      with (s := st) as [e He].
    + intros s. unfold link_node.
      destruct (resolve_child leafs nodes neg) as [cn|e] eqn:En; cbn [rbind];
        [|exists e; reflexivity].
      destruct (resolve_child leafs nodes pos) as [cp|e] eqn:Ep; cbn [rbind];
        [|exists e; reflexivity].
      exfalso. destruct Hbad as [Hb|Hb];
        destruct (resolve_child_out_of_range leafs nodes _ Hb) as [e He];
        congruence.
    + rewrite He. exists e. reflexivity.
Qed.

End MoreVisProofs.

Lemma vis_tree_unlinkable_inputs_witness :
  raises (Vis.link ([], [(0%nat, -3, 0)], []))
  /\ raises (Vis.vis_tree (VersionInt 30) [] [] []).
Proof.
  destruct vis_tree_unlinkable_inputs as (Hver & _ & Hrange).
  split; [|apply Hver].
  apply (Hrange [] [(0%nat, -3, 0)] [] 0%nat (-3) 0).
  - left. reflexivity.
  - left. unfold len. cbn. lia.
Defined.

(** ** Packing and unpacking *)

Lemma firstn_exact {A} (n : nat) (b r : list A) :
  length b = n -> firstn n (b ++ r) = b.
Proof.
  intros <-. rewrite firstn_app, firstn_all, Nat.sub_diag. cbn [firstn].
  apply app_nil_r.
Qed.

Lemma skipn_exact {A} (n : nat) (b r : list A) :
  length b = n -> skipn n (b ++ r) = r.
Proof.
  intros <-. rewrite skipn_app, skipn_all, Nat.sub_diag. reflexivity.
Qed.

(** What [unpack] gives back for packed values: a bool comes back as
    0 or 1. *)
Fixpoint canonical (fmt : list Struct.field) (vals : list Z) : list Z :=
  match fmt with
  | [] => []
  | Struct.Fx :: fmt' => canonical fmt' vals
  | f :: fmt' =>
      match vals with
      | [] => []
      | v :: vals' =>
          match f with
          | Struct.Fbool => (if v =? 0 then 0 else 1) :: canonical fmt' vals'
          | _ => v :: canonical fmt' vals'
          end
      end
  end.

Lemma pack_field_unpack (f : Struct.field) (v : Z) (p : bytes) :
  f <> Struct.Fx ->
  Struct.pack_field f v = Ok p ->
  length p = Struct.field_size f
  /\ Struct.unpack_field f p
     = match f with
       | Struct.Fbool => if v =? 0 then 0 else 1
       | _ => v
       end.
Proof.
  intros Hf H. destruct f; cbn [Struct.pack_field] in H; try congruence.
  - destruct (unpack_pack_signed 4 v p ltac:(lia) H) as [Hv Hl].
    split; [exact Hl|exact Hv].
  - destruct (unpack_pack_unsigned 4 v p H) as [Hv Hl].
    split; [exact Hl|exact Hv].
  - destruct (unpack_pack_signed 2 v p ltac:(lia) H) as [Hv Hl].
    split; [exact Hl|exact Hv].
  - destruct (unpack_pack_unsigned 2 v p H) as [Hv Hl].
    split; [exact Hl|exact Hv].
  - destruct (unpack_pack_unsigned 1 v p H) as [Hv Hl].
    split; [exact Hl|exact Hv].
  - destruct (unpack_pack_unsigned 4 v p H) as [Hv Hl].
    split; [exact Hl|exact Hv].
  - injection H as <-. split; [reflexivity|].
    destruct (v =? 0); reflexivity.
Qed.

Lemma pack_unpack_fields (fmt : list Struct.field) :
  forall (vals : list Z) (bs : bytes),
    Struct.pack fmt vals = Ok bs ->
    length bs = Struct.calcsize fmt
    /\ forall rest, Struct.unpack_fields fmt (bs ++ rest) = canonical fmt vals.
Proof.
  induction fmt as [|f fmt IH]; intros vals bs H.
  - cbn [Struct.pack] in H. destruct vals; [|discriminate].
    injection H as <-. split; reflexivity.
  - destruct (Struct.field_size f) eqn:Esz; [destruct f; discriminate|].
    assert (Hcases : f = Struct.Fx \/ f <> Struct.Fx)
      by (destruct f; (now left) || (right; discriminate)).
    destruct Hcases as [->|Hf].
    + cbn [Struct.pack] in H.
      destruct (Struct.pack fmt vals) as [rest0|e] eqn:Ep; cbn [rbind] in H;
        [|discriminate].
      injection H as <-. destruct (IH _ _ Ep) as [Hl Hu].
      split; [cbn; now rewrite Hl|].
      intros rest. cbn [Struct.unpack_fields canonical app skipn]. apply Hu.
    + assert (Hp : Struct.pack (f :: fmt) vals
                   = match vals with
                     | [] => Raise StructError
                     | v :: vals' =>
                         p <- Struct.pack_field f v ;;
                         rest <- Struct.pack fmt vals' ;; Ok (p ++ rest)
                     end)
        by (destruct f; try reflexivity; congruence).
      rewrite Hp in H. destruct vals as [|v vals]; [discriminate|].
      destruct (Struct.pack_field f v) as [p|e] eqn:Ef; cbn [rbind] in H;
        [|discriminate].
      destruct (Struct.pack fmt vals) as [rest0|e] eqn:Ep; cbn [rbind] in H;
        [|discriminate].
      injection H as <-.
      destruct (pack_field_unpack f v p Hf Ef) as [Hlp Hup].
      destruct (IH _ _ Ep) as [Hl Hu].
      split.
      * rewrite length_app, Hlp, Hl. reflexivity.
      * intros rest.
        assert (Hun : Struct.unpack_fields (f :: fmt) ((p ++ rest0) ++ rest)
                      = Struct.unpack_field f
                          (firstn (Struct.field_size f) ((p ++ rest0) ++ rest))
                        :: Struct.unpack_fields fmt
                             (skipn (Struct.field_size f)
                                    ((p ++ rest0) ++ rest)))
          by (destruct f; try reflexivity; congruence).
        rewrite Hun. rewrite <- !app_assoc.
        rewrite (firstn_exact _ p _ Hlp), (skipn_exact _ p _ Hlp).
        rewrite Hu, Hup.
        destruct f; try reflexivity; congruence.
Qed.

Lemma chunks_concat (size : nat) (blocks : list bytes) :
  (0 < size)%nat ->
  Forall (fun b => length b = size) blocks ->
  forall fuel, (length blocks <= fuel)%nat ->
               Struct.chunks fuel size (concat blocks) = blocks.
Proof.
  intros Hsize Hall. induction Hall as [|b blocks Hb _ IH]; intros fuel Hfuel.
  - destruct fuel; reflexivity.
  - destruct fuel as [|fuel]; [cbn in Hfuel; lia|].
    cbn [concat Struct.chunks].
    destruct (b ++ concat blocks) as [|x rest] eqn:E.
    + destruct b; [cbn in Hb; lia|discriminate].
    + rewrite <- E.
      rewrite (firstn_exact size b _ Hb), (skipn_exact size b _ Hb).
      f_equal. apply IH. cbn in Hfuel. lia.
Qed.

Lemma length_concat_blocks (size : nat) (blocks : list bytes) :
  Forall (fun b => length b = size) blocks ->
  length (concat blocks) = (length blocks * size)%nat.
Proof.
  induction 1 as [|b blocks Hb _ IH]; [reflexivity|].
  cbn [concat length]. rewrite length_app, Hb, IH. lia.
Qed.

Lemma iter_unpack_concat (size : nat) (blocks : list bytes) :
  (0 < size)%nat ->
  Forall (fun b => length b = size) blocks ->
  Struct.iter_unpack size (concat blocks) = Ok blocks.
Proof.
  intros Hsize Hall. unfold Struct.iter_unpack.
  rewrite (length_concat_blocks size blocks Hall).
  rewrite Nat.Div0.mod_mul. cbn [Nat.eqb].
  f_equal. apply chunks_concat; [exact Hsize|exact Hall|nia].
Qed.

Lemma le_value_range (bs : bytes) :
  Forall (fun b => 0 <= b < 256) bs ->
  0 <= Struct.le_value bs < 2 ^ (8 * Z.of_nat (length bs)).
Proof.
  induction 1 as [|b bs Hb _ IH]; [cbn; lia|].
  cbn [Struct.le_value length].
  replace (8 * Z.of_nat (S (length bs))) with (8 + 8 * Z.of_nat (length bs))
    by lia.
  rewrite Z.pow_add_r by lia. change (2 ^ 8) with 256. nia.
Qed.

Lemma le_bytes_le_value (bs : bytes) :
  Forall (fun b => 0 <= b < 256) bs ->
  Struct.le_bytes (length bs) (Struct.le_value bs) = bs.
Proof.
  induction 1 as [|b bs Hb _ IH]; [reflexivity|].
  cbn [Struct.le_value length Struct.le_bytes].
  replace (b + 256 * Struct.le_value bs) with (b + Struct.le_value bs * 256)
    by lia.
  f_equal.
  - rewrite Z.mod_add by lia. now apply Z.mod_small.
  - rewrite Z.div_add by lia.
    rewrite Z.div_small by lia. exact IH.
Qed.

Lemma pack_signed_unpack (n : nat) (bs : bytes) :
  (0 < n)%nat -> length bs = n ->
  Forall (fun b => 0 <= b < 256) bs ->
  Struct.pack_signed n (Struct.unpack_signed bs) = Ok bs.
Proof.
  intros Hn Hlen Hbs.
  pose proof (le_value_range bs Hbs) as Hr. rewrite Hlen in Hr.
  unfold Struct.pack_signed, Struct.unpack_signed, Struct.to_signed.
  rewrite Hlen. set (half := 2 ^ (8 * Z.of_nat n - 1)).
  assert (Hh : 0 < half) by (apply Z.pow_pos_nonneg; lia).
  assert (H2 : 2 ^ (8 * Z.of_nat n) = 2 * half).
  { unfold half. rewrite <- Z.pow_succ_r by lia. f_equal. lia. }
  rewrite H2 in Hr. set (u := Struct.le_value bs) in *.
  assert (Hback : Struct.le_bytes n u = bs)
    by (subst u; rewrite <- Hlen; now apply le_bytes_le_value).
  destruct (Z.ltb_spec u half).
  - destruct (Z.leb_spec (- half) u); [|lia].
    destruct (Z.ltb_spec u half); [|lia]. cbn [andb].
    rewrite Z.mod_small by lia. now rewrite Hback.
  - destruct (Z.leb_spec (- half) (u - 2 * half)); [|lia].
    destruct (Z.ltb_spec (u - 2 * half) half); [|lia]. cbn [andb].
    replace ((u - 2 * half) mod (2 * half)) with u; [now rewrite Hback|].
    apply Z.mod_unique with (q := -1); lia.
Qed.

(** ** Cubemaps *)

Section CubemapProofs.
Import QArith_base Qround Cubemaps.
Local Open Scope Z_scope.

Lemma py_round_integer (z : Z) : py_round (inject_Z z) = z.
Proof.
  unfold py_round. rewrite Qfloor_Z.
  replace (Qcompare (Qminus (inject_Z z) (inject_Z z)) (Qmake 1 2)) with Lt;
    [reflexivity|].
  symmetry. unfold Qcompare, Qminus, Qplus, Qopp, inject_Z.
  cbn [Qnum Qden]. apply Z.compare_lt_iff. nia.
Qed.

(** The cubemap as it is stored: its origin snapped to integers. *)
Definition snapped (cube : Cubemap) : Cubemap :=
  mkCubemap (mkFVec (inject_Z (py_round (fx (origin cube))))
                    (inject_Z (py_round (fy (origin cube))))
                    (inject_Z (py_round (fz (origin cube)))))
            (size cube).

Lemma write_cubemap_read (cube : Cubemap) (block : bytes) :
  write_cubemap cube = Ok block ->
  length block = 16%nat /\ read_cubemap block = Ok (snapped cube).
Proof.
  intros H. unfold write_cubemap in H.
  destruct (pack_unpack_fields _ _ _ H) as [Hl Hu].
  split; [exact Hl|].
  unfold read_cubemap, Struct.unpack. rewrite Hl. cbn [Nat.eqb rbind].
  change (Struct.calcsize cubemap_fmt =? Struct.calcsize cubemap_fmt)%nat
    with true. cbv iota. cbn [rbind].
  specialize (Hu []). rewrite app_nil_r in Hu. rewrite Hu. reflexivity.
Qed.

(** X11: decoding an encoded cubemap list gives every cubemap back with
    its origin snapped to the nearest integers (a tie goes to the even
    one) and its size unchanged. *)
Theorem cubemaps_encode_decode (cubemaps : list Cubemap) (data : bytes) :
  _lmp_write_cubemaps cubemaps = Ok data ->
  _lmp_read_cubemaps data = Ok (map snapped cubemaps).
Proof.
  intros H. unfold _lmp_write_cubemaps in H.
  destruct (for_each write_cubemap cubemaps) as [blocks|e] eqn:Eb;
    cbn [rbind] in H; [|discriminate].
  injection H as <-. apply for_each_ok in Eb.
  assert (Hall : Forall (fun b => length b = 16%nat) blocks
                 /\ for_each read_cubemap blocks = Ok (map snapped cubemaps)).
  { induction Eb as [|cube block cubemaps blocks Hw _ IH].
    - split; [constructor|reflexivity].
    - destruct IH as [IH1 IH2].
      destruct (write_cubemap_read cube block Hw) as [Hl Hr].
      split; [constructor; assumption|].
      cbn [for_each map]. rewrite Hr. cbn [rbind]. rewrite IH2. reflexivity. }
  destruct Hall as [Hlen Hread].
  unfold _lmp_read_cubemaps.
  change (Struct.calcsize cubemap_fmt) with 16%nat.
  rewrite iter_unpack_concat by (lia || exact Hlen). cbn [rbind]. exact Hread.
Qed.

Lemma read_cubemap_write (rec : bytes) (cube : Cubemap) :
  Forall (fun b => 0 <= b < 256) rec ->
  read_cubemap rec = Ok cube -> write_cubemap cube = Ok rec.
Proof.
  intros Hrange H. unfold read_cubemap, Struct.unpack in H.
  destruct (Nat.eqb_spec (length rec) (Struct.calcsize cubemap_fmt)) as [Hl|];
    cbn [rbind] in H; [|discriminate].
  do 16 (destruct rec as [|? rec]; [discriminate Hl|]).
  destruct rec; [|discriminate Hl].
  cbn [Struct.unpack_fields cubemap_fmt Struct.field_size firstn skipn
       Struct.unpack_field] in H.
  injection H as <-.
  unfold write_cubemap. cbn [origin size fx fy fz].
  rewrite !py_round_integer.
  repeat match goal with
         | H : Forall _ (_ :: _) |- _ => inversion H; subst; clear H
         end.
  unfold Struct.pack, cubemap_fmt. cbn [Struct.pack_field].
  rewrite !pack_signed_unpack
    by first [lia | reflexivity
             | (repeat (apply Forall_cons; [assumption|]); apply Forall_nil)].
  reflexivity.
Qed.

(** X12: a cubemap lump made of bytes that decodes is reproduced byte
    for byte when the decoded list is encoded again. *)
Theorem cubemaps_decode_encode (data : bytes) (cubemaps : list Cubemap) :
  Forall (fun b => 0 <= b < 256) data ->
  _lmp_read_cubemaps data = Ok cubemaps ->
  _lmp_write_cubemaps cubemaps = Ok data.
Proof.
  intros Hrange H. unfold _lmp_read_cubemaps in H.
  change (Struct.calcsize cubemap_fmt) with 16%nat in H.
  destruct (Struct.iter_unpack 16 data) as [records|e] eqn:Er;
    cbn [rbind] in H; [|discriminate].
  apply iter_unpack_ok in Er; [|lia]. destruct Er as (_ & _ & Hcat).
  apply for_each_ok in H. subst data.
  unfold _lmp_write_cubemaps.
  assert (Hw : for_each write_cubemap cubemaps = Ok records).
  { induction H as [|rec cube records cubemaps Hr _ IH]; [reflexivity|].
    cbn [concat] in Hrange. apply Forall_app in Hrange.
    destruct Hrange as [Hrec Hrest].
    cbn [for_each]. rewrite (read_cubemap_write rec cube Hrec Hr).
    cbn [rbind]. rewrite (IH Hrest). reflexivity. }
  rewrite Hw. reflexivity.
Qed.

End CubemapProofs.

(** A cubemap at (2.5, 3.5, -1/3) is stored at (2, 4, 0). *)
Lemma cubemaps_encode_decode_witness :
  let cube := Cubemaps.mkCubemap
                (Cubemaps.mkFVec (QArith_base.Qmake 5 2) (QArith_base.Qmake 7 2)
                                 (QArith_base.Qmake (-1) 3)) 6 in
  exists data,
    Cubemaps._lmp_write_cubemaps [cube] = Ok data
    /\ Cubemaps._lmp_read_cubemaps data
       = Ok [Cubemaps.mkCubemap
               (Cubemaps.mkFVec (QArith_base.inject_Z 2) (QArith_base.inject_Z 4)
                                (QArith_base.inject_Z 0)) 6].
Proof.
  intros cube.
  destruct (Cubemaps._lmp_write_cubemaps [cube]) as [data|e] eqn:E;
    [|vm_compute in E; discriminate].
  exists data. split; [reflexivity|].
  exact (cubemaps_encode_decode [cube] data E).
Defined.

Lemma cubemaps_decode_encode_witness :
  let data := [255; 255; 255; 255; 16; 0; 0; 0; 0; 1; 0; 0; 7; 0; 0; 0] in
  Forall (fun b => 0 <= b < 256) data
  /\ exists cubemaps,
      Cubemaps._lmp_read_cubemaps data = Ok cubemaps
      /\ Cubemaps._lmp_write_cubemaps cubemaps = Ok data.
Proof.
  intros data.
  assert (Hrange : Forall (fun b => 0 <= b < 256) data)
    by (repeat (apply Forall_cons; [lia|]); apply Forall_nil).
  split; [exact Hrange|].
  destruct (Cubemaps._lmp_read_cubemaps data) as [cubemaps|e] eqn:E;
    [|vm_compute in E; discriminate].
  exists cubemaps. split; [reflexivity|].
  exact (cubemaps_decode_encode data cubemaps Hrange E).
Defined.

(** ** Overlays: the packed field of a record *)

Lemma unpack_fields_app (fmt1 fmt2 : list Struct.field) :
  forall bs,
    Struct.unpack_fields (fmt1 ++ fmt2) bs
    = Struct.unpack_fields fmt1 bs
        ++ Struct.unpack_fields fmt2 (skipn (Struct.calcsize fmt1) bs).
Proof.
  induction fmt1 as [|f fmt1 IH]; intros bs; [reflexivity|].
  assert (Hs : skipn (Struct.calcsize (f :: fmt1)) bs
               = skipn (Struct.calcsize fmt1) (skipn (Struct.field_size f) bs)).
  { rewrite skipn_skipn. f_equal. cbn [Struct.calcsize fold_right].
    fold (Struct.calcsize fmt1). lia. }
  rewrite Hs.
  destruct f; cbn [app Struct.unpack_fields]; rewrite IH; reflexivity.
Qed.

Section OverlayRecords.
Import Overlays.
Variable TexInfo : Type.

(** The face-count-and-render-order field of a record: the ['H'] after
    the ['<ih'] at its start. *)
Definition packed_field (rec : bytes) : Z :=
  Struct.unpack_field Struct.FH (firstn 2 (skipn 6 rec)).

(** The texinfo index of a record: the ['h'] before it. *)
Definition texinfo_field (rec : bytes) : Z :=
  Struct.unpack_field Struct.Fh (firstn 2 (skipn 4 rec)).

(** The 64-slot face array of a record. *)
Definition face_array (rec : bytes) : list Z :=
  Struct.unpack_fields (repeat Struct.Fi 64) (skipn 8 rec).

(** The unpacked block of a record, by its parts. *)
Lemma overlay_block (rec : bytes) :
  length rec = 352%nat ->
  exists block,
    Struct.unpack overlay_fmt rec = Ok block
    /\ length block = 89%nat
    /\ nth 1 block 0 = texinfo_field rec
    /\ nth 2 block 0 = packed_field rec
    /\ firstn 64 (skipn 3 block) = face_array rec.
Proof.
  intros Hlen. exists (Struct.unpack_fields overlay_fmt rec).
  split.
  { unfold Struct.unpack. rewrite Hlen. reflexivity. }
  split; [rewrite unpack_fields_length; reflexivity|].
  unfold overlay_fmt. rewrite unpack_fields_app.
  change (skipn (Struct.calcsize [Struct.Fi; Struct.Fh; Struct.FH]) rec)
    with (skipn 8 rec).
  set (tail := Struct.unpack_fields _ (skipn 8 rec)).
  cbn [Struct.unpack_fields app Struct.field_size]. rewrite skipn_skipn.
  cbn [nth].
  match goal with
  | |- context [skipn 3 (?a :: ?b :: ?c :: tail)] =>
      change (skipn 3 (a :: b :: c :: tail)) with tail
  end.
  split; [reflexivity|]. split; [reflexivity|].
  subst tail. rewrite unpack_fields_app. fold (face_array rec).
  apply firstn_exact. unfold face_array. rewrite unpack_fields_length.
  reflexivity.
Qed.

(** C6: every record of the overlay lump is decoded from its packed
    face-count-and-render-order field: the low 14 bits are the face
    count, the bits above them the render order, and the faces are the
    first face-count entries of the record's 64-slot face array; a
    record whose face count is above 64 makes the decode raise.  A
    lump of whole records decodes when every record has a face count
    of at most 64, a render order that the [Overlay] constructor
    accepts (0, 1 or 2) and an existing texinfo. *)
Theorem overlay_face_count_split (texinfo_list : list TexInfo) :
  (forall data overlays,
      _lmp_read_overlays TexInfo texinfo_list data = Ok overlays ->
      exists records,
        data = concat records
        /\ Forall2 (fun rec o =>
                      length rec = 352%nat
                      /\ face_count TexInfo o
                         = Z.land (packed_field rec) 16383
                      /\ render_order TexInfo o
                         = Z.shiftr (packed_field rec) 14
                      /\ face_count TexInfo o <= 64
                      /\ faces TexInfo o
                         = firstn (Z.to_nat (face_count TexInfo o))
                                  (face_array rec))
                   records overlays)
  /\ (forall records rec,
         Forall (fun rec => length rec = 352%nat) records ->
         In rec records ->
         64 < Z.land (packed_field rec) 16383 ->
         raises (_lmp_read_overlays TexInfo texinfo_list (concat records)))
  /\ (forall records,
         Forall (fun rec =>
                   length rec = 352%nat
                   /\ Z.land (packed_field rec) 16383 <= 64
                   /\ 0 <= Z.shiftr (packed_field rec) 14 < 3
                   /\ exists tex,
                       py_index texinfo_list (texinfo_field rec) = Ok tex)
                records ->
         exists overlays,
           _lmp_read_overlays TexInfo texinfo_list (concat records)
           = Ok overlays).
Proof.
  split; [|split].
  - intros data overlays H. unfold _lmp_read_overlays in H.
    change (Struct.calcsize overlay_fmt) with 352%nat in H.
    destruct (Struct.iter_unpack 352 data) as [records|e] eqn:Er;
      cbn [rbind] in H; [|discriminate].
    apply iter_unpack_ok in Er; [|lia]. destruct Er as (_ & Hsizes & Hcat).
    exists records. split; [now symmetry|].
    apply for_each_ok in H. clear Hcat.
    induction H as [|rec o records overlays Ho _ IH]; [constructor|].
    inversion Hsizes as [|? ? Hrec Hrest]; subst.
    constructor; [|now apply IH].
    destruct (overlay_block rec Hrec) as (block & Hb & Hbl & _ & Hp & Hf).
    rewrite Hb in Ho. cbn [rbind] in Ho.
    destruct (read_overlay_split TexInfo texinfo_list block Hbl)
      as (Hbig & Hsplit & _).
    rewrite Hp in Hbig, Hsplit.
    destruct (Z.lt_ge_cases 64 (Z.land (packed_field rec) 16383)) as [Hc|Hc].
    { rewrite (Hbig Hc) in Ho. discriminate. }
    destruct (Hsplit ltac:(lia) o Ho) as (Hcount & Horder & Hfaces).
    split; [exact Hrec|]. split; [exact Hcount|]. split; [exact Horder|].
    split; [lia|]. rewrite Hfaces, Hf, Hcount. reflexivity.
  - intros records rec Hsizes Hin Hc. unfold _lmp_read_overlays.
    change (Struct.calcsize overlay_fmt) with 352%nat.
    rewrite (iter_unpack_concat 352 records ltac:(lia) Hsizes).
    cbn [rbind]. apply (for_each_raises _ records rec Hin).
    rewrite Forall_forall in Hsizes.
    destruct (overlay_block rec (Hsizes rec Hin))
      as (block & Hb & Hbl & _ & Hp & _).
    rewrite Hb. cbn [rbind].
    destruct (read_overlay_split TexInfo texinfo_list block Hbl)
      as (Hbig & _).
    rewrite Hp in Hbig. rewrite (Hbig Hc). now eexists.
  - intros records Hall. unfold _lmp_read_overlays.
    change (Struct.calcsize overlay_fmt) with 352%nat.
    rewrite (iter_unpack_concat 352 records ltac:(lia)
               ltac:(eapply Forall_impl; [|exact Hall]; now intros r [? _])).
    cbn [rbind].
    induction Hall as [|rec records (Hrec & Hc & Ho & tex & Htex) _ IH].
    + exists []. reflexivity.
    + destruct IH as [overlays IH].
      destruct (overlay_block rec Hrec) as (block & Hb & Hbl & Ht & Hp & _).
      destruct (read_overlay_split TexInfo texinfo_list block Hbl)
        as (_ & _ & Hlive).
      rewrite Hp in Hlive. rewrite Ht in Hlive.
      destruct (Hlive Hc Ho tex Htex) as [o Hread].
      exists (o :: overlays). cbn [for_each]. rewrite Hb. cbn [rbind].
      rewrite Hread. cbn [rbind]. rewrite IH. reflexivity.
Qed.

End OverlayRecords.

(** Two records over a one-entry texinfo list: packed field [0x4003]
    (render order 1, three faces), then [0x0041] (65 faces). *)
Lemma overlay_face_count_split_witness :
  let faces := flat_map (fun n => [Z.of_nat n; 0; 0; 0]) (seq 10 64) in
  let good := [7; 0; 0; 0; 0; 0; 3; 64] ++ faces ++ repeat 0 88 in
  let bad := [8; 0; 0; 0; 0; 0; 65; 0] ++ faces ++ repeat 0 88 in
  (exists overlays records,
      Overlays._lmp_read_overlays unit [tt] (concat [good]) = Ok overlays
      /\ map (Overlays.face_count unit) overlays = [3]
      /\ map (Overlays.render_order unit) overlays = [1]
      /\ map (Overlays.faces unit) overlays = [[10; 11; 12]]
      /\ concat [good] = concat records
      /\ Forall2 (fun rec o =>
                    length rec = 352%nat
                    /\ Overlays.face_count unit o
                       = Z.land (packed_field rec) 16383
                    /\ Overlays.render_order unit o
                       = Z.shiftr (packed_field rec) 14
                    /\ Overlays.face_count unit o <= 64
                    /\ Overlays.faces unit o
                       = firstn (Z.to_nat (Overlays.face_count unit o))
                                (face_array rec))
                 records overlays)
  /\ raises (Overlays._lmp_read_overlays unit [tt] (concat [good; bad])).
Proof.
  intros faces good bad.
  destruct (overlay_face_count_split unit [tt]) as (Hdec & Hbig & Hlive).
  split.
  - destruct (Hlive [good]) as [overlays Hread].
    { constructor; [|constructor].
      split; [reflexivity|]. split; [vm_compute; discriminate|].
      split; [vm_compute; split; [discriminate|reflexivity]|].
      exists tt. reflexivity. }
    destruct (Hdec _ _ Hread) as (records & Hcat & Hall).
    exists overlays, records. split; [exact Hread|].
    assert (Hvals : map (Overlays.face_count unit) overlays = [3]
                    /\ map (Overlays.render_order unit) overlays = [1]
                    /\ map (Overlays.faces unit) overlays = [[10; 11; 12]]).
    { clear -Hread. vm_compute in Hread. injection Hread as <-.
      repeat split. }
    destruct Hvals as (H1 & H2 & H3).
    repeat (split; [assumption|]). exact Hall.
  - apply (Hbig [good; bad] bad).
    + constructor; [reflexivity|constructor; [reflexivity|constructor]].
    + right. now left.
    + vm_compute. reflexivity.
Defined.

(** ** Static props: reading back what was written *)


Ltac eval_tests_in H :=
  repeat match type of H with
         | context [?a <=? ?b] =>
             let r := eval vm_compute in (a <=? b) in
             change (a <=? b) with r in H
         | context [?a =? ?b] =>
             let r := eval vm_compute in (a =? b) in
             change (a =? b) with r in H
         end.


Section StaticPropRoundTrip.
Import Struct StaticProps.




(** A prop that version [version] of the format can carry: a valid
    flag set, without secondary flags before version 10; the fields the
    version leaves out hold the values the decoder gives them; the bool
    is 0 or 1. *)
Definition fits (version : Z) (p : StaticProp) : Prop :=
  StaticPropFlags (flags p) = Ok (flags p)
  /\ (version < 10 -> flags p < 256)
  /\ (version < 5 -> fade_scale p = float_one)
  /\ (version <> 6 -> version <> 7 ->
      min_dx_level p = 0 /\ max_dx_level p = 0)
  /\ (version < 8 ->
      min_cpu_level p = 0 /\ max_cpu_level p = 0
      /\ min_gpu_level p = 0 /\ max_gpu_level p = 0)
  /\ (version < 7 -> tint p = mkVec 255 255 255 /\ renderfx p = 255)
  /\ (version < 11 -> scaling p = float_one)
  /\ (disable_on_xbox p = 0
      \/ (9 <= version < 11 /\ disable_on_xbox p = 1)).










(** The rebuilt leaf array extends the one the layout started from,
    and there is one offset for each prop. *)
Lemma leaf_layout_extends (props : list StaticProp) :
  forall acc offsets final,
    leaf_layout acc props = (offsets, final) ->
    length offsets = length props
    /\ final = acc ++ concat (map visleafs props).
Proof.
  induction props as [|p props IH]; intros acc offsets final H.
  - injection H as <- <-. split; [reflexivity|].
    cbn [map concat]. now rewrite app_nil_r.
  - cbn [leaf_layout] in H.
    destruct (leaf_layout (acc ++ visleafs p) props) as [offs fin] eqn:E.
    injection H as <- <-. destruct (IH _ _ _ E) as [Hl ->].
    split; [cbn [length]; now rewrite Hl|].
    cbn [map concat]. now rewrite <- app_assoc.
Qed.



(** What [rstrip] removes. *)
Lemma rstrip_nul_prefix (b : bytes) :
  exists k, b = rstrip_nul b ++ repeat 0 k.
Proof.
  unfold rstrip_nul.
  set (drop := fix drop (l : bytes) : bytes :=
                 match l with
                 | 0 :: l' => drop l'
                 | _ => l
                 end).
  assert (H : forall l, exists k, rev l = rev (drop l) ++ repeat 0 k).
  { induction l as [|c l IH].
    - exists 0%nat. reflexivity.
    - destruct (Z.eq_dec c 0) as [->|Hc].
      + destruct IH as [k IH]. exists (S k).
        cbn [rev drop]. rewrite IH. rewrite <- app_assoc. f_equal.
        change [0] with (repeat 0 1). rewrite <- repeat_app.
        now rewrite Nat.add_comm.
      + exists 0%nat. cbn [repeat]. rewrite app_nil_r.
        destruct c; try reflexivity. congruence. }
  destruct (H (rev b)) as [k Hk]. rewrite rev_involutive in Hk.
  now exists k.
Qed.


(** A name that a 128-byte field holds as it is: at most 128
    characters, the last of which is not NUL. *)
Definition name_fits (name : str) : Prop :=
  (length name <= 128)%nat /\ rstrip_nul name = name.















End StaticPropRoundTrip.




(** ** Static props: the model table and the leaf counts *)

Section StaticPropTable.
Import Struct StaticProps GameLumps.




Lemma pack_short_raises (v : Z) :
  65535 < v -> pack_field FH v = Raise StructError.
Proof.
  intros Hv. cbn [pack_field]. unfold pack_unsigned.
  destruct (Z.ltb_spec v (2 ^ (8 * Z.of_nat 2))) as [Hlt|_].
  - change (2 ^ (8 * Z.of_nat 2)) with 65536 in Hlt. lia.
  - now rewrite andb_false_r.
Qed.

Lemma rbind_raises {A B} (r : result A) (k : A -> result B) :
  (forall a, r = Ok a -> raises (k a)) -> raises (rbind r k).
Proof.
  intros H. destruct r as [a|e]; cbn [rbind]; [now apply H|now eexists].
Qed.

Lemma write_prop_many_leaves (version : Z) (model_list : list str)
      (leaf_off : Z) (p : StaticProp) :
  65535 < len (visleafs p) ->
  raises (write_prop version model_list leaf_off p).
Proof.
  intros Hn. unfold write_prop.
  apply rbind_raises. intros ind _.
  apply rbind_raises. intros a _.
  match goal with
  | |- raises (rbind ?r _) =>
      assert (Hr : raises r); [|destruct Hr as [e ->]; now eexists]
  end.
  cbn [pack]. apply rbind_raises. intros off _.
  rewrite (pack_short_raises _ Hn). cbn [rbind]. now eexists.
Qed.

Lemma write_props_many_leaves (version : Z) (model_list : list str)
      (p : StaticProp) :
  65535 < len (visleafs p) ->
  forall (props : list StaticProp) (offsets : list Z),
    In p props -> length offsets = length props ->
    raises (write_props version model_list offsets props).
Proof.
  intros Hn. induction props as [|q props IH]; intros offsets Hin Hl;
    [destruct Hin|].
  destruct offsets as [|off offsets]; [discriminate|].
  cbn [write_props]. destruct Hin as [->|Hin].
  - destruct (write_prop_many_leaves version model_list off p Hn) as [e ->].
    now eexists.
  - apply rbind_raises. intros pb _.
    destruct (IH offsets Hin) as [e ->]; [now injection Hl|]. now eexists.
Qed.

(** X16: the number of leaves of a prop is stored in an unsigned short:
    [write_static_props] raises when some prop has more than 65535
    visleafs, whatever the format version and the other props. *)
Theorem static_prop_leaf_count_limit
        (game_lumps : list (bytes * GameLump)) (props : list StaticProp)
        (p : StaticProp) :
  In p props ->
  65535 < len (visleafs p) ->
  raises (write_static_props game_lumps props).
Proof.
  intros Hin Hn. unfold write_static_props.
  destruct (game_lump_get (lit "sprp") game_lumps) as [sprp|];
    [|now eexists].
  apply rbind_raises with (k := fun new_data => Ok _).
  intros data Hd. exfalso.
  assert (Hr : raises (write_prop_lump (game_version sprp) props));
    [|destruct Hr; congruence].
  unfold write_prop_lump.
  destruct (leaf_layout [] props) as [leaf_offsets leaf_array] eqn:El.
  destruct (leaf_layout_extends _ _ _ _ El) as [Hl _].
  do 5 (apply rbind_raises; intros ? _).
  destruct (write_props_many_leaves (game_version sprp)
              (model_names [] props) p Hn props leaf_offsets Hin Hl)
    as [e ->].
  now eexists.
Qed.

End StaticPropTable.


Lemma static_prop_leaf_count_limit_witness :
  let prop := StaticProps.mkStaticProp
                (lit "models/a.mdl") (mkVec 0 0 0) (mkVec 0 0 0)
                StaticProps.float_one (repeat 7 (Z.to_nat 65536)) 6 0 0 0 0
                (mkVec 0 0 0) StaticProps.float_one 0 0 0 0 0 0
                (mkVec 255 255 255) 255 0 in
  65535 < len (StaticProps.visleafs prop)
  /\ raises (StaticProps.write_static_props
               [(lit "sprp", mkGameLump (lit "sprp") 0 10 [])] [prop]).
Proof.
  intros prop.
  assert (H : 65535 < len (StaticProps.visleafs prop))
    by (vm_compute; reflexivity).
  split; [exact H|].
  apply (static_prop_leaf_count_limit _ [prop] prop); [now left|exact H].
Defined.

(** ** Saving *)

Section SaveProofs.
Import Save.
Variables (_lmp_write_pakfile _lmp_write_ents _lmp_write_cubemaps
           : BSP -> pyobj -> result bytes)
          (_lmp_write_texinfo _lmp_write_textures
           : BSP -> pyobj -> result bytes * BSP).

Lemma del_parsed_other (l l' : BSP_LUMPS) (s : BSP) :
  l' <> l -> _parsed_lumps (del_parsed l s) l' = _parsed_lumps s l'.
Proof.
  intros Hne. unfold del_parsed. cbn [_parsed_lumps].
  now rewrite (lump_eqb_neq _ _ Hne).
Qed.

(** Rebuilding the pakfile, the entities or the cubemaps leaves what
    the other views hold. *)
Lemma rebuild_lump_keeps (l other : BSP_LUMPS) (s s' : BSP)
      (r : result unit) :
  l = PAKFILE \/ l = ENTITIES \/ l = CUBEMAPS ->
  other <> l ->
  rebuild_lump _lmp_write_pakfile _lmp_write_ents _lmp_write_cubemaps
               _lmp_write_texinfo _lmp_write_textures l s = (r, s') ->
  _parsed_lumps s' other = _parsed_lumps s other.
Proof.
  intros Hl Hne H. unfold rebuild_lump in H.
  destruct (_parsed_lumps s l) as [d|]; [|now injection H as _ <-].
  destruct Hl as [-> | [-> | ->]]; cbn [_save_funcs] in H;
    match type of H with
    | context [?w (del_parsed ?l s) d] =>
        destruct (w (del_parsed l s) d)
    end;
    injection H as _ <-; try (unfold set_lump_data; cbn [_parsed_lumps]);
    now apply del_parsed_other.
Qed.

Lemma rebuild_raises_with_overlays (s : BSP) (v : pyobj) :
  _parsed_lumps s OVERLAYS = Some v ->
  raises (fst (save_rebuild _lmp_write_pakfile _lmp_write_ents
                            _lmp_write_cubemaps _lmp_write_texinfo
                            _lmp_write_textures s)).
Proof.
  intros Hv. unfold save_rebuild, LUMP_REBUILD_ORDER.
  cbn [rebuild].
  destruct (rebuild_lump _ _ _ _ _ PAKFILE s) as [[?|e] s1] eqn:E1;
    [|now eexists].
  rewrite <- (rebuild_lump_keeps _ OVERLAYS _ _ _ (or_introl eq_refl)
                ltac:(discriminate) E1) in Hv.
  destruct (rebuild_lump _ _ _ _ _ ENTITIES s1) as [[?|e] s2] eqn:E2;
    [|now eexists].
  rewrite <- (rebuild_lump_keeps _ OVERLAYS _ _ _
                (or_intror (or_introl eq_refl)) ltac:(discriminate) E2)
    in Hv.
  destruct (rebuild_lump _ _ _ _ _ CUBEMAPS s2) as [[?|e] s3] eqn:E3;
    [|now eexists].
  rewrite <- (rebuild_lump_keeps _ OVERLAYS _ _ _
                (or_intror (or_intror eq_refl)) ltac:(discriminate) E3)
    in Hv.
  unfold rebuild_lump at 1. rewrite Hv. cbn [_save_funcs].
  unfold _lmp_write_overlays. cbn [fst]. now eexists.
Qed.

(** X17: the overlays cannot be written back.  Once a view of the
    OVERLAYS lump holds a decoded object, after a successful read of
    it or an accepted assignment to it, the rebuild loop that [save]
    starts with raises, whatever the other writers do. *)
Theorem save_raises_after_overlays_access (view : ParsedLump) (s : BSP) :
  lump view = OVERLAYS ->
  (forall v,
      fst (__get__ view s) = Ok v ->
      raises (fst (save_rebuild _lmp_write_pakfile _lmp_write_ents
                     _lmp_write_cubemaps _lmp_write_texinfo
                     _lmp_write_textures (snd (__get__ view s)))))
  /\ (forall v,
         fst (__set__ view v s) = Ok tt ->
         raises (fst (save_rebuild _lmp_write_pakfile _lmp_write_ents
                        _lmp_write_cubemaps _lmp_write_texinfo
                        _lmp_write_textures (snd (__set__ view v s))))).
Proof.
  intros Hl. split; intros v H.
  - unfold __get__ in *. rewrite Hl in *.
    destruct (_parsed_lumps s OVERLAYS) as [cached|] eqn:Ec.
    + cbn [snd]. exact (rebuild_raises_with_overlays s cached Ec).
    + destruct (_read view) as [read|]; [|discriminate].
      destruct (read s (get_lump s OVERLAYS)) as [[result|e] s1];
        [|discriminate].
      cbn [snd]. apply (rebuild_raises_with_overlays _ result).
      rewrite clear_lumps_parsed. apply set_parsed_same.
  - unfold __set__ in *. rewrite Hl in *.
    destruct (match _check view with
              | Some check => check s v
              | None => Ok tt
              end); [|discriminate].
    cbn [snd]. apply (rebuild_raises_with_overlays _ v).
    apply set_parsed_same.
Qed.

End SaveProofs.

Lemma save_raises_after_overlays_access_witness :
  let view := mkParsedLump OVERLAYS []
                (Some (fun s _ => (Ok (PObject 1), s))) None in
  let s := mkBSP (lit "a.bsp") (fun l => mkLump l 0 [0; 0; 0; 0] [])
                 (fun _ => None) [] (VersionInt 21) None in
  let pure := fun (_ : BSP) (_ : pyobj) => Ok ([] : bytes) in
  let stores := fun (s : BSP) (_ : pyobj) => (Ok ([] : bytes), s) in
  fst (__get__ view s) = Ok (PObject 1)
  /\ raises (fst (Save.save_rebuild pure pure pure stores stores
                    (snd (__get__ view s)))).
Proof.
  intros view s pure stores. split; [reflexivity|].
  exact (proj1 (save_raises_after_overlays_access pure pure pure stores
                  stores view s eq_refl) (PObject 1) eq_refl).
Defined.

(** X18: [LUMP_WRITE_ORDER] names every lump exactly once, and the
    pakfile lump last. *)
Theorem write_order_has_each_lump_once :
  exists order,
    Save.LUMP_WRITE_ORDER = Ok order
    /\ (forall l, length (filter (lump_eqb l) order) = 1%nat)
    /\ last order ENTITIES = PAKFILE.
Proof.
  eexists. split; [vm_compute; reflexivity|].
  split; [intros l; destruct l; reflexivity|reflexivity].
Qed.

(** ** Static props: what every decoded prop satisfies *)

Section StaticPropDecoded.
Import Struct StaticProps.

Definition is_byte (b : Z) : Prop := 0 <= b < 256.

Lemma flags_accepted (value flags : Z) :
  StaticPropFlags value = Ok flags ->
  flags = value /\ StaticPropFlags flags = Ok flags.
Proof.
  unfold StaticPropFlags.
  destruct (Z.land value (Z.lnot 1535) =? 0) eqn:E; [|discriminate].
  intros [= <-]. now rewrite E.
Qed.

Lemma Forall_firstn_of {A} (P : A -> Prop) (n : nat) (l : list A) :
  Forall P l -> Forall P (firstn n l).
Proof.
  rewrite !Forall_forall. intros H x Hx. apply H.
  rewrite <- (firstn_skipn n l). apply in_or_app. now left.
Qed.

Lemma Forall_skipn_of {A} (P : A -> Prop) (n : nat) (l : list A) :
  Forall P l -> Forall P (skipn n l).
Proof.
  rewrite !Forall_forall. intros H x Hx. apply H.
  rewrite <- (firstn_skipn n l). apply in_or_app. now right.
Qed.

Lemma unpack_byte_range (bs : bytes) :
  Forall is_byte bs ->
  0 <= unpack_field FB (firstn 1 bs) < 256.
Proof.
  intros H. cbn [unpack_field]. unfold unpack_unsigned.
  assert (Hf : Forall (fun b => 0 <= b < 256) (firstn 1 bs))
    by (apply Forall_firstn_of; exact H).
  pose proof (le_value_range _ Hf) as Hr.
  assert (length (firstn 1 bs) <= 1)%nat by (rewrite length_firstn; lia).
  assert (2 ^ (8 * Z.of_nat (length (firstn 1 bs))) <= 2 ^ 8)
    by (apply Z.pow_le_mono_r; lia).
  change (2 ^ 8) with 256 in *. lia.
Qed.

Ltac invert_reader_steps :=
  repeat match goal with
         | H : rd_bind _ _ _ = Ok _ |- _ =>
             apply rd_bind_ok in H; destruct H as (? & ? & ? & H)
         | H : rd_ret _ _ = Ok _ |- _ =>
             apply rd_ret_ok in H; destruct H as [? ?]; subst
         | H : rd_lift _ _ = Ok _ |- _ =>
             apply rd_lift_ok in H; destruct H as [H ?]; subst
         | H : struct_read _ _ = Ok _ |- _ =>
             apply struct_read_ok in H; destruct H as (? & ? & ?); subst
         | H : read1 _ _ = Ok _ |- _ =>
             apply read1_ok in H; [destruct H as [? ?]; subst | discriminate]
         | H : read_vec _ = Ok _ |- _ =>
             apply read_vec_ok in H; destruct H as [? ?]; subst
         | H : context [unpack_fields (_ :: _) _] |- _ =>
             progress cbn [unpack_fields orb] in H; cbv beta iota in H
         end.

Lemma read_prop_flags (version : Z) (model_dict : list str)
      (visleaf_list : list Z) (stream : bytes) (prop : StaticProp)
      (rest : bytes) :
  4 <= version <= 10 ->
  Forall is_byte stream ->
  read_prop version model_dict visleaf_list stream = Ok (prop, rest) ->
  StaticPropFlags (flags prop) = Ok (flags prop)
  /\ (version < 10 -> flags prop < 256)
  /\ (disable_on_xbox prop = 0 \/ disable_on_xbox prop = 1)
  /\ In (model prop) model_dict.
Proof.
  intros Hv Hb H.
  assert (Hcases : version = 4 \/ version = 5 \/ version = 6 \/ version = 7
                   \/ version = 8 \/ version = 9 \/ version = 10) by lia.
  clear Hv.
  repeat (destruct Hcases as [->|Hcases]); [| | | | | |subst version].
  all: unfold read_prop in H; eval_tests_in H; cbv beta iota in H;
    cbn [orb] in H; invert_reader_steps.
  all: cbn [flags disable_on_xbox model fst snd].
  all: match goal with
       | Hf : StaticPropFlags _ = Ok _ |- _ =>
           apply flags_accepted in Hf; destruct Hf as [-> Hvalid]
       end.
  all: split; [exact Hvalid|].
  all: split;
    [intros Hlt; try (exfalso; lia);
     apply unpack_byte_range;
     repeat first [apply Forall_skipn_of | apply Forall_firstn_of];
     exact Hb|].
  all: split; [|eapply py_index_In; eassumption].
  all: try (left; reflexivity).
  all: cbn [unpack_field];
    match goal with
    | |- context [if ?c then _ else _] => destruct c
    end; [left|right]; reflexivity.
Qed.

(** A decoded prop can be carried by the version it was decoded
    from. *)
Lemma read_prop_fits (version : Z) (model_dict : list str)
      (visleaf_list : list Z) (stream : bytes) (prop : StaticProp)
      (rest : bytes) :
  4 <= version <= 10 ->
  Forall is_byte stream ->
  read_prop version model_dict visleaf_list stream = Ok (prop, rest) ->
  fits version prop /\ In (model prop) model_dict /\ Forall is_byte rest.
Proof.
  intros Hv Hb H.
  destruct (read_prop_flags _ _ _ _ _ _ Hv Hb H)
    as (Hvalid & Hsmall & Hbool & Hin).
  destruct (read_prop_by_version version _ _ _ _ _ ltac:(lia) H)
    as (-> & _ & Hfade & Hdx & Hcpu & Htint & Hscale & Hxbox).
  split; [|split; [exact Hin|now apply Forall_skipn_of]].
  unfold fits. repeat (split; [assumption|]).
  destruct Hbool as [H0|H1]; [now left|].
  destruct (Z.lt_ge_cases version 9) as [Hlt|Hge].
  - left. apply Hxbox. now left.
  - right. split; [lia|exact H1].
Qed.

(** What [rd_repeat] reads, item by item. *)
Lemma rd_repeat_Forall {A} (r : reader A) (P : A -> Prop) :
  (forall s a rest,
      Forall is_byte s -> r s = Ok (a, rest) -> P a /\ Forall is_byte rest) ->
  forall n s l rest,
    Forall is_byte s -> rd_repeat n r s = Ok (l, rest) ->
    Forall P l /\ Forall is_byte rest.
Proof.
  intros Hr. induction n as [|n IH]; intros s l rest Hs H.
  - injection H as <- <-. split; [constructor|exact Hs].
  - cbn [rd_repeat] in H.
    apply rd_bind_ok in H. destruct H as (a & s1 & Ea & H).
    apply rd_bind_ok in H. destruct H as (l' & s2 & El & H).
    injection H as <- <-.
    destruct (Hr _ _ _ Hs Ea) as [Hp Hs1].
    destruct (IH _ _ _ Hs1 El) as [Hl Hs2].
    split; [now constructor|exact Hs2].
Qed.

Lemma rstrip_nul_idempotent (b : bytes) :
  rstrip_nul (rstrip_nul b) = rstrip_nul b.
Proof.
  unfold rstrip_nul. rewrite rev_involutive. f_equal.
  induction (rev b) as [|c l IH]; [reflexivity|].
  destruct c; try reflexivity. exact IH.
Qed.

Lemma rstrip_nul_length (b : bytes) : (length (rstrip_nul b) <= length b)%nat.
Proof.
  destruct (rstrip_nul_prefix b) as [k Hk].
  rewrite Hk at 2. rewrite length_app. lia.
Qed.

Lemma read_name_fits (s : bytes) (name : str) (rest : bytes) :
  Forall is_byte s ->
  (padded_name <~ read_128s ;;
   rd_lift (decode_ascii (rstrip_nul padded_name))) s = Ok (name, rest) ->
  name_fits name /\ Forall is_byte rest.
Proof.
  intros Hs H. apply rd_bind_ok in H. destruct H as (padded & s1 & Er & H).
  apply rd_lift_ok in H. destruct H as [Hd ->].
  unfold read_128s in Er.
  destruct (length s <? 128)%nat; [discriminate|].
  assert (Hp : padded = firstn 128 s) by congruence.
  assert (Hr : s1 = skipn 128 s) by congruence.
  clear Er. subst padded s1.
  unfold decode_ascii in Hd.
  destruct (is_ascii _); [|discriminate].
  assert (Hn : name = rstrip_nul (firstn 128 s)) by congruence.
  clear Hd. subst name.
  split; [|now apply Forall_skipn_of].
  split; [|apply rstrip_nul_idempotent].
  pose proof (rstrip_nul_length (firstn 128 s)) as Hl.
  rewrite length_firstn in Hl. lia.
Qed.

(** X19: every prop that [static_props] yields from a lump of format
    version 4 to 10 made of bytes can be carried by that version, and
    its model name by a 128-byte field: these are the conditions under
    which a stored prop is read back unchanged. *)
Theorem static_props_decoded_fit (game_lumps : list (bytes * GameLump))
        (sprp : GameLump) (props : list StaticProp) :
  game_lump_get (lit "sprp") game_lumps = Some sprp ->
  4 <= game_version sprp <= 10 ->
  Forall is_byte (game_data sprp) ->
  static_props game_lumps = Ok props ->
  Forall (fits (game_version sprp)) props
  /\ Forall (fun p => name_fits (model p)) props.
Proof.
  intros Hget Hv Hb H. unfold static_props in H. rewrite Hget in H.
  destruct (Z.ltb_spec 11 (game_version sprp)); [discriminate|].
  destruct (Z.ltb_spec (game_version sprp) 4); [discriminate|].
  destruct (read_props _ _) as [[l rest]|] eqn:Er; cbn [rbind] in H;
    [|discriminate].
  injection H as <-. unfold read_props, _read_static_props_models in Er.
  apply rd_bind_ok in Er. destruct Er as (model_dict & s1 & Em & Er).
  apply rd_bind_ok in Em. destruct Em as (dict_num & s0 & En & Em).
  apply read1_ok in En; [|discriminate]. destruct En as [-> _].
  destruct (rd_repeat_Forall _ name_fits read_name_fits _ _ _ _
              (Forall_skipn_of _ _ _ Hb) Em) as [Hnames Hs1].
  apply rd_bind_ok in Er. destruct Er as (visleaf_count & s2 & Ec & Er).
  apply read1_ok in Ec; [|discriminate]. destruct Ec as [-> _].
  apply rd_bind_ok in Er. destruct Er as (visleaf_list & s3 & El & Er).
  apply struct_read_ok in El. destruct El as (_ & -> & _).
  apply rd_bind_ok in Er. destruct Er as (prop_count & s4 & Ep & Er).
  apply read1_ok in Ep; [|discriminate]. destruct Ep as [-> _].
  assert (Hs4 : Forall is_byte
                  (skipn (field_size Fi)
                     (skipn (calcsize (repeat FH (Z.to_nat visleaf_count)))
                        (skipn (field_size Fi) s1))))
    by (repeat apply Forall_skipn_of; exact Hs1).
  assert (Hstep : forall s a r,
             Forall is_byte s ->
             read_prop (game_version sprp) model_dict visleaf_list s
             = Ok (a, r) ->
             (fits (game_version sprp) a /\ In (model a) model_dict)
             /\ Forall is_byte r).
  { intros s a r Hs Hr.
    destruct (read_prop_fits _ _ _ _ _ _ Hv Hs Hr) as (? & ? & ?). auto. }
  destruct (rd_repeat_Forall _ _ Hstep _ _ _ _ Hs4 Er) as [Hprops _].
  rewrite Forall_forall in Hprops, Hnames.
  split; apply Forall_forall; intros p Hp;
    destruct (Hprops p Hp) as [Hf Hin]; [exact Hf|now apply Hnames].
Qed.


End StaticPropDecoded.

(** A version 9 lump with one model and one prop. *)
Lemma static_props_decoded_fit_witness :
  let data := [1; 0; 0; 0] ++ lit "a.mdl" ++ repeat 0 123
              ++ [2; 0; 0; 0; 3; 0; 4; 0; 1; 0; 0; 0]
              ++ [0; 0; 0; 0; 0; 0; 128; 63; 0; 0; 0; 0;
                  0; 0; 0; 0; 0; 0; 0; 0; 0; 0; 0; 0; 0; 0;
                  0; 0; 2; 0; 6; 3; 0; 0; 0; 0; 0; 0; 0; 0; 0; 0; 0; 0;
                  0; 0; 0; 0; 0; 0; 0; 0; 0; 0; 0; 0;
                  0; 0; 0; 64; 1; 2; 3; 4; 10; 20; 30; 7; 1; 0; 0; 0] in
  let sprp := mkGameLump (lit "sprp") 0 9 data in
  Forall is_byte data
  /\ exists props,
      StaticProps.static_props [(lit "sprp", sprp)] = Ok props
      /\ length props = 1%nat
      /\ Forall (fits 9) props
      /\ Forall (fun p => name_fits (StaticProps.model p)) props.
Proof.
  intros data sprp.
  assert (Hb : Forall is_byte data).
  { apply Forall_forall. intros b Hin.
    assert (Hall : forallb (fun b => (0 <=? b) && (b <? 256)) data = true)
      by (vm_compute; reflexivity).
    rewrite forallb_forall in Hall. specialize (Hall b Hin).
    apply andb_true_iff in Hall. unfold is_byte. lia. }
  split; [exact Hb|].
  destruct (StaticProps.static_props [(lit "sprp", sprp)])
    as [props|e] eqn:E; [|vm_compute in E; discriminate].
  exists props. split; [reflexivity|].
  split; [vm_compute in E; injection E as <-; reflexivity|].
  apply (static_props_decoded_fit [(lit "sprp", sprp)] sprp props);
    [reflexivity|cbn; lia|exact Hb|exact E].
Defined.

(** ** Entity lump: the map version, and reading back what was written *)

Section EntRoundTrip.
Import Ents.
Variable Output : Type.
Variable Output_parse : str -> str -> result Output.
Variable set_comma_sep : bool -> Output -> Output.
Variable _get_text : Output -> str.
Variable escape_text : str -> str.
Variable conv_int : str -> Z -> Z.

(** The loop body leaves [vmf.map_ver] alone, and returns on the NUL
    line only. *)
Lemma read_line_map_ver (st : reading Output) (line : bytes) :
  match read_line Output Output_parse st line with
  | Ok (Continue _ st') =>
      map_ver Output (vmf Output st') = map_ver Output (vmf Output st)
      /\ (line = [0] -> False)
  | Ok (Return _ v) => v = vmf Output st /\ line = [0]
  | Raise _ => True
  end.
Proof.
  unfold read_line.
  destruct (bytes_eqb line (lit "{")) eqn:E1.
  { apply bytes_eqb_eq in E1. subst line.
    destruct (cur_ent Output st); try exact I.
    destruct (seen_spawn Output st); (split; [reflexivity|discriminate]). }
  destruct (bytes_eqb line (lit "}")) eqn:E2.
  { apply bytes_eqb_eq in E2. subst line.
    destruct (cur_ent Output st); try exact I.
    - destruct (bytes_eqb (get_key Output _ _) _); [|exact I].
      split; [reflexivity|discriminate].
    - split; [reflexivity|discriminate]. }
  destruct (bytes_eqb line [0]) eqn:E3.
  { apply bytes_eqb_eq in E3. subst line.
    destruct (cur_ent Output st); try exact I. split; reflexivity. }
  assert (Hne : line = [0] -> False).
  { intros ->. vm_compute in E3. discriminate. }
  destruct (cur_ent Output st) as [| |ent]; try exact I.
  - destruct (read_keyvalue _ _ _ _ _) as [[e sep]|err]; cbn [rbind];
      [|exact I].
    split; [reflexivity|exact Hne].
  - destruct (read_keyvalue _ _ _ _ _) as [[e sep]|err]; cbn [rbind];
      [|exact I].
    split; [reflexivity|exact Hne].
Qed.

Lemma read_lines_map_ver (lines : list bytes) :
  forall (st : reading Output) (v : VMF Output) (sep : option bool),
    read_lines Output Output_parse conv_int lines st = Ok (v, sep) ->
    (In [0] lines -> map_ver Output v = map_ver Output (vmf Output st))
    /\ (~ In [0] lines ->
        map_ver Output v
        = conv_int (get_key Output (spawn Output v) (lit "mapversion"))
                   (map_ver Output (vmf Output st))).
Proof.
  induction lines as [|line lines IH]; intros st v sep H;
    cbn [read_lines] in H.
  - injection H as <- _. split; [intros []|reflexivity].
  - pose proof (read_line_map_ver st line) as Hl.
    destruct (read_line Output Output_parse st line) as [[st'|v']|e];
      cbn [rbind] in H; [| |discriminate].
    + destruct Hl as [Hm Hne]. destruct (IH _ _ _ H) as [Hin Hnot].
      rewrite <- Hm. split.
      * intros [Heq|Hi]; [exfalso; apply Hne; now symmetry|now apply Hin].
      * intros Hn. apply Hnot. intros Hi. apply Hn. now right.
    + destruct Hl as [-> ->]. injection H as <- _.
      split; [reflexivity|]. intros Hn. exfalso. apply Hn. now left.
Qed.

(** X20: the map version is taken from the world entity's [mapversion]
    only when the lump has no NUL line: a decode that meets the NUL
    line that ends a lump returns there, and the map comes back with
    the version [VMF()] gave it. *)
Theorem ents_map_ver_only_without_terminator
        (new_vmf : VMF Output) (out_sep : option bool) (ent_data : bytes)
        (v : VMF Output) (sep : option bool) :
  _lmp_read_ents Output Output_parse conv_int new_vmf out_sep ent_data
  = Ok (v, sep) ->
  (In [0] (splitlines ent_data) ->
   map_ver Output v = map_ver Output new_vmf)
  /\ (~ In [0] (splitlines ent_data) ->
      map_ver Output v
      = conv_int (get_key Output (spawn Output v) (lit "mapversion"))
                 (map_ver Output new_vmf)).
Proof.
  intros H. unfold _lmp_read_ents in H.
  exact (read_lines_map_ver _ _ _ _ H).
Qed.

End EntRoundTrip.

(** The same entity with and without the NUL that ends a lump: the
    map version 7 is picked up in the second case only. *)
Lemma ents_map_ver_only_without_terminator_witness :
  let parse := fun (_ _ : str) => Ok tt in
  let conv := fun (s : str) (d : Z) =>
                if bytes_eqb s (lit "7") then 7 else d in
  let new_vmf := Ents.mkVMF unit (Ents.mkEntity unit [] []) [] 0 in
  let body :=
    lit "{" ++ [10; 34] ++ lit "classname" ++ [34; 32; 34]
      ++ lit "worldspawn" ++ [34; 10; 34]
      ++ lit "mapversion" ++ [34; 32; 34] ++ lit "7"
      ++ [34; 10] ++ lit "}" ++ [10] in
  (exists v, Ents._lmp_read_ents unit parse conv new_vmf None (body ++ [0])
             = Ok (v, None)
             /\ Ents.map_ver unit v = 0)
  /\ (exists v, Ents._lmp_read_ents unit parse conv new_vmf None body
                = Ok (v, None)
                /\ Ents.map_ver unit v = 7).
Proof.
  intros parse conv new_vmf body. split.
  - destruct (Ents._lmp_read_ents unit parse conv new_vmf None (body ++ [0]))
      as [[v sep]|e] eqn:E; [|vm_compute in E; discriminate].
    exists v. split; [vm_compute in E |- *; congruence|].
    apply (proj1 (ents_map_ver_only_without_terminator unit parse conv
                    new_vmf None (body ++ [0]) v sep E)).
    vm_compute. auto 10.
  - destruct (Ents._lmp_read_ents unit parse conv new_vmf None body)
      as [[v sep]|e] eqn:E; [|vm_compute in E; discriminate].
    exists v. split; [vm_compute in E |- *; congruence|].
    rewrite (proj2 (ents_map_ver_only_without_terminator unit parse conv
                      new_vmf None body v sep E)).
    + vm_compute in E. injection E as <- _. reflexivity.
    + vm_compute. intros H. repeat (destruct H as [H|H]; [discriminate|]).
      exact H.
Defined.

(** ** Entity lump: lines *)

Lemma splitlines_from_step (cur : bytes) (b : Z) (tl : bytes) :
  b <> 10 -> b <> 13 ->
  splitlines_from cur (b :: tl) = splitlines_from (b :: cur) tl.
Proof.
  intros H10 H13.
  destruct b as [|p|p]; try reflexivity.
  do 4 (destruct p as [p|p|]; try reflexivity); congruence.
Qed.

Lemma splitlines_from_line (l : bytes) :
  forall cur rest,
    ~ In 10 l -> ~ In 13 l ->
    splitlines_from cur (l ++ 10 :: rest)
    = (rev cur ++ l) :: splitlines_from [] rest.
Proof.
  induction l as [|b l IH]; intros cur rest H10 H13.
  - cbn [app splitlines_from]. now rewrite app_nil_r.
  - cbn [app]. rewrite splitlines_from_step.
    + rewrite IH.
      * cbn [rev]. now rewrite <- app_assoc.
      * intros H. apply H10. now right.
      * intros H. apply H13. now right.
    + intros ->. apply H10. now left.
    + intros ->. apply H13. now left.
Qed.

(** Lines that hold no line break, each ended by a line feed, are the
    lines [splitlines] finds. *)
Lemma splitlines_lines (ls : list bytes) (tail : bytes) :
  Forall (fun l => ~ In 10 l /\ ~ In 13 l) ls ->
  splitlines (concat (map (fun l => l ++ [10]) ls) ++ tail)
  = ls ++ splitlines tail.
Proof.
  unfold splitlines. induction 1 as [|l ls [H10 H13] _ IH]; [reflexivity|].
  cbn [map concat]. rewrite <- !app_assoc. cbn [app].
  rewrite (splitlines_from_line l [] _ H10 H13). cbn [rev app].
  now rewrite IH.
Qed.

Lemma starts_with_head (a b : Z) (sub data : bytes) :
  a <> b -> starts_with (a :: sub) (b :: data) = false.
Proof.
  intros H. cbn [starts_with]. destruct (Z.eqb_spec a b); [contradiction|].
  reflexivity.
Qed.

Lemma bytes_eqb_head (a b : Z) (x y : bytes) :
  a <> b -> bytes_eqb (a :: x) (b :: y) = false.
Proof.
  intros H. unfold bytes_eqb. rewrite (starts_with_head _ _ _ _ H).
  apply andb_false_r.
Qed.

(** Where the separator between key and value is found. *)
Lemma find_sep_after (k rest : bytes) :
  ~ In 34 k ->
  forall i, find_from i (k ++ [34; 32; 34] ++ rest) [34; 32; 34] = i + len k.
Proof.
  intros Hk. induction k as [|c k IH]; intros i.
  - cbn [app find_from starts_with]. rewrite ?Z.eqb_refl. cbn [andb].
    unfold len. cbn [length]. lia.
  - cbn [app find_from]. rewrite starts_with_head.
    + rewrite IH by (intros H; apply Hk; now right).
      unfold len. cbn [length]. lia.
    + intros <-. apply Hk. now left.
Qed.

Lemma find_sep_in_line (k rest : bytes) :
  ~ In 34 k -> k <> [32] ->
  bytes_find ([34] ++ k ++ [34; 32; 34] ++ rest) [34; 32; 34] = 1 + len k.
Proof.
  intros Hk Hs. unfold bytes_find. cbn [app find_from].
  assert (Hfirst : starts_with [34; 32; 34]
                               (34 :: k ++ 34 :: 32 :: 34 :: rest) = false).
  { cbn [starts_with]. rewrite ?Z.eqb_refl. cbn [andb].
    destruct k as [|c [|d k]]; cbn [app].
    - reflexivity.
    - destruct (Z.eqb_spec 32 c); [congruence|reflexivity].
    - destruct (Z.eqb_spec 32 c); [|reflexivity]. cbn [andb].
      destruct (Z.eqb_spec 34 d); [|reflexivity].
      exfalso. apply Hk. right. now left. }
  rewrite Hfirst. apply (find_sep_after k rest Hk).
Qed.

Lemma find_sep_absent (v : bytes) :
  ~ In 34 v -> forall i, find_from i (v ++ [34]) [34; 32; 34] = -1.
Proof.
  intros Hv. induction v as [|c v IH]; intros i.
  - reflexivity.
  - cbn [app find_from]. rewrite starts_with_head.
    + apply IH. intros H. apply Hv. now right.
    + intros <-. apply Hv. now left.
Qed.

Lemma unescape_quotes_none (v : bytes) :
  ~ In 34 v -> unescape_quotes v = v.
Proof.
  induction v as [|b v IH]; intros Hv; [reflexivity|].
  assert (IH' : unescape_quotes v = v)
    by (apply IH; intros H; apply Hv; now right).
  destruct (Z.eq_dec b 92) as [->|Hb].
  - cbn [unescape_quotes]. destruct v as [|c v']; [reflexivity|].
    assert (Hc : c <> 34) by (intros ->; apply Hv; right; now left).
    rewrite IH'.
    destruct c as [|p|p]; try reflexivity.
    do 6 (destruct p as [p|p|]; try reflexivity). congruence.
  - assert (Hstep : unescape_quotes (b :: v) = b :: unescape_quotes v).
    { destruct b as [|p|p]; try reflexivity.
      do 7 (destruct p as [p|p|]; try reflexivity). congruence. }
    now rewrite Hstep, IH'.
Qed.

Lemma is_ascii_app (a b : list Z) :
  is_ascii (a ++ b) = is_ascii a && is_ascii b.
Proof. apply forallb_app. Qed.

Lemma contains_app (b : Z) (x y : bytes) :
  contains b (x ++ y) = contains b x || contains b y.
Proof. apply existsb_app. Qed.

Lemma contains_absent (b : Z) (x : bytes) : ~ In b x -> contains b x = false.
Proof.
  intros H. unfold contains. destruct (existsb (Z.eqb b) x) eqn:E;
    [|reflexivity].
  apply existsb_exists in E. destruct E as (c & Hc & E).
  apply Z.eqb_eq in E. now subst.
Qed.

Lemma count_app (b : Z) (x y : bytes) :
  count b (x ++ y) = count b x + count b y.
Proof. unfold count. now rewrite filter_app, len_app. Qed.

(** ** Entity lump: reading back what was written *)

Section EntWriteRead.
Import Ents.
Variable Output : Type.
Variable Output_parse : str -> str -> result Output.
Variable set_comma_sep : bool -> Output -> Output.
Variable _get_text : Output -> str.
Variable escape_text : str -> str.
Variable conv_int : str -> Z -> Z.

(** The line written for a keyvalue, without its line feed. *)
Definition kv_line (kv : str * str) : bytes :=
  [34] ++ fst kv ++ [34; 32; 34] ++ escape_text (snd kv) ++ [34].

(** The lines written for an entity that has no outputs. *)
Definition ent_lines (ent : Entity Output) : list bytes :=
  lit "{" :: map kv_line (keys Output ent) ++ [lit "}"].

(** A keyvalue that is written on a line of its own and read as a
    keyvalue: ASCII without line breaks, no quote in the key, which is
    not a single space, and a value without quote or byte 27, not
    with four commas, that [escape_text] leaves as it is. *)
Definition plain_kv (kv : str * str) : Prop :=
  is_ascii (fst kv) = true /\ is_ascii (snd kv) = true
  /\ ~ In 34 (fst kv) /\ fst kv <> [32]
  /\ ~ In 10 (fst kv) /\ ~ In 13 (fst kv)
  /\ escape_text (snd kv) = snd kv
  /\ ~ In 34 (snd kv) /\ ~ In 10 (snd kv) /\ ~ In 13 (snd kv)
  /\ ~ In 27 (snd kv) /\ count 44 (snd kv) <> 4.

(** [cur_ent[key] = value] for each keyvalue in turn. *)
Definition replay (ent : Entity Output) (kvs : list (str * str))
  : Entity Output :=
  fold_left (fun e kv => set_key Output e (fst kv) (snd kv)) kvs ent.

Lemma split_kv_line (kv : str * str) :
  plain_kv kv ->
  split_keyvalue (kv_line kv) = Ok ([34] ++ fst kv, snd kv ++ [34]).
Proof.
  intros (_ & _ & Hq & Hs & _ & _ & He & Hvq & _).
  unfold split_keyvalue, kv_line. rewrite He.
  rewrite (find_sep_in_line (fst kv) (snd kv ++ [34]) Hq Hs).
  pose proof (len_nonneg (fst kv)) as Hl.
  destruct (Z.eqb_spec (1 + len (fst kv)) (-1)) as [E|_]; [lia|].
  replace (Z.to_nat (1 + len (fst kv))) with (S (length (fst kv)))
    by (unfold len; lia).
  assert (Hv : skipn (S (length (fst kv)) + 3)
                     ([34] ++ fst kv ++ [34; 32; 34] ++ snd kv ++ [34])
               = snd kv ++ [34]).
  { cbn [app Nat.add skipn].
    replace (length (fst kv) + 3)%nat with (length (fst kv ++ [34; 32; 34]))
      by (rewrite length_app; reflexivity).
    change (fst kv ++ 34 :: 32 :: 34 :: snd kv ++ [34])
      with (fst kv ++ [34; 32; 34] ++ snd kv ++ [34]).
    rewrite app_assoc. apply (skipn_exact _ _ _ eq_refl). }
  rewrite Hv. unfold bytes_find. rewrite (find_sep_absent _ Hvq).
  rewrite Z.eqb_refl. f_equal. f_equal.
  cbn [app firstn]. f_equal. apply (firstn_exact _ _ _ eq_refl).
Qed.

Lemma py_slice_tail (c : Z) (k : bytes) :
  py_slice ([c] ++ k) 1 (len ([c] ++ k)) = k.
Proof.
  pose proof (py_slice_middle [c] k []) as H.
  rewrite app_nil_r in H. rewrite len_app. exact H.
Qed.

Lemma py_slice_init (v : bytes) (c : Z) : py_slice (v ++ [c]) 0 (-1) = v.
Proof.
  unfold py_slice, py_bound. rewrite len_app.
  change (len [c]) with 1. pose proof (len_nonneg v).
  cbn [Z.ltb Z.compare].
  rewrite Z.max_l by lia. rewrite Z.min_l by lia.
  cbn [Z.to_nat skipn].
  replace (Z.to_nat (-1 + (len v + 1) - 0)) with (length v)
    by (unfold len; lia).
  apply (firstn_exact _ _ _ eq_refl).
Qed.

Lemma read_kv_line (out_sep : option bool) (ent : Entity Output)
      (kv : str * str) :
  plain_kv kv ->
  read_keyvalue Output Output_parse out_sep ent (kv_line kv)
  = Ok (set_key Output ent (fst kv) (snd kv), out_sep).
Proof.
  intros Hp. pose proof (split_kv_line kv Hp) as Hs.
  destruct Hp as (Hak & Hav & _ & _ & _ & _ & _ & Hvq & _ & _ & H27 & H44).
  unfold read_keyvalue. rewrite Hs. cbn [rbind].
  rewrite py_slice_tail, py_slice_init, (unescape_quotes_none _ Hvq).
  unfold decode_ascii. rewrite Hak, Hav. cbn [rbind].
  rewrite contains_app, (contains_absent _ _ H27). cbn [contains existsb orb].
  rewrite count_app. change (count 44 [34]) with 0. rewrite Z.add_0_r.
  destruct (Z.eqb_spec (count 44 (snd kv)) 4); [contradiction|reflexivity].
Qed.

Lemma kv_line_is_no_marker (kv : str * str) :
  bytes_eqb (kv_line kv) (lit "{") = false
  /\ bytes_eqb (kv_line kv) (lit "}") = false
  /\ bytes_eqb (kv_line kv) [0] = false.
Proof.
  unfold kv_line. cbn [app].
  repeat split; apply bytes_eqb_head; discriminate.
Qed.

(** The keyvalue lines of an entity that is being read. *)
Lemma read_kv_lines_entity (rest : list bytes) (v : VMF Output)
      (seen : bool) (sep : option bool) :
  forall (kvs : list (str * str)) (ent : Entity Output),
    Forall plain_kv kvs ->
    read_lines Output Output_parse conv_int (map kv_line kvs ++ rest)
               (mkReading Output v (InEntity Output ent) seen sep)
    = read_lines Output Output_parse conv_int rest
                 (mkReading Output v (InEntity Output (replay ent kvs))
                            seen sep).
Proof.
  induction kvs as [|kv kvs IH]; intros ent Hp; [reflexivity|].
  inversion Hp as [|? ? Hkv Hrest]; subst.
  cbn [map app read_lines]. unfold read_line at 1.
  destruct (kv_line_is_no_marker kv) as (-> & -> & ->).
  cbn [cur_ent comma_sep]. rewrite (read_kv_line _ _ _ Hkv). cbn [rbind].
  cbn [fst snd vmf seen_spawn]. rewrite (IH _ Hrest). reflexivity.
Qed.

(** The keyvalue lines of the world entity. *)
Lemma read_kv_lines_spawn (rest : list bytes) (ents : list (Entity Output))
      (mv : Z) (seen : bool) (sep : option bool) :
  forall (kvs : list (str * str)) (sp : Entity Output),
    Forall plain_kv kvs ->
    read_lines Output Output_parse conv_int (map kv_line kvs ++ rest)
               (mkReading Output (mkVMF Output sp ents mv)
                          (InSpawn Output) seen sep)
    = read_lines Output Output_parse conv_int rest
                 (mkReading Output (mkVMF Output (replay sp kvs) ents mv)
                            (InSpawn Output) seen sep).
Proof.
  induction kvs as [|kv kvs IH]; intros sp Hp; [reflexivity|].
  inversion Hp as [|? ? Hkv Hrest]; subst.
  cbn [map app read_lines]. unfold read_line at 1.
  destruct (kv_line_is_no_marker kv) as (-> & -> & ->).
  cbn [cur_ent comma_sep vmf spawn]. rewrite (read_kv_line _ _ _ Hkv).
  cbn [rbind]. cbn [fst snd vmf seen_spawn entities map_ver].
  rewrite (IH _ Hrest). reflexivity.
Qed.

Ltac eval_marker_tests :=
  repeat match goal with
         | |- context [bytes_eqb ?a ?b] =>
             let r := eval vm_compute in (bytes_eqb a b) in
             match r with
             | true => change (bytes_eqb a b) with true
             | false => change (bytes_eqb a b) with false
             end
         end.

(** The lines of one more entity. *)
Lemma read_entity_lines (rest : list bytes) (sp : Entity Output)
      (ents : list (Entity Output)) (mv : Z) (sep : option bool)
      (ent : Entity Output) :
  Forall plain_kv (keys Output ent) ->
  read_lines Output Output_parse conv_int (ent_lines ent ++ rest)
             (mkReading Output (mkVMF Output sp ents mv) (Between Output)
                        true sep)
  = read_lines Output Output_parse conv_int rest
      (mkReading Output
         (mkVMF Output sp
                (ents ++ [replay (mkEntity Output [] []) (keys Output ent)])
                mv)
         (Between Output) true sep).
Proof.
  intros Hp. unfold ent_lines. cbn [app read_lines].
  unfold read_line at 1. eval_marker_tests.
  cbn [cur_ent seen_spawn rbind vmf comma_sep].
  rewrite <- app_assoc. rewrite (read_kv_lines_entity _ _ _ _ _ _ Hp).
  cbn [app read_lines]. unfold read_line at 1. eval_marker_tests.
  cbn [cur_ent seen_spawn rbind vmf comma_sep spawn entities map_ver].
  reflexivity.
Qed.

Lemma read_entities_lines (rest : list bytes) (sp : Entity Output)
      (mv : Z) (sep : option bool) :
  forall (es ents : list (Entity Output)),
    Forall (fun e => Forall plain_kv (keys Output e)) es ->
    read_lines Output Output_parse conv_int (flat_map ent_lines es ++ rest)
               (mkReading Output (mkVMF Output sp ents mv) (Between Output)
                          true sep)
    = read_lines Output Output_parse conv_int rest
        (mkReading Output
           (mkVMF Output sp
                  (ents ++ map (fun e => replay (mkEntity Output [] [])
                                                (keys Output e)) es)
                  mv)
           (Between Output) true sep).
Proof.
  induction es as [|e es IH]; intros ents Hp.
  - cbn [flat_map map app]. now rewrite app_nil_r.
  - inversion Hp as [|? ? He Hes]; subst.
    cbn [flat_map map]. rewrite <- app_assoc.
    rewrite (read_entity_lines _ _ _ _ _ _ He), (IH _ Hes).
    now rewrite <- app_assoc.
Qed.

(** The lines of the world entity, which come first. *)
Lemma read_spawn_lines (rest : list bytes) (sp : Entity Output)
      (ents : list (Entity Output)) (mv : Z) (sep : option bool)
      (world : Entity Output) :
  Forall plain_kv (keys Output world) ->
  get_key Output (replay sp (keys Output world)) (lit "classname")
  = lit "worldspawn" ->
  read_lines Output Output_parse conv_int (ent_lines world ++ rest)
             (mkReading Output (mkVMF Output sp ents mv) (Between Output)
                        false sep)
  = read_lines Output Output_parse conv_int rest
      (mkReading Output
         (mkVMF Output (replay sp (keys Output world)) ents mv)
         (Between Output) true sep).
Proof.
  intros Hp Hc. unfold ent_lines. cbn [app read_lines].
  unfold read_line at 1. eval_marker_tests.
  cbn [cur_ent seen_spawn rbind vmf comma_sep].
  rewrite <- app_assoc. rewrite (read_kv_lines_spawn _ _ _ _ _ _ _ Hp).
  cbn [app read_lines]. unfold read_line at 1. eval_marker_tests.
  cbn [cur_ent seen_spawn vmf comma_sep spawn entities map_ver].
  rewrite Hc. eval_marker_tests. cbn [rbind]. reflexivity.
Qed.

Lemma kv_line_ascii (kv : str * str) :
  plain_kv kv -> is_ascii (kv_line kv ++ [10]) = true.
Proof.
  intros (Hak & Hav & _ & _ & _ & _ & He & _).
  unfold kv_line. rewrite He, !is_ascii_app, Hak, Hav. reflexivity.
Qed.

Lemma write_kv_lines (kvs : list (str * str)) :
  Forall plain_kv kvs ->
  for_each (fun kv => encode_ascii
                        ([34] ++ fst kv ++ [34; 32; 34]
                              ++ escape_text (snd kv) ++ [34; 10])) kvs
  = Ok (map (fun kv => kv_line kv ++ [10]) kvs).
Proof.
  induction 1 as [|kv kvs Hkv _ IH]; [reflexivity|].
  cbn [for_each map]. rewrite IH. unfold encode_ascii.
  assert (Heq : forall l, l = kv_line kv ++ [10] -> is_ascii l = true)
    by (intros l ->; exact (kv_line_ascii kv Hkv)).
  match goal with
  | |- context [is_ascii ?l] =>
      rewrite (Heq l)
        by (unfold kv_line; rewrite <- !app_assoc; reflexivity)
  end.
  cbn [rbind]. f_equal. f_equal.
  unfold kv_line. rewrite <- !app_assoc. reflexivity.
Qed.

(** What is written for an entity without outputs: its lines, each
    with a line feed. *)
Lemma write_entity_lines (use_comma_sep : option bool)
      (ent : Entity Output) :
  Forall plain_kv (keys Output ent) -> outputs Output ent = [] ->
  write_entity Output set_comma_sep _get_text escape_text use_comma_sep ent
  = Ok (concat (map (fun l => l ++ [10]) (ent_lines ent))).
Proof.
  intros Hp Ho. unfold write_entity. rewrite (write_kv_lines _ Hp), Ho.
  cbn [rbind for_each concat]. f_equal. unfold ent_lines.
  cbn [map concat]. rewrite map_app, concat_app, map_map.
  cbn [map concat]. rewrite <- !app_assoc. reflexivity.
Qed.

Lemma write_entities_lines (use_comma_sep : option bool)
      (es : list (Entity Output)) :
  Forall (fun e => Forall plain_kv (keys Output e)
                   /\ outputs Output e = []) es ->
  exists blocks,
    for_each (write_entity Output set_comma_sep _get_text escape_text
                           use_comma_sep) es = Ok blocks
    /\ concat blocks
       = concat (map (fun l => l ++ [10]) (flat_map ent_lines es)).
Proof.
  induction 1 as [|e es [Hp Ho] _ (blocks & Hb & Hc)].
  - exists []. split; reflexivity.
  - exists (concat (map (fun l => l ++ [10]) (ent_lines e)) :: blocks).
    cbn [for_each]. rewrite (write_entity_lines _ _ Hp Ho), Hb.
    split; [reflexivity|].
    cbn [concat flat_map]. now rewrite map_app, concat_app, Hc.
Qed.

Lemma kv_line_unbroken (kv : str * str) :
  plain_kv kv -> ~ In 10 (kv_line kv) /\ ~ In 13 (kv_line kv).
Proof.
  intros (_ & _ & _ & _ & Hk10 & Hk13 & He & _ & Hv10 & Hv13 & _).
  unfold kv_line. rewrite He.
  split; intros H;
    repeat (apply in_app_or in H; destruct H as [H|H]);
    try contradiction;
    repeat (destruct H as [H|H]; [discriminate|]); exact H.
Qed.

Lemma ent_lines_unbroken (es : list (Entity Output)) :
  Forall (fun e => Forall plain_kv (keys Output e)) es ->
  Forall (fun l => ~ In 10 l /\ ~ In 13 l) (flat_map ent_lines es).
Proof.
  induction 1 as [|e es Hp _ IH]; [constructor|].
  cbn [flat_map]. apply Forall_app. split; [|exact IH].
  unfold ent_lines. constructor.
  { split; intros [H|[]]; discriminate. }
  apply Forall_app. split.
  - apply Forall_forall. intros l Hl. apply in_map_iff in Hl.
    destruct Hl as (kv & <- & Hkv). apply kv_line_unbroken.
    rewrite Forall_forall in Hp. now apply Hp.
  - constructor; [|constructor]. split; intros [H|[]]; discriminate.
Qed.

Lemma assoc_set_fresh (k v : str) (acc : list (str * str)) :
  ~ In k (map fst acc) -> assoc_set k v acc = acc ++ [(k, v)].
Proof.
  induction acc as [|[k' v'] acc IH]; intros Hn; [reflexivity|].
  cbn [assoc_set app]. destruct (bytes_eqb k' k) eqn:E.
  - apply bytes_eqb_eq in E. subst. exfalso. apply Hn. now left.
  - rewrite IH; [reflexivity|]. intros H. apply Hn. now right.
Qed.

(** Assignments of distinct new keys add the keyvalues in order. *)
Lemma replay_distinct (outs : list Output) :
  forall (kvs acc : list (str * str)),
    NoDup (map fst (acc ++ kvs)) ->
    replay (mkEntity Output acc outs) kvs = mkEntity Output (acc ++ kvs) outs.
Proof.
  induction kvs as [|[k v] kvs IH]; intros acc Hn.
  - cbn [replay fold_left]. now rewrite app_nil_r.
  - unfold replay in *. cbn [fold_left fst snd]. unfold set_key at 2.
    cbn [keys outputs].
    rewrite map_app in Hn. cbn [map fst] in Hn.
    rewrite assoc_set_fresh.
    + rewrite IH.
      * now rewrite <- app_assoc.
      * rewrite <- app_assoc, map_app. exact Hn.
    + apply NoDup_remove_2 in Hn. intros H. apply Hn.
      apply in_or_app. now left.
Qed.

(** X21: a map whose entities have no outputs and only plain keyvalues
    (ASCII without line breaks or quotes, a key that is not a single
    space, a value without byte 27 and not with four commas that
    [escape_text] leaves as it is), under distinct keys, is read back
    from the lump written for it: the entities come back as they
    were, after those of the new map, the world entity's keyvalues
    are assigned in order to the new map's world entity, the
    separator style stays as it was, and the map version is the new
    map's.  The world entity has to come out with the classname
    [worldspawn]. *)
Theorem ents_write_read (v new_vmf : VMF Output)
        (use_comma_sep out_sep : option bool) :
  Forall plain_kv (keys Output (spawn Output v)) ->
  outputs Output (spawn Output v) = [] ->
  Forall (fun e => Forall plain_kv (keys Output e)
                   /\ NoDup (map fst (keys Output e))
                   /\ outputs Output e = []) (entities Output v) ->
  get_key Output (replay (spawn Output new_vmf)
                         (keys Output (spawn Output v))) (lit "classname")
  = lit "worldspawn" ->
  exists data,
    write_ent_data Output set_comma_sep _get_text escape_text v use_comma_sep
    = Ok data
    /\ _lmp_read_ents Output Output_parse conv_int new_vmf out_sep data
       = Ok (mkVMF Output
                   (replay (spawn Output new_vmf)
                           (keys Output (spawn Output v)))
                   (entities Output new_vmf ++ entities Output v)
                   (map_ver Output new_vmf),
             out_sep).
Proof.
  intros Hs Hso He Hc.
  assert (Hall : Forall (fun e => Forall plain_kv (keys Output e)
                                  /\ outputs Output e = [])
                        (spawn Output v :: entities Output v)).
  { constructor; [now split|].
    eapply Forall_impl; [|exact He]. intros e (? & _ & ?). now split. }
  destruct (write_entities_lines use_comma_sep _ Hall) as (blocks & Hb & Hcat).
  exists (concat blocks ++ [0]). unfold write_ent_data. rewrite Hb.
  split; [reflexivity|].
  assert (Hplain : Forall (fun e => Forall plain_kv (keys Output e))
                          (spawn Output v :: entities Output v)).
  { eapply Forall_impl; [|exact Hall]. now intros e [? _]. }
  unfold _lmp_read_ents. rewrite Hcat.
  rewrite (splitlines_lines _ _ (ent_lines_unbroken _ Hplain)).
  change (splitlines [0]) with [[0]].
  cbn [flat_map]. rewrite <- app_assoc.
  destruct new_vmf as [sp ents mv]. cbn [spawn entities map_ver] in *.
  inversion Hplain as [|? ? Hsp Hents]; subst.
  rewrite (read_spawn_lines _ _ _ _ _ _ Hsp Hc).
  rewrite (read_entities_lines _ _ _ _ _ _ Hents).
  cbn [read_lines]. unfold read_line.
  change (bytes_eqb [0] (lit "{")) with false.
  change (bytes_eqb [0] (lit "}")) with false.
  change (bytes_eqb [0] [0]) with true.
  cbn [cur_ent rbind vmf comma_sep]. f_equal. f_equal. f_equal. f_equal.
  clear -He. induction He as [|e es (_ & Hn & Ho) _ IH]; [reflexivity|].
  cbn [map]. rewrite IH. f_equal.
  rewrite (replay_distinct [] (keys Output e) [] Hn).
  destruct e as [ks os]. cbn [keys outputs app] in *. now subst os.
Qed.

End EntWriteRead.

Lemma ents_write_read_witness :
  let parse := fun (_ _ : str) => Ok tt in
  let same := fun (s : str) => s in
  let world := Ents.mkEntity unit
                 [(lit "classname", lit "worldspawn");
                  (lit "skyname", lit "sky_day01")] [] in
  let start := Ents.mkEntity unit
                 [(lit "classname", lit "info_player_start");
                  (lit "origin", lit "0 0 64")] [] in
  let v := Ents.mkVMF unit world [start] 3 in
  let new_vmf := Ents.mkVMF unit (Ents.mkEntity unit [] []) [] 0 in
  exists data,
    Ents.write_ent_data unit (fun _ o => o) (fun _ => []) same v None
    = Ok data
    /\ Ents._lmp_read_ents unit parse (fun _ d => d) new_vmf None data
       = Ok (Ents.mkVMF unit world [start] 0, None).
Proof.
  intros parse same world start v new_vmf.
  assert (Hplain : forall kv,
             In kv (Ents.keys unit world ++ Ents.keys unit start) ->
             plain_kv same kv).
  { intros kv Hin. cbn [Ents.keys world start app] in Hin.
    repeat (destruct Hin as [<-|Hin]; [|]); [| | | |destruct Hin].
    all: unfold plain_kv; cbn [fst snd].
    all: repeat match goal with |- _ /\ _ => split end.
    all: try reflexivity; try (vm_compute; discriminate).
    all: intros H; vm_compute in H;
      repeat (destruct H as [H|H]; [discriminate|]); exact H. }
  apply (ents_write_read unit parse (fun _ o => o) (fun _ => []) same
           (fun _ d => d) v new_vmf None None).
  - apply Forall_forall. intros kv Hin. apply Hplain.
    apply in_or_app. now left.
  - reflexivity.
  - constructor; [|constructor]. split; [|split; [|reflexivity]].
    + apply Forall_forall. intros kv Hin. apply Hplain.
      apply in_or_app. now right.
    + cbn [Ents.keys start map fst].
      constructor; [|constructor; [intros []|constructor]].
      intros [H|[]]. vm_compute in H. discriminate.
  - vm_compute. reflexivity.
Defined.
